(** * SeaBIOS TCG BIOS extension (src/tcgbios.c): a shallow embedding

    The C code keeps one global [tpm_state], writes the ACPI event log
    through raw pointers and talks to the TPM through a table of driver
    callbacks.  Here the globals, the flat 32-bit memory and the driver
    world are the components of an explicit [machine] that every function
    takes and returns.  Integers are [Z] with the wrap-around of their C
    type written out ([u32], [u16], ...). *)

From Stdlib Require Import ZArith List Bool Lia String Ascii.
Import ListNotations.
Local Open Scope Z_scope.

(** ** Machine integers, bytes and memory *)

Definition u4 (x : Z) : Z := x mod 2 ^ 4.
Definition u8 (x : Z) : Z := x mod 2 ^ 8.
Definition u16 (x : Z) : Z := x mod 2 ^ 16.
Definition u32 (x : Z) : Z := x mod 2 ^ 32.

(** A C boolean test [if (x)] on an integer. *)
Definition nonzero (x : Z) : bool := negb (x =? 0).

Definition NULL : Z := 0.

(** The bytes readable through a pointer, by offset from it. *)
Definition bytes_at : Type := Z -> Z.

(** Flat physical memory: address to byte. *)
Definition mem : Type := Z -> Z.

Definition zeros : bytes_at := fun _ => 0.

(** The bytes of memory [r] seen through pointer [p]. *)
Definition deref (r : mem) (p : Z) : bytes_at := fun i => r (u32 (p + i)).

(** [memset(dst, c, n)] and [memcpy(dst, src, n)] on a 32-bit address
    space: address [a] is written iff its distance from [dst], taken
    modulo 2^32, is below [n].  [memcpy] takes the source bytes as they
    are when the call is made.  string.c is not among the sources at
    hand; where source and destination overlap, the bytes a copy leaves
    depend on its direction and can be other than these. *)
Definition memset (r : mem) (dst c n : Z) : mem :=
  fun a => if u32 (a - dst) <? n then c else r a.

Definition memcpy (r : mem) (dst : Z) (src : bytes_at) (n : Z) : mem :=
  fun a => if u32 (a - dst) <? n then src (u32 (a - dst)) else r a.

(** Byte [i] of the big-endian (resp. little-endian) image of a 32-bit
    or 16-bit value. *)
Definition be32_bytes (x : Z) : bytes_at :=
  fun i => Z.land (Z.shiftr x (8 * (3 - i))) 255.
Definition be16_bytes (x : Z) : bytes_at :=
  fun i => Z.land (Z.shiftr x (8 * (1 - i))) 255.
Definition le32_bytes (x : Z) : bytes_at :=
  fun i => Z.land (Z.shiftr x (8 * i)) 255.

(** The 32-bit value stored big-endian (resp. little-endian) at offset
    [off] of [b]. *)
Definition be32_at (b : bytes_at) (off : Z) : Z :=
  Z.lor (Z.shiftl (u8 (b off)) 24)
    (Z.lor (Z.shiftl (u8 (b (off + 1))) 16)
       (Z.lor (Z.shiftl (u8 (b (off + 2))) 8) (u8 (b (off + 3))))).
Definition le32_at (b : bytes_at) (off : Z) : Z :=
  Z.lor (Z.shiftl (u8 (b (off + 3))) 24)
    (Z.lor (Z.shiftl (u8 (b (off + 2))) 16)
       (Z.lor (Z.shiftl (u8 (b (off + 1))) 8) (u8 (b off)))).

(** The first [n] bytes are those of [a], the following ones those of [b]. *)
Definition img_cat (n : Z) (a b : bytes_at) : bytes_at :=
  fun i => if i <? n then a i else b (i - n).

Definition le16_at (b : bytes_at) (off : Z) : Z :=
  Z.lor (Z.shiftl (u8 (b (off + 1))) 8) (u8 (b off)).

(** A 16-bit (resp. 32-bit) store at address [a], as the x86 host does
    it. *)
Definition store_u16 (r : mem) (a v : Z) : mem := memcpy r a (le32_bytes v) 2.
Definition store_u32 (r : mem) (a v : Z) : mem := memcpy r a (le32_bytes v) 4.

(** A C string constant as its bytes; [strlen] is a [u32]. *)
Definition cstr (s : string) : list Z :=
  map (fun c => Z.of_nat (nat_of_ascii c)) (list_ascii_of_string s).
Definition strlen (s : list Z) : Z := u32 (Z.of_nat (List.length s)).
Definition str_bytes (s : list Z) : bytes_at :=
  fun i => nth (Z.to_nat i) s 0.

(** Modelled from the spec: [checksum] lives in string.c, outside the
    sources at hand; the spec describes it as the byte-sum over the
    declared length, which is zero for a valid table.  The sum is kept in
    a [u8]. *)
Fixpoint checksum_from (n : nat) (b : bytes_at) (i : Z) (acc : Z) : Z :=
  match n with
  | O => acc
  | S n' => checksum_from n' b (i + 1) (u8 (acc + b i))
  end.
Definition checksum (b : bytes_at) (len : Z) : Z :=
  checksum_from (Z.to_nat len) b 0 0.

(** ** Declarations taken from headers outside the sources at hand *)

(** Result codes, wire constants, event types and the sizes of the
    caller-visible blocks: std/tcg.h, tcgbios.h, hw/tpm_drivers.h. *)
Class tcg_h : Type := {
  TCG_PC_LOGOVERFLOW : Z;
  TCG_PC_UNSUPPORTED : Z;
  TCG_GENERAL_ERROR : Z;
  TCG_FIRMWARE_ERROR : Z;
  TCG_FATAL_COM_ERROR : Z;
  TCG_INVALID_INPUT_PARA : Z;
  TCG_INTERFACE_SHUTDOWN : Z;
  TCG_PC_TPM_NOT_PRESENT : Z;
  TCG_MAGIC : Z;
  TCG_VERSION_MAJOR : Z;
  TCG_VERSION_MINOR : Z;
  TPM_ALG_SHA : Z;
  TPM_TAG_RQU_CMD : Z;
  TPM_ORD_Extend : Z;
  TPM_ORD_PhysicalPresence : Z;
  TPM_ORD_SetTempDeactivated : Z;
  EV_ACTION : Z;
  EV_SEPARATOR : Z;
  EV_EVENT_TAG : Z;
  EV_IPL : Z;
  EV_IPL_PARTITION_DATA : Z;
  EV_COMPACT_HASH : Z;
  SHA1_BUFSIZE : Z;
  TPM_INVALID_DRIVER : Z;
  TPM_NUM_DRIVERS : Z;
  sizeof_hleei_short : Z;
  sizeof_hleei_long : Z;
  sizeof_hleeo : Z;
  sizeof_hlei : Z;
  sizeof_hleo : Z;
  sizeof_hai : Z;
  sizeof_pttti : Z;
  sizeof_pttto : Z;
  offsetof_pttto_tpmopout : Z;
  sizeof_to : Z;
  sizeof_pcctes : Z;
  sizeof_pcctes_romex : Z;
  pcctes_image : Z -> Z -> bytes_at -> bytes_at;
  pcctes_romex_image : Z -> Z -> bytes_at -> bytes_at
}.

(** Field offsets of the ACPI tables the locator reads: std/acpi.h. *)
Class acpi_h : Type := {
  TCPA_SIGNATURE : Z;
  offsetof_rsdp_rsdt_physical_address : Z;
  offsetof_rsdt_length : Z;
  offsetof_rsdt_entry : Z;
  offsetof_tcpa_signature : Z;
  offsetof_tcpa_length : Z;
  offsetof_tcpa_log_area_minimum_length : Z;
  offsetof_tcpa_log_area_start_address : Z;
  offsetof_sep_structure_table_address : Z;
  offsetof_sep_structure_table_length : Z
}.

(** Where the fields that the code assigns sit in the caller's output
    blocks: std/tcg.h.  [opblength] and [reserved] are 16-bit fields,
    [eventnumber] is a 32-bit field.  The header also gives the two
    codes with which the entry points jump to their [err_exit] label
    values other than 0, so that a status of 0 means that the call has
    come through its success path. *)
Class blocks_h {K : tcg_h} : Type := {
  offsetof_hleeo_opblength : Z;
  offsetof_hleeo_reserved : Z;
  offsetof_hleeo_eventnumber : Z;
  offsetof_pttto_opblength : Z;
  offsetof_pttto_reserved : Z;
  offsetof_hleo_opblength : Z;
  offsetof_hleo_reserved : Z;
  offsetof_hleo_eventnumber : Z;
  offsetof_to_opblength : Z;
  offsetof_to_reserved : Z;
  TCG_INTERFACE_SHUTDOWN_not_0 : TCG_INTERFACE_SHUTDOWN <> 0;
  TCG_INVALID_INPUT_PARA_not_0 : TCG_INVALID_INPUT_PARA <> 0
}.

Inductive tpmDurationType : Type :=
| TPM_DURATION_TYPE_SHORT
| TPM_DURATION_TYPE_MEDIUM
| TPM_DURATION_TYPE_LONG.

(** One entry of [tpm_drivers[]].  The driver world is a state of type
    [D]; every callback takes it and returns it with its status.
    [readresp buf len] returns the status, the buffer as the driver left
    it and the length it stored back through the length pointer. *)
Record tpm_driver (D : Type) : Type := {
  probe : D -> Z * D;
  init : D -> D;
  activate : Z -> D -> Z * D;
  ready : D -> D;
  senddata : bytes_at -> Z -> D -> Z * D;
  readresp : bytes_at -> Z -> D -> (Z * bytes_at * Z) * D;
  waitdatavalid : D -> Z * D;
  waitrespready : tpmDurationType -> D -> Z * D
}.
Arguments probe {D}.
Arguments init {D}.
Arguments activate {D}.
Arguments ready {D}.
Arguments senddata {D}.
Arguments readresp {D}.
Arguments waitdatavalid {D}.
Arguments waitrespready {D}.

(** The collaborators of the file: the driver table, the digest
    primitive (sha1.c) and the build switch of config.h. *)
Class platform : Type := {
  D : Type;
  tpm_drivers : Z -> tpm_driver D;
  sha1 : bytes_at -> Z -> Z * bytes_at;
  CONFIG_TCGBIOS : bool
}.

(** ** TPM state tracking *)

(** [tpm_state_t]: the bit-fields of width one are booleans,
    [tpm_driver_to_use] has four bits, pointers are 32-bit addresses. *)
Record tpm_state_t : Type := {
  tpm_probed : bool;
  tpm_found : bool;
  tpm_working : bool;
  if_shutdown : bool;
  tpm_driver_to_use : Z;
  tcpa : Z;
  log_area_minimum_length : Z;
  log_area_start_address : Z;
  entry_count : Z;
  log_area_next_entry : Z;
  log_area_last_entry : Z
}.

Definition set_tpm_probed (v : bool) (s : tpm_state_t) : tpm_state_t :=
  {| tpm_probed := v; tpm_found := tpm_found s; tpm_working := tpm_working s;
     if_shutdown := if_shutdown s; tpm_driver_to_use := tpm_driver_to_use s;
     tcpa := tcpa s; log_area_minimum_length := log_area_minimum_length s;
     log_area_start_address := log_area_start_address s;
     entry_count := entry_count s;
     log_area_next_entry := log_area_next_entry s;
     log_area_last_entry := log_area_last_entry s |}.

Definition set_tpm_found (v : bool) (s : tpm_state_t) : tpm_state_t :=
  {| tpm_probed := tpm_probed s; tpm_found := v; tpm_working := tpm_working s;
     if_shutdown := if_shutdown s; tpm_driver_to_use := tpm_driver_to_use s;
     tcpa := tcpa s; log_area_minimum_length := log_area_minimum_length s;
     log_area_start_address := log_area_start_address s;
     entry_count := entry_count s;
     log_area_next_entry := log_area_next_entry s;
     log_area_last_entry := log_area_last_entry s |}.

Definition set_tpm_working (v : bool) (s : tpm_state_t) : tpm_state_t :=
  {| tpm_probed := tpm_probed s; tpm_found := tpm_found s; tpm_working := v;
     if_shutdown := if_shutdown s; tpm_driver_to_use := tpm_driver_to_use s;
     tcpa := tcpa s; log_area_minimum_length := log_area_minimum_length s;
     log_area_start_address := log_area_start_address s;
     entry_count := entry_count s;
     log_area_next_entry := log_area_next_entry s;
     log_area_last_entry := log_area_last_entry s |}.

Definition set_if_shutdown (v : bool) (s : tpm_state_t) : tpm_state_t :=
  {| tpm_probed := tpm_probed s; tpm_found := tpm_found s;
     tpm_working := tpm_working s;
     if_shutdown := v; tpm_driver_to_use := tpm_driver_to_use s;
     tcpa := tcpa s; log_area_minimum_length := log_area_minimum_length s;
     log_area_start_address := log_area_start_address s;
     entry_count := entry_count s;
     log_area_next_entry := log_area_next_entry s;
     log_area_last_entry := log_area_last_entry s |}.

Definition set_tpm_driver_to_use (v : Z) (s : tpm_state_t) : tpm_state_t :=
  {| tpm_probed := tpm_probed s; tpm_found := tpm_found s;
     tpm_working := tpm_working s;
     if_shutdown := if_shutdown s; tpm_driver_to_use := u4 v;
     tcpa := tcpa s; log_area_minimum_length := log_area_minimum_length s;
     log_area_start_address := log_area_start_address s;
     entry_count := entry_count s;
     log_area_next_entry := log_area_next_entry s;
     log_area_last_entry := log_area_last_entry s |}.

Definition set_tcpa (v : Z) (s : tpm_state_t) : tpm_state_t :=
  {| tpm_probed := tpm_probed s; tpm_found := tpm_found s;
     tpm_working := tpm_working s;
     if_shutdown := if_shutdown s; tpm_driver_to_use := tpm_driver_to_use s;
     tcpa := v; log_area_minimum_length := log_area_minimum_length s;
     log_area_start_address := log_area_start_address s;
     entry_count := entry_count s;
     log_area_next_entry := log_area_next_entry s;
     log_area_last_entry := log_area_last_entry s |}.

(** The five log fields are always written together or in sequence;
    one setter covers them. *)
Definition set_log (len start count next last : Z) (s : tpm_state_t)
  : tpm_state_t :=
  {| tpm_probed := tpm_probed s; tpm_found := tpm_found s;
     tpm_working := tpm_working s;
     if_shutdown := if_shutdown s; tpm_driver_to_use := tpm_driver_to_use s;
     tcpa := tcpa s; log_area_minimum_length := len;
     log_area_start_address := start;
     entry_count := count;
     log_area_next_entry := next;
     log_area_last_entry := last |}.

(** ** Struct images *)

(** The log entry header, [struct pcpes] without its flexible [event]
    member. *)
Record pcpes_t : Type := {
  pcrindex : Z;
  eventtype : Z;
  digest : bytes_at;
  eventdatasize : Z
}.

(** Modelled from the spec: [struct pcpes] is declared in std/tcg.h,
    outside the sources at hand.  Section 6 of the spec gives the fixed
    header of a log entry as pcrIndex (u32), eventType (u32), a digest of
    20 bytes and eventDataSize (u32), immediately followed by the body:
    32 bytes, stored as the x86 host stores them. *)
Definition sizeof_pcpes : Z := 32.
Definition sizeof_digest : Z := 20.

Definition pcpes_image (p : pcpes_t) : bytes_at :=
  img_cat 4 (le32_bytes (pcrindex p))
    (img_cat 4 (le32_bytes (eventtype p))
       (img_cat sizeof_digest (digest p) (le32_bytes (eventdatasize p)))).

(** The header found in memory behind a caller's pointer, and the bytes
    of its [event] member. *)
Definition load_pcpes (r : mem) (p : Z) : pcpes_t :=
  {| pcrindex := le32_at (deref r p) 0;
     eventtype := le32_at (deref r p) 4;
     digest := deref r (u32 (p + 8));
     eventdatasize := le32_at (deref r p) 28 |}.

Definition pcpes_event (r : mem) (p : Z) : bytes_at :=
  deref r (u32 (p + sizeof_pcpes)).

Definition with_digest (d : bytes_at) (p : pcpes_t) : pcpes_t :=
  {| pcrindex := pcrindex p; eventtype := eventtype p; digest := d;
     eventdatasize := eventdatasize p |}.

(** TPM 1.2 request and response framing, with the widths the code gives
    them through [cpu_to_be16] and [cpu_to_be32]: tag (2), totlen (4),
    ordinal or errcode (4). *)
Definition sizeof_tpm_req_header : Z := 10.
Definition offsetof_totlen : Z := 2.
Definition offsetof_errcode : Z := 6.
Definition sizeof_tpm_req_extend : Z := sizeof_tpm_req_header + 4 + sizeof_digest.
Definition sizeof_tpm_rsp_extend : Z := sizeof_tpm_req_header + sizeof_digest.

Definition tpm_req_header_image (tag totlen ordinal : Z) : bytes_at :=
  img_cat 2 (be16_bytes tag) (img_cat 4 (be32_bytes totlen) (be32_bytes ordinal)).

Section Model.

Context {K : tcg_h} {A : acpi_h} {P : platform} {BH : blocks_h}.

(** The globals the file reads and writes ([tpm_state], [RsdpAddr],
    [SMBiosAddr]), the memory and the driver world.  The globals and the
    locals of the functions are kept apart from [ram], which is the
    memory that the callers' pointers and the ACPI tables name: a run of
    the model is a run of the code as long as no copy reaches the
    firmware's own data. *)
Record machine : Type := {
  tpm_state : tpm_state_t;
  ram : mem;
  hw : D;
  RsdpAddr : Z;
  SMBiosAddr : Z
}.

Definition upd_state (f : tpm_state_t -> tpm_state_t) (m : machine) : machine :=
  {| tpm_state := f (tpm_state m); ram := ram m; hw := hw m;
     RsdpAddr := RsdpAddr m; SMBiosAddr := SMBiosAddr m |}.

Definition set_ram (r : mem) (m : machine) : machine :=
  {| tpm_state := tpm_state m; ram := r; hw := hw m;
     RsdpAddr := RsdpAddr m; SMBiosAddr := SMBiosAddr m |}.

Definition set_hw (d : D) (m : machine) : machine :=
  {| tpm_state := tpm_state m; ram := ram m; hw := d;
     RsdpAddr := RsdpAddr m; SMBiosAddr := SMBiosAddr m |}.

(** The initialiser of [tpm_state]: everything zero except the driver
    index. *)
Definition tpm_state_init : tpm_state_t :=
  {| tpm_probed := false; tpm_found := false; tpm_working := false;
     if_shutdown := false; tpm_driver_to_use := u4 TPM_INVALID_DRIVER;
     tcpa := NULL; log_area_minimum_length := 0;
     log_area_start_address := NULL; entry_count := 0;
     log_area_next_entry := NULL; log_area_last_entry := NULL |}.

Definition is_preboot_if_shutdown (m : machine) : Z :=
  if if_shutdown (tpm_state m) then 1 else 0.

(** *** TPM hardware interface *)

(** The [for] loop of [is_tpm_present], from driver [i] on, with [n]
    drivers left to try. *)
Fixpoint is_tpm_present_from (n : nat) (i : Z) (m : machine) : Z * machine :=
  match n with
  | O => (0, m)
  | S n' =>
      let td := tpm_drivers i in
      let (r, d1) := probe td (hw m) in
      if nonzero r
      then (1, upd_state (set_tpm_driver_to_use i) (set_hw (init td d1) m))
      else is_tpm_present_from n' (i + 1) (set_hw d1 m)
  end.

Definition is_tpm_present (m : machine) : Z * machine :=
  is_tpm_present_from (Z.to_nat TPM_NUM_DRIVERS) 0 m.

Definition probe_tpm (m : machine) : machine :=
  if tpm_probed (tpm_state m) then m
  else
    let m1 := upd_state (set_tpm_probed true) m in
    let (rc, m2) := is_tpm_present m1 in
    let m3 := upd_state (set_tpm_found (nonzero rc)) m2 in
    upd_state (fun s => set_tpm_working (tpm_found s) s) m3.

Definition has_working_tpm (m : machine) : bool * machine :=
  let m' := probe_tpm m in (tpm_working (tpm_state m'), m').

(** [transmit] returns its status, the response buffer and the response
    length as the driver left them. *)
Definition transmit (locty : Z) (req : bytes_at)
    (respbuffer : bytes_at) (respbufferlen : Z)
    (to_t : tpmDurationType) (m : machine)
  : (Z * bytes_at * Z) * machine :=
  if tpm_driver_to_use (tpm_state m) =? TPM_INVALID_DRIVER
  then ((TCG_FATAL_COM_ERROR, respbuffer, respbufferlen), m)
  else
    let td := tpm_drivers (tpm_driver_to_use (tpm_state m)) in
    let (irc1, d1) := activate td locty (hw m) in
    if nonzero irc1
    then ((TCG_FATAL_COM_ERROR, respbuffer, respbufferlen), set_hw d1 m)
    else
      let (irc2, d2) := senddata td req (be32_at req offsetof_totlen) d1 in
      if nonzero irc2
      then ((TCG_FATAL_COM_ERROR, respbuffer, respbufferlen), set_hw d2 m)
      else
        let (irc3, d3) := waitdatavalid td d2 in
        if nonzero irc3
        then ((TCG_FATAL_COM_ERROR, respbuffer, respbufferlen), set_hw d3 m)
        else
          let (irc4, d4) := waitrespready td to_t d3 in
          if nonzero irc4
          then ((TCG_FATAL_COM_ERROR, respbuffer, respbufferlen), set_hw d4 m)
          else
            let '((irc5, buf, len), d5) :=
              readresp td respbuffer respbufferlen d4 in
            if nonzero irc5
            then ((TCG_FATAL_COM_ERROR, buf, len), set_hw d5 m)
            else ((0, buf, len), set_hw (ready td d5) m).

(** *** ACPI TCPA table interface *)

Definition sizeof_rsdt_entry : Z := 4.

Definition rsdt_entry (r : mem) (rsdt ctr : Z) : Z :=
  le32_at (deref r rsdt) (offsetof_rsdt_entry + sizeof_rsdt_entry * ctr).

Definition tcpa_valid (r : mem) (t : Z) : bool :=
  (le32_at (deref r t) offsetof_tcpa_signature =? TCPA_SIGNATURE)
  && (checksum (deref r t) (le32_at (deref r t) offsetof_tcpa_length) =? 0).

(** The [while] loop of [find_tcpa_by_rsdp].  [off] is a [u16] and [ctr]
    a [u32] in the source; the loop has no bound of its own, so the
    embedding takes fuel and answers [None] when it runs out. *)
Fixpoint find_tcpa_loop (fuel : nat) (r : mem) (rsdt length off ctr : Z)
  : option Z :=
  match fuel with
  | O => None
  | S fuel' =>
      if off + sizeof_rsdt_entry <=? length
      then
        let t := rsdt_entry r rsdt ctr in
        if tcpa_valid r t then Some t
        else find_tcpa_loop fuel' r rsdt length
               (u16 (off + sizeof_rsdt_entry)) (u32 (ctr + 1))
      else Some NULL
  end.

Definition find_tcpa_by_rsdp (fuel : nat) (rsdp : Z) (m : machine)
  : option (Z * machine) :=
  let rsdt := le32_at (deref (ram m) rsdp) offsetof_rsdp_rsdt_physical_address in
  if rsdt =? NULL then Some (NULL, m)
  else
    let length := le32_at (deref (ram m) rsdt) offsetof_rsdt_length in
    match find_tcpa_loop fuel (ram m) rsdt length (u16 offsetof_rsdt_entry) 0 with
    | None => None
    | Some t =>
        Some (t, if nonzero t then upd_state (set_tcpa t) m else m)
    end.

Definition find_tcpa_table (fuel : nat) (m : machine) : option (Z * machine) :=
  if nonzero (tcpa (tpm_state m)) then Some (tcpa (tpm_state m), m)
  else
    let rsdp := RsdpAddr m in
    if nonzero rsdp then find_tcpa_by_rsdp fuel rsdp m
    else Some (NULL, upd_state (set_if_shutdown true) m).

(** [get_lasa_base_ptr] returns the start address and, when a table was
    found, the length it stores through its pointer argument. *)
Definition get_lasa_base_ptr (fuel : nat) (m : machine)
  : option (Z * option Z * machine) :=
  match find_tcpa_table fuel m with
  | None => None
  | Some (t, m') =>
      if nonzero t
      then Some (le32_at (deref (ram m') t) offsetof_tcpa_log_area_start_address,
                 Some (le32_at (deref (ram m') t)
                         offsetof_tcpa_log_area_minimum_length),
                 m')
      else Some (NULL, None, m')
  end.

Definition reset_acpi_log (fuel : nat) (m : machine) : option machine :=
  match get_lasa_base_ptr fuel m with
  | None => None
  | Some (start, len, m1) =>
      let len' := match len with
                  | Some l => l
                  | None => log_area_minimum_length (tpm_state m1)
                  end in
      let r := if nonzero start then memset (ram m1) start 0 len'
               else ram m1 in
      Some (upd_state (set_log len' start 0 start NULL) (set_ram r m1))
  end.

(** [tpm_log_event] is called with two kinds of arguments.  The
    boot-time measurements pass a header that is a local of the caller
    and a body that is a local or a string constant: objects of the
    firmware's own, outside the memory the call writes.  For them the
    header travels as a value and the body as its bytes.  The BIOS
    interface passes pointers into the caller's memory;
    [tpm_log_event_at] below is the function on such pointers. *)
Definition tpm_log_event (pcpes : pcpes_t) (event : bytes_at) (m : machine)
  : Z * machine :=
  let s := tpm_state m in
  if log_area_next_entry s =? NULL then (TCG_PC_LOGOVERFLOW, m)
  else
    let size := u32 (sizeof_pcpes + eventdatasize pcpes) in
    if u32 (log_area_next_entry s + size - log_area_start_address s)
       >? log_area_minimum_length s
    then (TCG_PC_LOGOVERFLOW, m)
    else
      let r1 := memcpy (ram m) (log_area_next_entry s)
                  (pcpes_image pcpes) sizeof_pcpes in
      let r2 := memcpy r1 (u32 (log_area_next_entry s + sizeof_pcpes))
                  event (eventdatasize pcpes) in
      (0, upd_state
            (set_log (log_area_minimum_length s) (log_area_start_address s)
               (u32 (entry_count s + 1))
               (u32 (log_area_next_entry s + size))
               (log_area_next_entry s))
            (set_ram r2 m)).

(** [tpm_log_event] on a header at address [pcpes] and a body at
    address [event] of the flat memory.  Every read goes through memory
    as it is at that point of the function: [pcpes->eventdatasize] is
    read for the size check, the header is copied, and then
    [pcpes->eventdatasize] is read again, and the body is read, from the
    memory the first [memcpy] has left. *)
Definition tpm_log_event_at (pcpes event : Z) (m : machine) : Z * machine :=
  let s := tpm_state m in
  if log_area_next_entry s =? NULL then (TCG_PC_LOGOVERFLOW, m)
  else
    let size := u32 (sizeof_pcpes + eventdatasize (load_pcpes (ram m) pcpes)) in
    if u32 (log_area_next_entry s + size - log_area_start_address s)
       >? log_area_minimum_length s
    then (TCG_PC_LOGOVERFLOW, m)
    else
      let r1 := memcpy (ram m) (log_area_next_entry s)
                  (deref (ram m) pcpes) sizeof_pcpes in
      let r2 := memcpy r1 (u32 (log_area_next_entry s + sizeof_pcpes))
                  (deref r1 event) (eventdatasize (load_pcpes r1 pcpes)) in
      (0, upd_state
            (set_log (log_area_minimum_length s) (log_area_start_address s)
               (u32 (entry_count s + 1))
               (u32 (log_area_next_entry s + size))
               (log_area_next_entry s))
            (set_ram r2 m)).

(** *** Helper functions *)

Definition PhysicalPresence_CMD_ENABLE : list Z := [0x00; 0x20].
Definition PhysicalPresence_PRESENT : list Z := [0x00; 0x08].
Definition sizeof_req_cmd : Z := 20.
Definition sizeof_obuffer : Z := 64.

(** [build_and_send_cmd] returns its status, the device's return code
    when it stored one, and the bytes copied to [resbuffer] when the
    caller gave one ([resbuffer] tells whether the pointer is non-null). *)
Definition build_and_send_cmd (locty ordinal : Z)
    (append : bytes_at) (append_size : Z)
    (resbuffer : bool) (return_size : Z)
    (to_t : tpmDurationType) (m : machine)
  : (Z * option Z * option bytes_at) * machine :=
  if (return_size >? sizeof_obuffer) || (append_size >? sizeof_req_cmd)
  then ((TCG_FIRMWARE_ERROR, None, None), m)
  else
    let cmd : bytes_at :=
      if nonzero append_size
      then (fun i => if i <? append_size then append i else 0)
      else zeros in
    let req :=
      img_cat sizeof_tpm_req_header
        (tpm_req_header_image TPM_TAG_RQU_CMD
           (u32 (sizeof_tpm_req_header + append_size)) ordinal)
        cmd in
    let '((rc, obuffer, _), m1) :=
      transmit locty req zeros sizeof_obuffer to_t m in
    if nonzero rc then ((rc, None, None), m1)
    else
      ((0, Some (be32_at obuffer offsetof_errcode),
        if resbuffer
        then Some (fun i => if i <? return_size then obuffer i else 0)
        else None),
       m1).

Definition tpm_set_failure (m : machine) : machine :=
  (* we will try to deactivate the TPM now - ignoring all errors *)
  let (_, m1) :=
    build_and_send_cmd 0 TPM_ORD_PhysicalPresence
      (str_bytes PhysicalPresence_CMD_ENABLE) 2 false 0
      TPM_DURATION_TYPE_SHORT m in
  let (_, m2) :=
    build_and_send_cmd 0 TPM_ORD_PhysicalPresence
      (str_bytes PhysicalPresence_PRESENT) 2 false 0
      TPM_DURATION_TYPE_SHORT m1 in
  let (_, m3) :=
    build_and_send_cmd 0 TPM_ORD_SetTempDeactivated
      zeros 0 false 0
      TPM_DURATION_TYPE_SHORT m2 in
  upd_state (set_tpm_working false) m3.

Definition tpm_req_extend_image (pcpes : pcpes_t) : bytes_at :=
  img_cat sizeof_tpm_req_header
    (tpm_req_header_image TPM_TAG_RQU_CMD sizeof_tpm_req_extend TPM_ORD_Extend)
    (img_cat 4 (be32_bytes (pcrindex pcpes)) (digest pcpes)).

Definition tpm_log_extend_event (pcpes : pcpes_t) (event : bytes_at)
    (m : machine) : Z * machine :=
  let (w, m0) := has_working_tpm m in
  if negb w then (TCG_GENERAL_ERROR, m0)
  else if pcrindex pcpes >=? 24 then (TCG_INVALID_INPUT_PARA, m0)
  else
    let '((rc, _, resp_length), m1) :=
      transmit 0 (tpm_req_extend_image pcpes) zeros sizeof_tpm_rsp_extend
        TPM_DURATION_TYPE_SHORT m0 in
    if nonzero rc || negb (resp_length =? sizeof_tpm_rsp_extend)
    then (rc, tpm_set_failure m1)
    else
      let (rc', m2) := tpm_log_event pcpes event m1 in
      if nonzero rc' then (rc', tpm_set_failure m2) else (rc', m2).

(** [tpm_log_extend_event] on a header at address [pcpes] and a body
    at address [event] of the flat memory, as the BIOS interface calls
    it. *)
Definition tpm_log_extend_event_at (pcpes event : Z) (m : machine)
  : Z * machine :=
  let (w, m0) := has_working_tpm m in
  if negb w then (TCG_GENERAL_ERROR, m0)
  else if pcrindex (load_pcpes (ram m0) pcpes) >=? 24
  then (TCG_INVALID_INPUT_PARA, m0)
  else
    let '((rc, _, resp_length), m1) :=
      transmit 0 (tpm_req_extend_image (load_pcpes (ram m0) pcpes)) zeros
        sizeof_tpm_rsp_extend TPM_DURATION_TYPE_SHORT m0 in
    if nonzero rc || negb (resp_length =? sizeof_tpm_rsp_extend)
    then (rc, tpm_set_failure m1)
    else
      let (rc', m2) := tpm_log_event_at pcpes event m1 in
      if nonzero rc' then (rc', tpm_set_failure m2) else (rc', m2).

(** [tpm_fill_hash] on a header held by value; [hashdata] is [None] for
    a null pointer. *)
Definition tpm_fill_hash (pcpes : pcpes_t) (hashdata : option bytes_at)
    (hashdata_length : Z) : pcpes_t :=
  match hashdata with
  | Some d => with_digest (snd (sha1 d hashdata_length)) pcpes
  | None => pcpes
  end.

(** [tpm_fill_hash] on a header that lives in the caller's memory at
    [p]: the digest is stored into that memory. *)
Definition tpm_fill_hash_at (p hashdata hashdata_length : Z) (m : machine)
  : machine :=
  if nonzero hashdata
  then set_ram (memcpy (ram m) (u32 (p + 8))
                  (snd (sha1 (deref (ram m) hashdata) hashdata_length))
                  sizeof_digest) m
  else m.

Definition tpm_add_measurement_to_log (pcrindex event_type : Z)
    (event : bytes_at) (event_length : Z)
    (hashdata : option bytes_at) (hashdata_length : Z) (m : machine)
  : Z * machine :=
  let pcpes := {| pcrindex := pcrindex; eventtype := event_type;
                  digest := zeros; eventdatasize := event_length |} in
  tpm_log_extend_event (tpm_fill_hash pcpes hashdata hashdata_length) event m.

(** *** Setup and measurements *)

Definition tpm_add_action (pcrIndex : Z) (string : list Z) (m : machine)
  : Z * machine :=
  let len := strlen string in
  tpm_add_measurement_to_log pcrIndex EV_ACTION (str_bytes string) len
    (Some (str_bytes string)) len m.

Definition evt_separator : list Z := [0xff; 0xff; 0xff; 0xff].

(** The [while (pcrIndex <= 7)] loop; [n] counts the PCRs left. *)
Fixpoint tpm_add_event_separators_from (n : nat) (pcrIndex rc : Z)
    (m : machine) : Z * machine :=
  match n with
  | O => (rc, m)
  | S n' =>
      let (rc', m') :=
        tpm_add_measurement_to_log pcrIndex EV_SEPARATOR zeros 0
          (Some (str_bytes evt_separator)) 4 m in
      if nonzero rc' then (rc', m')
      else tpm_add_event_separators_from n' (pcrIndex + 1) rc' m'
  end.

Definition tpm_add_event_separators (m : machine) : Z * machine :=
  if negb CONFIG_TCGBIOS then (0, m)
  else
    let (w, m0) := has_working_tpm m in
    if negb w then (TCG_GENERAL_ERROR, m0)
    else tpm_add_event_separators_from 8 0 0 m0.

Definition tpm_smbios_measure (m : machine) : Z * machine :=
  if negb CONFIG_TCGBIOS then (0, m)
  else
    let (w, m0) := has_working_tpm m in
    if negb w then (TCG_GENERAL_ERROR, m0)
    else
      let sep := SMBiosAddr m0 in
      if sep =? NULL then (0, m0)
      else
        let (rc, dg) :=
          sha1 (deref (ram m0)
                  (le32_at (deref (ram m0) sep)
                     offsetof_sep_structure_table_address))
               (le16_at (deref (ram m0) sep)
                  offsetof_sep_structure_table_length) in
        if nonzero rc then (rc, m0)
        else
          let pcctes := pcctes_image 1 SHA1_BUFSIZE dg in
          tpm_add_measurement_to_log 1 EV_EVENT_TAG pcctes sizeof_pcctes
            (Some pcctes) sizeof_pcctes m0.

Definition tpm_option_rom (addr len : Z) (m : machine) : Z * machine :=
  if negb CONFIG_TCGBIOS then (0, m)
  else
    let (w, m0) := has_working_tpm m in
    if negb w then (TCG_GENERAL_ERROR, m0)
    else
      let (rc, dg) := sha1 (deref (ram m0) addr) len in
      if nonzero rc then (rc, m0)
      else
        let pcctes := pcctes_romex_image 7 (2 + 2 + SHA1_BUFSIZE) dg in
        tpm_add_measurement_to_log 2 EV_EVENT_TAG pcctes sizeof_pcctes_romex
          (Some pcctes) sizeof_pcctes_romex m0.

(** A data pointer handed on as [hashdata]: null or the bytes behind it. *)
Definition hash_src (m : machine) (p : Z) : option bytes_at :=
  if nonzero p then Some (deref (ram m) p) else None.

Definition tpm_add_bcv (bootdrv addr length : Z) (m : machine) : Z * machine :=
  if negb CONFIG_TCGBIOS then (0, m)
  else
    let (w, m0) := has_working_tpm m in
    if negb w then (TCG_GENERAL_ERROR, m0)
    else
      let string := if bootdrv =? 0x80
                    then cstr "Booting BCV device 80h (HDD)"
                    else cstr "Booting BCV device 00h (Floppy)" in
      let (rc, m1) := tpm_add_action 4 string m0 in
      if nonzero rc then (rc, m1)
      else
        let (rc', m2) :=
          tpm_add_measurement_to_log 4 EV_IPL
            (str_bytes (cstr "MBR")) (strlen (cstr "MBR"))
            (hash_src m1 addr) 0x1b8 m1 in
        if nonzero rc' then (rc', m2)
        else
          tpm_add_measurement_to_log 5 EV_IPL_PARTITION_DATA
            (str_bytes (cstr "MBR PARTITION_TABLE"))
            (strlen (cstr "MBR PARTITION_TABLE"))
            (hash_src m2 (u32 (addr + 0x1b8))) 0x48 m2.

Definition tpm_add_cdrom (bootdrv addr length : Z) (m : machine)
  : Z * machine :=
  if negb CONFIG_TCGBIOS then (0, m)
  else
    let (w, m0) := has_working_tpm m in
    if negb w then (TCG_GENERAL_ERROR, m0)
    else
      let (rc, m1) := tpm_add_action 4 (cstr "Booting from CD ROM device") m0 in
      if nonzero rc then (rc, m1)
      else
        tpm_add_measurement_to_log 4 EV_IPL
          (str_bytes (cstr "EL TORITO IPL")) (strlen (cstr "EL TORITO IPL"))
          (hash_src m1 addr) length m1.

Definition tpm_add_cdrom_catalog (addr length : Z) (m : machine)
  : Z * machine :=
  if negb CONFIG_TCGBIOS then (0, m)
  else
    let (w, m0) := has_working_tpm m in
    if negb w then (TCG_GENERAL_ERROR, m0)
    else
      let (rc, m1) := tpm_add_action 4 (cstr "Booting from CD ROM device") m0 in
      if nonzero rc then (rc, m1)
      else
        tpm_add_measurement_to_log 5 EV_IPL_PARTITION_DATA
          (str_bytes (cstr "BOOT CATALOG")) (strlen (cstr "BOOT CATALOG"))
          (hash_src m1 addr) length m1.

(** [tpm_acpi_init]: the explicit reset of the tracker, followed by a
    fresh probe. *)
Definition tpm_acpi_init (fuel : nat) (m : machine) : option machine :=
  let m1 :=
    upd_state
      (fun s => set_tpm_working false
                  (set_tpm_found false
                     (set_tpm_probed false (set_if_shutdown false s)))) m in
  let (w, m2) := has_working_tpm m1 in
  if negb w then Some (upd_state (set_if_shutdown true) m2)
  else reset_acpi_log fuel m2.

(** *** BIOS interface *)

(** The caller's blocks.  Their layouts are declared in std/tcg.h; the
    functions below use them field by field, so each block is a record of
    the fields read or written.  [hleei_t] carries the fields shared by
    [struct hleei_short] and [struct hleei_long] and, for the three
    fields the two layouts place differently, one copy per layout. *)
Record hleei_t : Type := {
  hleei_ipblength : Z;
  hleei_hashdataptr : Z;
  hleei_hashdatalen : Z;
  hleei_s_pcrindex : Z;
  hleei_s_logdataptr : Z;
  hleei_s_logdatalen : Z;
  hleei_l_pcrindex : Z;
  hleei_l_logdataptr : Z;
  hleei_l_logdatalen : Z
}.

Record hleeo_t : Type := {
  hleeo_opblength : Z;
  hleeo_reserved : Z;
  hleeo_eventnumber : Z
}.

Record pttti_t : Type := {
  pttti_ipblength : Z;
  pttti_opblength : Z;
  pttti_tpmopin : bytes_at
}.

Record pttto_t : Type := {
  pttto_opblength : Z;
  pttto_reserved : Z;
  pttto_tpmopout : bytes_at
}.

Record hlei_t : Type := {
  hlei_ipblength : Z;
  hlei_hashdataptr : Z;
  hlei_hashdatalen : Z;
  hlei_pcrindex : Z;
  hlei_logeventtype : Z;
  hlei_logdataptr : Z;
  hlei_logdatalen : Z
}.

Record hleo_t : Type := {
  hleo_opblength : Z;
  hleo_reserved : Z;
  hleo_eventnumber : Z
}.

Record hai_t : Type := {
  hai_ipblength : Z;
  hai_hashdataptr : Z;
  hai_hashdatalen : Z;
  hai_algorithmid : Z
}.

Record to_t : Type := {
  to_opblength : Z;
  to_reserved : Z
}.

(** The [err_exit] label of the entry points: a non-zero status shrinks
    the output block to its error form.  [hleo] is an uninitialised local
    of [hash_log_extend_event_int]; the event number copied out of it is
    whatever the stack held, passed here as [hleo_eventnumber0]. *)
Definition hleei_layout (hleei : hleei_t) : option (Z * Z * Z) :=
  (* short or long version? *)
  if hleei_ipblength hleei =? sizeof_hleei_short
  then Some (hleei_s_logdataptr hleei, hleei_s_logdatalen hleei,
             hleei_s_pcrindex hleei)
  else if hleei_ipblength hleei =? sizeof_hleei_long
  then Some (hleei_l_logdataptr hleei, hleei_l_logdatalen hleei,
             hleei_l_pcrindex hleei)
  else None.

Definition hleeo_err_exit (rc : Z) (o : hleeo_t) : hleeo_t :=
  if nonzero rc
  then {| hleeo_opblength := 4; hleeo_reserved := 0;
          hleeo_eventnumber := hleeo_eventnumber o |}
  else o.

Definition hash_log_extend_event_int (hleei : hleei_t) (hleeo : hleeo_t)
    (hleo_eventnumber0 : Z) (m : machine) : (Z * hleeo_t) * machine :=
  let err_exit := hleeo_err_exit in
  if nonzero (is_preboot_if_shutdown m)
  then ((TCG_INTERFACE_SHUTDOWN, err_exit TCG_INTERFACE_SHUTDOWN hleeo), m)
  else
    match hleei_layout hleei with
    | None => ((TCG_INVALID_INPUT_PARA, err_exit TCG_INVALID_INPUT_PARA hleeo), m)
    | Some (logdataptr, logdatalen, pcrindex') =>
        let pcpes := load_pcpes (ram m) logdataptr in
        if (pcrindex pcpes >=? 24)
           || negb (pcrindex pcpes =? pcrindex')
           || negb (logdatalen =? u32 (sizeof_pcpes + eventdatasize pcpes))
        then ((TCG_INVALID_INPUT_PARA, err_exit TCG_INVALID_INPUT_PARA hleeo), m)
        else
          let m1 := tpm_fill_hash_at logdataptr (hleei_hashdataptr hleei)
                      (hleei_hashdatalen hleei) m in
          let (rc, m2) :=
            tpm_log_extend_event_at logdataptr
              (u32 (logdataptr + sizeof_pcpes)) m1 in
          if nonzero rc then ((rc, err_exit rc hleeo), m2)
          else
            ((rc, {| hleeo_opblength := u16 sizeof_hleeo; hleeo_reserved := 0;
                     hleeo_eventnumber := hleo_eventnumber0 |}), m2)
    end.

(** [sizeof(trh)] in the source is the size of a pointer. *)
Definition sizeof_pointer : Z := 4.

Definition pttto_err_exit (rc : Z) (o : pttto_t) : pttto_t :=
  if nonzero rc
  then {| pttto_opblength := 4; pttto_reserved := 0;
          pttto_tpmopout := pttto_tpmopout o |}
  else o.

Definition pass_through_to_tpm_int (pttti : pttti_t) (pttto : pttto_t)
    (m : machine) : (Z * pttto_t) * machine :=
  let err_exit := pttto_err_exit in
  if nonzero (is_preboot_if_shutdown m)
  then ((TCG_INTERFACE_SHUTDOWN, err_exit TCG_INTERFACE_SHUTDOWN pttto), m)
  else
    let trh := pttti_tpmopin pttti in
    if (pttti_ipblength pttti <? sizeof_pttti + sizeof_pointer)
       || negb (pttti_ipblength pttti
                =? u32 (sizeof_pttti + be32_at trh offsetof_totlen))
       || (pttti_opblength pttti <? sizeof_pttto)
    then ((TCG_INVALID_INPUT_PARA, err_exit TCG_INVALID_INPUT_PARA pttto), m)
    else
      let resbuflen := u32 (pttti_opblength pttti - offsetof_pttto_tpmopout) in
      let '((rc, buf, resbuflen'), m1) :=
        transmit 0 trh (pttto_tpmopout pttto) resbuflen
          TPM_DURATION_TYPE_LONG m in
      let pttto1 := {| pttto_opblength := pttto_opblength pttto;
                       pttto_reserved := pttto_reserved pttto;
                       pttto_tpmopout := buf |} in
      if nonzero rc then ((rc, err_exit rc pttto1), m1)
      else
        ((rc, {| pttto_opblength := u16 (offsetof_pttto_tpmopout + resbuflen');
                 pttto_reserved := 0;
                 pttto_tpmopout := buf |}), m1).

Definition shutdown_preboot_interface (m : machine) : Z * machine :=
  if negb (nonzero (is_preboot_if_shutdown m))
  then (0, upd_state (set_if_shutdown true) m)
  else (TCG_INTERFACE_SHUTDOWN, m).

Definition hleo_err_exit (rc : Z) (o : hleo_t) : hleo_t :=
  if nonzero rc
  then {| hleo_opblength := 2; hleo_reserved := 0;
          hleo_eventnumber := hleo_eventnumber o |}
  else o.

Definition hash_log_event_int (hlei : hlei_t) (hleo : hleo_t) (m : machine)
  : (Z * hleo_t) * machine :=
  let err_exit := hleo_err_exit in
  if nonzero (is_preboot_if_shutdown m)
  then ((TCG_INTERFACE_SHUTDOWN, err_exit TCG_INTERFACE_SHUTDOWN hleo), m)
  else if negb (u16 (hlei_ipblength hlei) =? sizeof_hlei)
  then ((TCG_INVALID_INPUT_PARA, err_exit TCG_INVALID_INPUT_PARA hleo), m)
  else
    let p := hlei_logdataptr hlei in
    let pcpes := load_pcpes (ram m) p in
    if (pcrindex pcpes >=? 24)
       || negb (pcrindex pcpes =? hlei_pcrindex hlei)
       || negb (eventtype pcpes =? hlei_logeventtype hlei)
       || negb (hlei_logdatalen hlei
                =? u32 (sizeof_pcpes + eventdatasize pcpes))
    then ((TCG_INVALID_INPUT_PARA, err_exit TCG_INVALID_INPUT_PARA hleo), m)
    else
      let m1 := tpm_fill_hash_at p (hlei_hashdataptr hlei)
                  (hlei_hashdatalen hlei) m in
      let (rc, m2) := tpm_log_event_at p (u32 (p + sizeof_pcpes)) m1 in
      if nonzero rc then ((rc, err_exit rc hleo), m2)
      else
        (* updating the log was fine *)
        ((rc, {| hleo_opblength := u16 sizeof_hleo; hleo_reserved := 0;
                 hleo_eventnumber := entry_count (tpm_state m2) |}), m2).

(** [hash_all_int] returns its status and the digest written to the
    caller's buffer, if [sha1] was reached. *)
Definition hash_all_int (hai : hai_t) (m : machine) : Z * option bytes_at :=
  if nonzero (is_preboot_if_shutdown m) then (TCG_INTERFACE_SHUTDOWN, None)
  else if negb (hai_ipblength hai =? sizeof_hai)
          || (hai_hashdataptr hai =? 0)
          || (hai_hashdatalen hai =? 0)
          || negb (hai_algorithmid hai =? TPM_ALG_SHA)
  then (TCG_INVALID_INPUT_PARA, None)
  else
    let (rc, dg) := sha1 (deref (ram m) (hai_hashdataptr hai))
                      (hai_hashdatalen hai) in
    (rc, Some dg).

Definition tss_int (m : machine) : Z * to_t :=
  let rc := if is_preboot_if_shutdown m =? 0
            then TCG_PC_UNSUPPORTED else TCG_INTERFACE_SHUTDOWN in
  (rc, {| to_opblength := u16 sizeof_to; to_reserved := 0 |}).

(** [compact_hash_log_extend_event_int] returns its status and the value
    of the register behind [edx_ptr], whose incoming value is [edx0]. *)
Definition compact_hash_log_extend_event_int (buffer info length pcrindex' : Z)
    (edx0 : Z) (m : machine) : (Z * Z) * machine :=
  let pcpes := {| pcrindex := pcrindex'; eventtype := EV_COMPACT_HASH;
                  digest := zeros; eventdatasize := 4 |} in
  if nonzero (is_preboot_if_shutdown m)
  then ((TCG_INTERFACE_SHUTDOWN, edx0), m)
  else
    let (rc, m1) :=
      tpm_log_extend_event (tpm_fill_hash pcpes (hash_src m buffer) length)
        (le32_bytes info) m in
    if rc =? 0 then ((rc, entry_count (tpm_state m1)), m1)
    else ((rc, edx0), m1).

(** The registers of [struct bregs] the handler uses; [cf] is the carry
    flag that [set_cf] writes. *)
Record bregs : Type := {
  eax : Z;
  ebx : Z;
  ecx : Z;
  edx : Z;
  esi : Z;
  edi : Z;
  es : Z;
  ds : Z;
  cf : bool
}.

Definition MAKE_FLATPTR (seg off : Z) : Z := u32 (Z.shiftl seg 4 + off).
Definition input_buf32 (regs : bregs) : Z :=
  MAKE_FLATPTR (es regs) (Z.land (edi regs) 0xffff).

Definition output_buf32 (regs : bregs) : Z :=
  MAKE_FLATPTR (ds regs) (Z.land (esi regs) 0xffff).

(** [enum irq_ids] (tcgbios.h) together with what the casts of the
    handler find behind [es:di]: the sub-function selected by [regs->al]
    and the caller's input block, as it is when the call is made (every
    read of an input block precedes the writes of its call).
    [hleo_eventnumber0] is the content of the local that
    [hash_log_extend_event_int] never assigns.  [TCG_other] stands for
    every value of [al] outside the enumeration. *)
Inductive irq_call : Type :=
| TCG_StatusCheck
| TCG_HashLogExtendEvent (i : hleei_t) (hleo_eventnumber0 : Z)
| TCG_PassThroughToTPM (i : pttti_t)
| TCG_ShutdownPreBootInterface
| TCG_HashLogEvent (i : hlei_t)
| TCG_HashAll (i : hai_t)
| TCG_TSS
| TCG_CompactHashLogExtendEvent
| TCG_other.

(** What the call left in the caller's output block. *)
Inductive out_block : Type :=
| Out_none
| Out_hleeo (o : hleeo_t)
| Out_pttto (o : pttto_t)
| Out_hleo (o : hleo_t)
| Out_hash (h : option bytes_at)
| Out_to (o : to_t).

(** The output block behind [ds:si] before the call. *)
Definition load_hleeo (r : mem) (out : Z) : hleeo_t :=
  {| hleeo_opblength := le16_at (deref r out) offsetof_hleeo_opblength;
     hleeo_reserved := le16_at (deref r out) offsetof_hleeo_reserved;
     hleeo_eventnumber := le32_at (deref r out) offsetof_hleeo_eventnumber |}.

Definition load_pttto (r : mem) (out : Z) : pttto_t :=
  {| pttto_opblength := le16_at (deref r out) offsetof_pttto_opblength;
     pttto_reserved := le16_at (deref r out) offsetof_pttto_reserved;
     pttto_tpmopout := deref r (out + offsetof_pttto_tpmopout) |}.

Definition load_hleo (r : mem) (out : Z) : hleo_t :=
  {| hleo_opblength := le16_at (deref r out) offsetof_hleo_opblength;
     hleo_reserved := le16_at (deref r out) offsetof_hleo_reserved;
     hleo_eventnumber := le32_at (deref r out) offsetof_hleo_eventnumber |}.

(** The stores into the output block.  The functions above return the
    block as they leave it; here the fields they assign are written to
    memory at [ds:si], in the order of the source and after everything
    else the call has written: [opblength] and [reserved] on every
    path, [eventnumber] on the success path only.  The status tells the
    path, the codes of the [err_exit] jumps being different from 0. *)
Definition store_hleeo (rc : Z) (r : mem) (out : Z) (o : hleeo_t) : mem :=
  let r1 := store_u16 r (out + offsetof_hleeo_opblength) (hleeo_opblength o) in
  let r2 := store_u16 r1 (out + offsetof_hleeo_reserved) (hleeo_reserved o) in
  if nonzero rc then r2
  else store_u32 r2 (out + offsetof_hleeo_eventnumber) (hleeo_eventnumber o).

Definition store_hleo (rc : Z) (r : mem) (out : Z) (o : hleo_t) : mem :=
  let r1 := store_u16 r (out + offsetof_hleo_opblength) (hleo_opblength o) in
  let r2 := store_u16 r1 (out + offsetof_hleo_reserved) (hleo_reserved o) in
  if nonzero rc then r2
  else store_u32 r2 (out + offsetof_hleo_eventnumber) (hleo_eventnumber o).

(** For pass-through the response area [pttto->tpmopout], of the
    capacity handed to [transmit], is written back as the driver left
    it; it is as it was where the driver did not write and when the
    request was rejected. *)
Definition store_pttto (capacity : Z) (r : mem) (out : Z) (o : pttto_t) : mem :=
  let r0 := memcpy r (out + offsetof_pttto_tpmopout) (pttto_tpmopout o)
              capacity in
  let r1 := store_u16 r0 (out + offsetof_pttto_opblength) (pttto_opblength o) in
  store_u16 r1 (out + offsetof_pttto_reserved) (pttto_reserved o).

Definition store_to (r : mem) (out : Z) (o : to_t) : mem :=
  let r1 := store_u16 r (out + offsetof_to_opblength) (to_opblength o) in
  store_u16 r1 (out + offsetof_to_reserved) (to_reserved o).

Definition set_eax (v : Z) (carry : bool) (r : bregs) : bregs :=
  {| eax := v; ebx := ebx r; ecx := ecx r; edx := edx r; esi := esi r;
     edi := edi r; es := es r; ds := ds r; cf := carry |}.

Definition tpm_interrupt_handler32 (call : irq_call) (regs : bregs)
    (m : machine) : (bregs * out_block) * machine :=
  if negb CONFIG_TCGBIOS then ((regs, Out_none), m)
  else
    let out := output_buf32 regs in
    match call with
    | TCG_StatusCheck =>
        let (present, m1) := is_tpm_present m in
        if present =? 0
        then ((set_eax TCG_PC_TPM_NOT_PRESENT false regs, Out_none), m1)
        else
          (({| eax := 0; ebx := TCG_MAGIC;
               ecx := Z.lor (Z.land (ecx regs) 0xffff0000)
                        (Z.lor (Z.shiftl (u8 TCG_VERSION_MAJOR) 8)
                           (u8 TCG_VERSION_MINOR));
               edx := 0;
               esi := log_area_start_address (tpm_state m1);
               edi := log_area_last_entry (tpm_state m1);
               es := es regs; ds := ds regs; cf := false |}, Out_none), m1)
    | TCG_HashLogExtendEvent i junk =>
        let '((rc, o'), m1) :=
          hash_log_extend_event_int i (load_hleeo (ram m) out) junk m in
        ((set_eax rc false regs, Out_hleeo o'),
         set_ram (store_hleeo rc (ram m1) out o') m1)
    | TCG_PassThroughToTPM i =>
        let '((rc, o'), m1) :=
          pass_through_to_tpm_int i (load_pttto (ram m) out) m in
        ((set_eax rc false regs, Out_pttto o'),
         set_ram (store_pttto
                    (u32 (pttti_opblength i - offsetof_pttto_tpmopout))
                    (ram m1) out o') m1)
    | TCG_ShutdownPreBootInterface =>
        let (rc, m1) := shutdown_preboot_interface m in
        ((set_eax rc false regs, Out_none), m1)
    | TCG_HashLogEvent i =>
        let '((rc, o'), m1) :=
          hash_log_event_int i (load_hleo (ram m) out) m in
        ((set_eax rc false regs, Out_hleo o'),
         set_ram (store_hleo rc (ram m1) out o') m1)
    | TCG_HashAll i =>
        (* [sha1] stores the digest through [hash], which is [ds:si] *)
        let (rc, h) := hash_all_int i m in
        ((set_eax rc false regs, Out_hash h),
         match h with
         | Some dg => set_ram (memcpy (ram m) out dg sizeof_digest) m
         | None => m
         end)
    | TCG_TSS =>
        let (rc, o') := tss_int m in
        ((set_eax rc false regs, Out_to o'),
         set_ram (store_to (ram m) out o') m)
    | TCG_CompactHashLogExtendEvent =>
        let '((rc, edx'), m1) :=
          compact_hash_log_extend_event_int (input_buf32 regs)
            (esi regs) (ecx regs) (edx regs) (edx regs) m in
        (({| eax := rc; ebx := ebx regs; ecx := ecx regs; edx := edx';
             esi := esi regs; edi := edi regs; es := es regs; ds := ds regs;
             cf := false |}, Out_none), m1)
    | TCG_other =>
        (({| eax := eax regs; ebx := ebx regs; ecx := ecx regs;
             edx := edx regs; esi := esi regs; edi := edi regs;
             es := es regs; ds := ds regs; cf := true |}, Out_none), m)
    end.

End Model.

Arguments machine {P}.

(** ** Startup, boot preparation and resume

    The remaining functions of the file: capability negotiation, the
    startup sequence and the hooks of the boot sequence.  They need a few
    more declarations from headers outside the sources at hand
    (std/tcg.h, hw/tpm_drivers.h, config.h, fw/paravirt.h): the
    ordinals and status codes of the commands sent, the layout of the two
    GetCapability responses, the [set_timeouts] callback of the driver
    table, [CONFIG_COREBOOT] and [runningOnXen]. *)
Class startup_h {P : platform} : Type := {
  TCG_TCG_COMMAND_ERROR : Z;
  TPM_ORD_Startup : Z;
  TPM_ORD_GetCapability : Z;
  TPM_ORD_SelfTestFull : Z;
  TSC_ORD_ResetEstablishmentBit : Z;
  TPM_INVALID_POSTINIT : Z;
  TPM_BAD_LOCALITY : Z;
  TPM_ST_CLEAR : Z;
  TPM_ST_STATE : Z;
  sizeof_tpm_res_getcap_timeouts : Z;
  offsetof_tpm_res_getcap_timeouts_timeouts : Z;
  sizeof_tpm_res_getcap_durations : Z;
  offsetof_tpm_res_getcap_durations_durations : Z;
  CONFIG_COREBOOT : bool;
  runningOnXen : bool;
  set_timeouts : Z -> list Z -> list Z -> D -> D
}.

Section Startup.

Context {K : tcg_h} {A : acpi_h} {P : platform} {SH : startup_h}.

Definition Startup_ST_CLEAR : list Z := [0x00; u8 TPM_ST_CLEAR].
Definition Startup_ST_STATE : list Z := [0x00; u8 TPM_ST_STATE].
Definition PhysicalPresence_NOT_PRESENT_LOCK : list Z := [0x00; 0x14].

Definition GetCapability_Timeouts : list Z :=
  [0x00; 0x00; 0x00; 0x05; 0x00; 0x00; 0x00; 0x04;
   0x00; 0x00; 0x01; 0x15].

Definition GetCapability_Durations : list Z :=
  [0x00; 0x00; 0x00; 0x05; 0x00; 0x00; 0x00; 0x04;
   0x00; 0x00; 0x01; 0x20].

(** [if (rc || returnCode)]: the device's return code is looked at only
    when the transport succeeded, which is when it was stored. *)
Definition cmd_failed (rc : Z) (returnCode : option Z) : bool :=
  nonzero rc
  || match returnCode with Some c => nonzero c | None => false end.

(** The [err_exit] label of [determine_timeouts] and [tpm_startup]. *)
Definition startup_err_exit (rc : Z) (m : machine) : Z * machine :=
  (if nonzero rc then rc else TCG_TCG_COMMAND_ERROR, tpm_set_failure m).

(** The words of a response, converted with [be32_to_cpu]. *)
Definition be32_words (b : bytes_at) (off : Z) (n : nat) : list Z :=
  map (fun i => be32_at b (off + 4 * Z.of_nat i)) (seq 0 n).

Definition determine_timeouts (m : machine) : Z * machine :=
  let td := tpm_driver_to_use (tpm_state m) in
  let '((rc, returnCode, timeouts), m1) :=
    build_and_send_cmd 0 TPM_ORD_GetCapability
      (str_bytes GetCapability_Timeouts) 12
      true sizeof_tpm_res_getcap_timeouts
      TPM_DURATION_TYPE_SHORT m in
  if cmd_failed rc returnCode then startup_err_exit rc m1
  else
    let '((rc', returnCode', durations), m2) :=
      build_and_send_cmd 0 TPM_ORD_GetCapability
        (str_bytes GetCapability_Durations) 12
        true sizeof_tpm_res_getcap_durations
        TPM_DURATION_TYPE_SHORT m1 in
    if cmd_failed rc' returnCode' then startup_err_exit rc' m2
    else
      let ds := be32_words (match durations with Some b => b | None => zeros end)
                  offsetof_tpm_res_getcap_durations_durations 3 in
      let ts := be32_words (match timeouts with Some b => b | None => zeros end)
                  offsetof_tpm_res_getcap_timeouts_timeouts 4 in
      (0, set_hw (set_timeouts td ts ds (hw m2)) m2).

Definition tpm_startup (m : machine) : Z * machine :=
  let (w, m0) := has_working_tpm m in
  if negb w then (TCG_GENERAL_ERROR, m0)
  else
    let '((rc, returnCode, _), m1) :=
      build_and_send_cmd 0 TPM_ORD_Startup (str_bytes Startup_ST_CLEAR) 2
        false 0 TPM_DURATION_TYPE_SHORT m0 in
    let returnCode :=
      if CONFIG_COREBOOT
      then
        (* with other firmware on the system the TPM may already have been
           initialized *)
        match returnCode with
        | Some c => if c =? TPM_INVALID_POSTINIT then Some 0 else Some c
        | None => None
        end
      else returnCode in
    if cmd_failed rc returnCode then startup_err_exit rc m1
    else
      let (rc1, m2) := determine_timeouts m1 in
      if nonzero rc1 then startup_err_exit rc1 m2
      else
        let '((rc2, returnCode2, _), m3) :=
          build_and_send_cmd 0 TPM_ORD_SelfTestFull zeros 0
            false 0 TPM_DURATION_TYPE_LONG m2 in
        if cmd_failed rc2 returnCode2 then startup_err_exit rc2 m3
        else
          let '((rc3, returnCode3, _), m4) :=
            build_and_send_cmd 3 TSC_ORD_ResetEstablishmentBit zeros 0
              false 0 TPM_DURATION_TYPE_SHORT m3 in
          if nonzero rc3
             || match returnCode3 with
                | Some c => negb (c =? 0) && negb (c =? TPM_BAD_LOCALITY)
                | None => false
                end
          then startup_err_exit rc3 m4
          else
            let (rc4, m5) := tpm_smbios_measure m4 in
            if nonzero rc4 then startup_err_exit rc4 m5
            else
              let (rc5, m6) :=
                tpm_add_action 2 (cstr "Start Option ROM Scan") m5 in
              if nonzero rc5 then startup_err_exit rc5 m6
              else (0, m6).

Definition tpm_setup (fuel : nat) (m : machine) : option machine :=
  if negb CONFIG_TCGBIOS then Some m
  else
    match tpm_acpi_init fuel m with
    | None => None
    | Some m1 =>
        if runningOnXen then Some m1
        else Some (snd (tpm_startup m1))
    end.

Definition tpm_prepboot (m : machine) : machine :=
  if negb CONFIG_TCGBIOS then m
  else
    let (w, m0) := has_working_tpm m in
    if negb w then m0
    else
      let '((rc, returnCode, _), m1) :=
        build_and_send_cmd 0 TPM_ORD_PhysicalPresence
          (str_bytes PhysicalPresence_CMD_ENABLE) 2
          false 0 TPM_DURATION_TYPE_SHORT m0 in
      if cmd_failed rc returnCode then tpm_set_failure m1
      else
        let '((rc', returnCode', _), m2) :=
          build_and_send_cmd 0 TPM_ORD_PhysicalPresence
            (str_bytes PhysicalPresence_NOT_PRESENT_LOCK) 2
            false 0 TPM_DURATION_TYPE_SHORT m1 in
        if cmd_failed rc' returnCode' then tpm_set_failure m2
        else
          let (rc1, m3) := tpm_add_action 4 (cstr "Calling INT 19h") m2 in
          if nonzero rc1 then tpm_set_failure m3
          else
            let (rc2, m4) := tpm_add_event_separators m3 in
            if nonzero rc2 then tpm_set_failure m4
            else m4.

Definition tpm_s3_resume (m : machine) : machine :=
  if negb CONFIG_TCGBIOS then m
  else
    let (w, m0) := has_working_tpm m in
    if negb w then m0
    else
      let '((rc, returnCode, _), m1) :=
        build_and_send_cmd 0 TPM_ORD_Startup (str_bytes Startup_ST_STATE) 2
          false 0 TPM_DURATION_TYPE_SHORT m0 in
      if cmd_failed rc returnCode then tpm_set_failure m1
      else m1.

End Startup.

(** ** Vocabulary of the statements *)

Section Vocabulary.

Context {K : tcg_h} {A : acpi_h} {P : platform} {BH : blocks_h}.

(** [only_hw m m']: [m'] is [m] except for the driver world. *)
Definition only_hw (m m' : machine) : Prop := m' = set_hw (hw m') m.

(** A run of appends, stopping at the first one that is rejected. *)
Fixpoint tpm_log_events (es : list (pcpes_t * bytes_at)) (m : machine)
  : option machine :=
  match es with
  | [] => Some m
  | (p, e) :: es' =>
      let (rc, m') := tpm_log_event p e m in
      if nonzero rc then None else tpm_log_events es' m'
  end.

(** The state [tpm_set_failure] leaves behind when it runs, as it does
    in the source, after a successful [has_working_tpm]. *)
Definition failed (m : machine) : Prop :=
  tpm_probed (tpm_state m) = true /\ tpm_working (tpm_state m) = false.


(** Address [a] lies in the [n] bytes from [base], taken modulo 2^32:
    the addresses a [memcpy] of [n] bytes to [base] writes. *)
Definition within (base n a : Z) : bool := u32 (a - base) <? n.


(** The first valid table among the [n] entries of the root table from
    index [ctr] on, in table order; [NULL] when none is valid. *)
Fixpoint first_valid (r : mem) (rsdt : Z) (n : nat) (ctr : Z) : Z :=
  match n with
  | O => NULL
  | S n' =>
      if tcpa_valid r (rsdt_entry r rsdt ctr) then rsdt_entry r rsdt ctr
      else first_valid r rsdt n' (ctr + 1)
  end.

(** The number of entries a root table of [length] bytes holds. *)
Definition rsdt_entries (length : Z) : nat :=
  Z.to_nat ((length - u16 offsetof_rsdt_entry) / sizeof_rsdt_entry).

(** Overwriting the three TPM flags of the tracker. *)
Definition set_flags (pr fo wo : bool) (s : tpm_state_t) : tpm_state_t :=
  set_tpm_working wo (set_tpm_found fo (set_tpm_probed pr s)).

(** The input block of hash-log-event passes the validation of
    [hash_log_event_int] against the entry [pcpes] it points to. *)
Definition hlei_valid (hlei : hlei_t) (pcpes : pcpes_t) : Prop :=
  u16 (hlei_ipblength hlei) = sizeof_hlei
  /\ pcrindex pcpes < 24
  /\ pcrindex pcpes = hlei_pcrindex hlei
  /\ eventtype pcpes = hlei_logeventtype hlei
  /\ hlei_logdatalen hlei = u32 (sizeof_pcpes + eventdatasize pcpes).

(** The log region has room for an entry with a body of [n] bytes. *)
Definition log_has_room (m : machine) (n : Z) : Prop :=
  let s := tpm_state m in
  log_area_next_entry s <> NULL
  /\ 0 <= log_area_start_address s <= log_area_next_entry s
  /\ 0 <= n
  /\ log_area_next_entry s - log_area_start_address s + sizeof_pcpes + n
     <= log_area_minimum_length s
  /\ log_area_minimum_length s < 2 ^ 32
  /\ log_area_next_entry s + sizeof_pcpes + n < 2 ^ 32.

(** The caller's entry, a header and a body of [n] bytes at [p], lies
    in the address space and shares no byte with the entry of the same
    size at [q]. *)
Definition entry_apart (p q n : Z) : Prop :=
  0 <= p
  /\ p + sizeof_pcpes + n < 2 ^ 32
  /\ (p + sizeof_pcpes + n <= q \/ q + sizeof_pcpes + n <= p).

End Vocabulary.

(** ** Vocabulary of the further statements *)

Section Invariants.

Context {K : tcg_h} {A : acpi_h} {P : platform}.


(** The log region lies in the 32-bit address space and the cursor lies
    within it. *)
Definition log_region_ok (s : tpm_state_t) : Prop :=
  0 < log_area_start_address s
  /\ 0 <= log_area_minimum_length s
  /\ log_area_start_address s + log_area_minimum_length s < 2 ^ 32
  /\ log_area_start_address s <= log_area_next_entry s
     <= log_area_start_address s + log_area_minimum_length s.

(** Two trackers describe the same log region. *)
Definition same_region (s s' : tpm_state_t) : Prop :=
  log_area_start_address s' = log_area_start_address s
  /\ log_area_minimum_length s' = log_area_minimum_length s.

(** Two machines have the same log: region, cursor, last entry, count
    and memory. *)
Definition same_log (m m' : machine) : Prop :=
  ram m' = ram m
  /\ log_area_start_address (tpm_state m')
     = log_area_start_address (tpm_state m)
  /\ log_area_minimum_length (tpm_state m')
     = log_area_minimum_length (tpm_state m)
  /\ log_area_next_entry (tpm_state m') = log_area_next_entry (tpm_state m)
  /\ log_area_last_entry (tpm_state m') = log_area_last_entry (tpm_state m)
  /\ entry_count (tpm_state m') = entry_count (tpm_state m).

(** A step keeps the log region and keeps the cursor inside it. *)
Definition region_kept (m m' : machine) : Prop :=
  same_region (tpm_state m) (tpm_state m')
  /\ (log_region_ok (tpm_state m) -> log_region_ok (tpm_state m')).

End Invariants.

(** ** A concrete platform to run the model on

    The numbers the TCG PC client specification and the ACPI
    specification assign to the constants kept abstract above, and a
    scripted driver.  They serve to evaluate the functions on concrete
    inputs; the general theorems do not depend on them. *)

Definition pcctes_image_1_2 (eventid eventdatasize' : Z) (dg : bytes_at)
  : bytes_at :=
  img_cat 4 (le32_bytes eventid) (img_cat 4 (le32_bytes eventdatasize') dg).

Definition pcctes_romex_image_1_2 (eventid eventdatasize' : Z) (dg : bytes_at)
  : bytes_at :=
  img_cat 4 (le32_bytes eventid)
    (img_cat 4 (le32_bytes eventdatasize') (img_cat 4 zeros dg)).

Definition tcg_1_2 : tcg_h := {|
  TCG_PC_LOGOVERFLOW := 0x2;
  TCG_PC_UNSUPPORTED := 0x3;
  TCG_GENERAL_ERROR := 0x1;
  TCG_FIRMWARE_ERROR := 0x6;
  TCG_FATAL_COM_ERROR := 0x18;
  TCG_INVALID_INPUT_PARA := 0x19;
  TCG_INTERFACE_SHUTDOWN := 0x21;
  TCG_PC_TPM_NOT_PRESENT := 0x23;
  TCG_MAGIC := 0x41504354;
  TCG_VERSION_MAJOR := 1;
  TCG_VERSION_MINOR := 2;
  TPM_ALG_SHA := 0x4;
  TPM_TAG_RQU_CMD := 0xc1;
  TPM_ORD_Extend := 0x14;
  TPM_ORD_PhysicalPresence := 0x4000000a;
  TPM_ORD_SetTempDeactivated := 0x73;
  EV_ACTION := 5;
  EV_SEPARATOR := 4;
  EV_EVENT_TAG := 6;
  EV_IPL := 13;
  EV_IPL_PARTITION_DATA := 14;
  EV_COMPACT_HASH := 12;
  SHA1_BUFSIZE := 20;
  TPM_INVALID_DRIVER := 0xf;
  TPM_NUM_DRIVERS := 1;
  sizeof_hleei_short := 24;
  sizeof_hleei_long := 28;
  sizeof_hleeo := 28;
  sizeof_hlei := 28;
  sizeof_hleo := 8;
  sizeof_hai := 16;
  sizeof_pttti := 8;
  sizeof_pttto := 4;
  offsetof_pttto_tpmopout := 4;
  sizeof_to := 4;
  sizeof_pcctes := 28;
  sizeof_pcctes_romex := 32;
  pcctes_image := pcctes_image_1_2;
  pcctes_romex_image := pcctes_romex_image_1_2
|}.

Definition acpi_1_0 : acpi_h := {|
  TCPA_SIGNATURE := 0x41504354;
  offsetof_rsdp_rsdt_physical_address := 16;
  offsetof_rsdt_length := 4;
  offsetof_rsdt_entry := 36;
  offsetof_tcpa_signature := 0;
  offsetof_tcpa_length := 4;
  offsetof_tcpa_log_area_minimum_length := 38;
  offsetof_tcpa_log_area_start_address := 42;
  offsetof_sep_structure_table_address := 24;
  offsetof_sep_structure_table_length := 22
|}.

Definition blocks_1_2 : @blocks_h tcg_1_2 := {|
  offsetof_hleeo_opblength := 0;
  offsetof_hleeo_reserved := 2;
  offsetof_hleeo_eventnumber := 4;
  offsetof_pttto_opblength := 0;
  offsetof_pttto_reserved := 2;
  offsetof_hleo_opblength := 0;
  offsetof_hleo_reserved := 2;
  offsetof_hleo_eventnumber := 4;
  offsetof_to_opblength := 0;
  offsetof_to_reserved := 2;
  TCG_INTERFACE_SHUTDOWN_not_0 :=
    fun H : @TCG_INTERFACE_SHUTDOWN tcg_1_2 = 0 => ltac:(discriminate H);
  TCG_INVALID_INPUT_PARA_not_0 :=
    fun H : @TCG_INVALID_INPUT_PARA tcg_1_2 = 0 => ltac:(discriminate H)
|}.

(** A driver that is present and accepts everything.  Its world is the
    number of requests handed to [senddata] so far; [readresp] leaves the
    buffer alone and reports a response of [resp_len] bytes. *)
Definition stub_driver (resp_len : Z) : tpm_driver nat := {|
  probe := fun d => (1, d);
  init := fun d => d;
  activate := fun _ d => (0, d);
  ready := fun d => d;
  senddata := fun _ _ d => (0, S d);
  readresp := fun buf _ d => ((0, buf, resp_len), d);
  waitdatavalid := fun d => (0, d);
  waitrespready := fun _ d => (0, d)
|}.

Definition stub_platform (resp_len : Z) : platform := {|
  D := nat;
  tpm_drivers := fun _ => stub_driver resp_len;
  sha1 := fun _ _ => (0, fun _ => 0xab);
  CONFIG_TCGBIOS := true
|}.

(** A machine of the stub platform: [working] tells whether the TPM has
    been probed and found working or has been marked failed; the log
    region, when [base] is not null, is empty, starts at [base] and
    holds [capacity] bytes. *)
Definition stub_machine (resp_len : Z) (working shutdown : bool)
    (base capacity : Z) (r : mem) : @machine (stub_platform resp_len) :=
  @Build_machine (stub_platform resp_len)
    {| tpm_probed := true; tpm_found := true; tpm_working := working;
       if_shutdown := shutdown; tpm_driver_to_use := 0;
       tcpa := NULL; log_area_minimum_length := capacity;
       log_area_start_address := base; entry_count := 0;
       log_area_next_entry := base; log_area_last_entry := NULL |}
    r O 0 0.

(** A memory that is zero except at the listed addresses. *)
Definition mem_of_list (l : list (Z * Z)) : mem :=
  fun a => match find (fun kv => fst kv =? a) l with
           | Some kv => snd kv
           | None => 0
           end.

(** A log entry for PCR 1 with a body of four bytes, and one whose
    [eventdatasize] makes [sizeof_pcpes + eventdatasize] exceed 32 bits. *)
Definition entry_1 : pcpes_t :=
  {| pcrindex := 1; eventtype := 6; digest := zeros; eventdatasize := 4 |}.

Definition entry_wrapping : pcpes_t :=
  {| pcrindex := 1; eventtype := 6; digest := zeros;
     eventdatasize := 0xfffffff0 |}.

(** The caller's side of a hash-log-event request: [entry_1] stored at
    0x2000 with body 11 22 33 44, and the input block naming it. *)
Definition ram_entry : mem :=
  mem_of_list [(0x2000, 1); (0x2004, 6); (0x201c, 4);
               (0x2020, 0x11); (0x2021, 0x22); (0x2022, 0x33); (0x2023, 0x44)].

Definition hlei_1 : hlei_t :=
  {| hlei_ipblength := 28; hlei_hashdataptr := 0; hlei_hashdatalen := 0;
     hlei_pcrindex := 1; hlei_logeventtype := 6;
     hlei_logdataptr := 0x2000; hlei_logdatalen := 36 |}.

Definition hleo_0 : hleo_t :=
  {| hleo_opblength := 0; hleo_reserved := 0; hleo_eventnumber := 0 |}.

(** The same request with PCR index 24 in the block. *)
Definition hlei_24 : hlei_t :=
  {| hlei_ipblength := 28; hlei_hashdataptr := 0; hlei_hashdatalen := 0;
     hlei_pcrindex := 24; hlei_logeventtype := 6;
     hlei_logdataptr := 0x2000; hlei_logdatalen := 36 |}.

(** A hash-log-event request whose entry, at 0x2000, declares a body of
    0xfffffff0 bytes; the block's [logdatalen] is the sum of header and
    body sizes as a [u32] computes it. *)
Definition ram_entry_wrapping : mem :=
  mem_of_list [(0x2000, 1); (0x2004, 6);
               (0x201c, 0xf0); (0x201d, 0xff); (0x201e, 0xff); (0x201f, 0xff);
               (0x2020, 0x11); (0x2021, 0x22); (0x2022, 0x33); (0x2023, 0x44)].

Definition hlei_wrapping : hlei_t :=
  {| hlei_ipblength := 28; hlei_hashdataptr := 0; hlei_hashdatalen := 0;
     hlei_pcrindex := 1; hlei_logeventtype := 6;
     hlei_logdataptr := 0x2000; hlei_logdatalen := 16 |}.

(** A pass-through request carrying a ten-byte TPM command. *)
Definition pttti_1 : pttti_t :=
  {| pttti_ipblength := 18; pttti_opblength := 64;
     pttti_tpmopin := str_bytes [0; 0xc1; 0; 0; 0; 10; 0; 0; 0; 0x14] |}.

Definition pttto_0 : pttto_t :=
  {| pttto_opblength := 0; pttto_reserved := 0; pttto_tpmopout := zeros |}.

Definition regs_0 : bregs :=
  {| eax := 0xbb07; ebx := 0x41504354; ecx := 0; edx := 1; esi := 0;
     edi := 0; es := 0; ds := 0; cf := false |}.

(** A machine before [tpm_acpi_init]: nothing probed, no table cached,
    the root pointer at [rsdp]. *)
Definition acpi_machine (rsdp : Z) (r : mem) : @machine (stub_platform 30) :=
  @Build_machine (stub_platform 30) (@tpm_state_init tcg_1_2) r O rsdp 0.

(** RSDP at 0x1000 pointing to an RSDT at 0x2000.  In the first memory
    the RSDT has one entry, 0x3000, where no TCPA table lies.  In the
    second it has two: 0x3000 again, then 0x4000 where a TCPA table of 50
    bytes with a zero byte-sum describes a log area of 0x1000 bytes at
    0x100000; one byte of that area is not zero. *)
Definition ram_rsdt_no_tcpa : mem :=
  mem_of_list [(0x1011, 0x20); (0x2004, 40); (0x2025, 0x30)].

Definition ram_rsdt_tcpa : mem :=
  mem_of_list [(0x1011, 0x20); (0x2004, 44); (0x2025, 0x30); (0x2029, 0x40);
               (0x4000, 0x54); (0x4001, 0x43); (0x4002, 0x50); (0x4003, 0x41);
               (0x4004, 50); (0x4009, 0x86);
               (0x4027, 0x10); (0x402c, 0x10);
               (0x100010, 0x77)].


(** The remaining constants, with the numbers of the TPM 1.2 main
    specification, for the stub platform: it is not coreboot, not Xen,
    and its drivers ignore the timeouts they are told. *)
Definition stub_startup (resp_len : Z) : @startup_h (stub_platform resp_len) :=
  @Build_startup_h (stub_platform resp_len)
    0x1a          (* TCG_TCG_COMMAND_ERROR *)
    0x99          (* TPM_ORD_Startup *)
    0x65          (* TPM_ORD_GetCapability *)
    0x50          (* TPM_ORD_SelfTestFull *)
    0x4000000b    (* TSC_ORD_ResetEstablishmentBit *)
    0x26          (* TPM_INVALID_POSTINIT *)
    0x3d          (* TPM_BAD_LOCALITY *)
    1             (* TPM_ST_CLEAR *)
    2             (* TPM_ST_STATE *)
    30 14         (* struct tpm_res_getcap_timeouts *)
    26 14         (* struct tpm_res_getcap_durations *)
    false false
    (fun _ _ _ d => d).

(** A machine whose TPM has been probed and marked failed. *)
Definition failed_machine : @machine (stub_platform 30) :=
  stub_machine 30 false false 0x100000 4096 zeros.

(** A machine with an empty log of 4096 bytes at 0x100000 and a working
    TPM. *)
Definition ready_machine : @machine (stub_platform 30) :=
  stub_machine 30 true false 0x100000 4096 zeros.

(** A hash-all request for four bytes at 0x2000. *)
Definition hai_1 : hai_t :=
  {| hai_ipblength := 16; hai_hashdataptr := 0x2000; hai_hashdatalen := 4;
     hai_algorithmid := 4 |}.

(** RSDP at 0x1000 pointing to an RSDT at 0x2000 whose length field
    reads 0x10003; no TCPA table anywhere. *)
Definition ram_rsdt_long : mem :=
  mem_of_list [(0x1011, 0x20); (0x2004, 0x03); (0x2006, 0x01)].

(** A machine with one entry in its log, [entry_1] with the body
    11 22 33 44, at 0x100000; the TPM is working. *)
Definition logged_machine : @machine (stub_platform 30) :=
  @Build_machine (stub_platform 30)
    {| tpm_probed := true; tpm_found := true; tpm_working := true;
       if_shutdown := false; tpm_driver_to_use := 0;
       tcpa := NULL; log_area_minimum_length := 4096;
       log_area_start_address := 0x100000; entry_count := 1;
       log_area_next_entry := 0x100024; log_area_last_entry := 0x100000 |}
    (mem_of_list [(0x100000, 1); (0x100004, 6); (0x10001c, 4);
                  (0x100020, 0x11); (0x100021, 0x22); (0x100022, 0x33);
                  (0x100023, 0x44); (0x2020, 0x55)])
    O 0 0.

(** A short hash-log-extend-event request that names the logged entry
    itself as the entry to extend and log, and has four bytes at 0x2020
    hashed into its digest. *)
Definition hleei_logged : hleei_t :=
  {| hleei_ipblength := 24; hleei_hashdataptr := 0x2020;
     hleei_hashdatalen := 4; hleei_s_pcrindex := 1;
     hleei_s_logdataptr := 0x100000; hleei_s_logdatalen := 36;
     hleei_l_pcrindex := 0; hleei_l_logdataptr := 0;
     hleei_l_logdatalen := 0 |}.

Definition hleeo_0 : hleeo_t :=
  {| hleeo_opblength := 0; hleeo_reserved := 0; hleeo_eventnumber := 0 |}.


(** A hash-log-event request whose entry lies over the place of the
    next log entry.  The log is empty and holds 36 bytes at 0x100000;
    the caller's entry starts eight bytes below it, at 0xffff8: PCR 1,
    event type 0x104, the bytes 04 01 00 00 at offset 12 of its digest,
    a body size of 4 and the body 11 22 33 44. *)
Definition ram_entry_over_log : mem :=
  mem_of_list [(0xffff8, 1); (0xffffc, 4); (0xffffd, 1);
               (0x10000c, 4); (0x10000d, 1);
               (0x100014, 4);
               (0x100018, 0x11); (0x100019, 0x22); (0x10001a, 0x33);
               (0x10001b, 0x44)].

Definition hlei_over_log : hlei_t :=
  {| hlei_ipblength := 28; hlei_hashdataptr := 0; hlei_hashdatalen := 0;
     hlei_pcrindex := 1; hlei_logeventtype := 0x104;
     hlei_logdataptr := 0xffff8; hlei_logdatalen := 36 |}.

(** * Properties *)

Section Proofs.

Context {K : tcg_h} {A : acpi_h} {P : platform} {BH : blocks_h}.

(** ** Arithmetic of the machine integers *)

Lemma u32_small (x : Z) : 0 <= x < 2 ^ 32 -> u32 x = x.
Proof. intros H. unfold u32. apply Z.mod_small. exact H. Qed.

Lemma u32_range (x : Z) : 0 <= u32 x < 2 ^ 32.
Proof. unfold u32. apply Z.mod_pos_bound. lia. Qed.

Lemma u32_le (x : Z) : 0 <= x -> u32 x <= x.
Proof. intros H. unfold u32. apply Z.mod_le; lia. Qed.

Lemma u32_wrap_once (x : Z) : 2 ^ 32 <= x < 2 ^ 33 -> u32 x = x - 2 ^ 32.
Proof.
  intros H. unfold u32.
  replace x with ((x - 2 ^ 32) + 1 * 2 ^ 32) at 1 by ring.
  rewrite Z.mod_add by lia. apply Z.mod_small. lia.
Qed.

Lemma nonzero_true (x : Z) : nonzero x = true <-> x <> 0.
Proof.
  unfold nonzero. destruct (Z.eqb_spec x 0); simpl; split; intros; congruence.
Qed.

Lemma nonzero_false (x : Z) : nonzero x = false <-> x = 0.
Proof.
  unfold nonzero. destruct (Z.eqb_spec x 0); simpl; split; intros; congruence.
Qed.

(** ** What the transport can change *)


Lemma only_hw_refl (m : machine) : only_hw m m.
Proof. unfold only_hw. destruct m; reflexivity. Qed.

Lemma only_hw_set (m : machine) (d : D) : only_hw m (set_hw d m).
Proof. unfold only_hw. reflexivity. Qed.

Lemma only_hw_trans (m1 m2 m3 : machine) :
  only_hw m1 m2 -> only_hw m2 m3 -> only_hw m1 m3.
Proof.
  unfold only_hw. intros H12 H23. rewrite H23. rewrite H12. reflexivity.
Qed.

Lemma only_hw_state (m m' : machine) :
  only_hw m m' -> tpm_state m' = tpm_state m /\ ram m' = ram m.
Proof. unfold only_hw. intros ->. split; reflexivity. Qed.

Ltac break_match :=
  repeat match goal with
         | |- context [let (_, _) := ?e in _] => destruct e eqn:?
         | |- context [match ?e with (_, _) => _ end] => destruct e eqn:?
         | |- context [if ?b then _ else _] => destruct b eqn:?
         end.

Lemma transmit_only_hw locty req buf len to_t (m : machine) :
  only_hw m (snd (transmit locty req buf len to_t m)).
Proof.
  unfold transmit. break_match; simpl;
    first [apply only_hw_refl | apply only_hw_set].
Qed.

(** [transmit] has two statuses: success and [TCG_FATAL_COM_ERROR]. *)
Lemma transmit_status locty req buf len to_t (m : machine) :
  let rc := fst (fst (fst (transmit locty req buf len to_t m))) in
  rc = 0 \/ rc = TCG_FATAL_COM_ERROR.
Proof.
  unfold transmit. break_match; simpl; auto.
Qed.

Lemma build_and_send_cmd_only_hw locty ord app n rb rs to_t (m : machine) :
  only_hw m (snd (build_and_send_cmd locty ord app n rb rs to_t m)).
Proof.
  unfold build_and_send_cmd.
  destruct (_ || _); [apply only_hw_refl|].
  pose proof (transmit_only_hw locty
    (img_cat sizeof_tpm_req_header
       (tpm_req_header_image TPM_TAG_RQU_CMD
          (u32 (sizeof_tpm_req_header + n)) ord)
       (if nonzero n then fun i => if i <? n then app i else 0 else zeros))
    zeros sizeof_obuffer to_t m) as H.
  destruct (transmit _ _ _ _ _ m) as [[[rc ob] l] m1]. simpl in H.
  destruct (nonzero rc); exact H.
Qed.

(** [tpm_set_failure] clears [tpm_working] and otherwise changes only
    the driver world. *)
Lemma tpm_set_failure_spec (m : machine) :
  exists d, tpm_set_failure m = upd_state (set_tpm_working false) (set_hw d m).
Proof.
  unfold tpm_set_failure.
  pose proof (build_and_send_cmd_only_hw 0 TPM_ORD_PhysicalPresence
    (str_bytes PhysicalPresence_CMD_ENABLE) 2 false 0
    TPM_DURATION_TYPE_SHORT m) as H1.
  destruct (build_and_send_cmd _ _ _ _ _ _ _ m) as [x1 m1]. simpl in H1.
  pose proof (build_and_send_cmd_only_hw 0 TPM_ORD_PhysicalPresence
    (str_bytes PhysicalPresence_PRESENT) 2 false 0
    TPM_DURATION_TYPE_SHORT m1) as H2.
  destruct (build_and_send_cmd _ _ _ _ _ _ _ m1) as [x2 m2]. simpl in H2.
  pose proof (build_and_send_cmd_only_hw 0 TPM_ORD_SetTempDeactivated
    zeros 0 false 0 TPM_DURATION_TYPE_SHORT m2) as H3.
  destruct (build_and_send_cmd _ _ _ _ _ _ _ m2) as [x3 m3]. simpl in H3.
  exists (hw m3).
  pose proof (only_hw_trans _ _ _ (only_hw_trans _ _ _ H1 H2) H3) as H.
  unfold only_hw in H. rewrite H at 1. reflexivity.
Qed.

Lemma tpm_set_failure_working (m : machine) :
  tpm_working (tpm_state (tpm_set_failure m)) = false.
Proof. destruct (tpm_set_failure_spec m) as [d ->]. reflexivity. Qed.

Lemma tpm_set_failure_probed (m : machine) :
  tpm_probed (tpm_state (tpm_set_failure m)) = tpm_probed (tpm_state m).
Proof. destruct (tpm_set_failure_spec m) as [d ->]. reflexivity. Qed.

(** Once probed, [has_working_tpm] only reads the flag. *)
Lemma has_working_tpm_probed (m : machine) :
  tpm_probed (tpm_state m) = true ->
  has_working_tpm m = (tpm_working (tpm_state m), m).
Proof.
  intros H. unfold has_working_tpm, probe_tpm. rewrite H. reflexivity.
Qed.

(** [probe_tpm] always leaves the tracker probed. *)
Lemma probe_tpm_probed (m : machine) :
  tpm_probed (tpm_state (probe_tpm m)) = true.
Proof.
  unfold probe_tpm. destruct (tpm_probed (tpm_state m)) eqn:E; [exact E|].
  destruct (is_tpm_present _) as [rc m2] eqn:E2. simpl.
  assert (G : forall n i (m0 : machine),
             tpm_probed (tpm_state m0) = true ->
             tpm_probed (tpm_state (snd (is_tpm_present_from n i m0))) = true).
  { induction n as [|n IH]; intros i m0 H0; simpl; [exact H0|].
    destruct (probe (tpm_drivers i) (hw m0)) as [r d1].
    destruct (nonzero r); simpl; [exact H0|]. apply IH. exact H0. }
  specialize (G (Z.to_nat TPM_NUM_DRIVERS) 0
                (upd_state (set_tpm_probed true) m) eq_refl).
  unfold is_tpm_present in E2. rewrite E2 in G. exact G.
Qed.

(** ** The event log *)

(** An append that fits: the cursor is established, the entry of
    [sizeof_pcpes + eventdatasize] bytes ends within the region, and no
    32-bit quantity wraps. *)
Lemma tpm_log_event_fits (pcpes : pcpes_t) (event : bytes_at) (m : machine) :
  let s := tpm_state m in
  log_area_next_entry s <> NULL ->
  0 <= log_area_start_address s <= log_area_next_entry s ->
  0 <= eventdatasize pcpes ->
  log_area_next_entry s - log_area_start_address s
    + sizeof_pcpes + eventdatasize pcpes <= log_area_minimum_length s ->
  log_area_minimum_length s < 2 ^ 32 ->
  log_area_next_entry s + sizeof_pcpes + eventdatasize pcpes < 2 ^ 32 ->
  tpm_log_event pcpes event m =
  (0, upd_state
        (set_log (log_area_minimum_length s) (log_area_start_address s)
           (u32 (entry_count s + 1))
           (log_area_next_entry s + sizeof_pcpes + eventdatasize pcpes)
           (log_area_next_entry s))
        (set_ram
           (memcpy
              (memcpy (ram m) (log_area_next_entry s)
                 (pcpes_image pcpes) sizeof_pcpes)
              (log_area_next_entry s + sizeof_pcpes)
              event (eventdatasize pcpes)) m)).
Proof.
  intros s Hn Hs He Hfit Hcap Hptr. unfold tpm_log_event. fold s.
  unfold sizeof_pcpes in *.
  destruct (Z.eqb_spec (log_area_next_entry s) NULL) as [E|_]; [contradiction|].
  rewrite (u32_small (32 + eventdatasize pcpes)) by lia.
  rewrite (u32_small (log_area_next_entry s + (32 + eventdatasize pcpes)
                      - log_area_start_address s)) by lia.
  destruct (Z.gtb_spec
              (log_area_next_entry s + (32 + eventdatasize pcpes)
               - log_area_start_address s)
              (log_area_minimum_length s)) as [G|_]; [lia|].
  rewrite (u32_small (log_area_next_entry s + 32)) by lia.
  rewrite (u32_small (log_area_next_entry s + (32 + eventdatasize pcpes)))
    by lia.
  rewrite Z.add_assoc. reflexivity.
Qed.

(** The same entry when it does not fit, without wrap-around: rejected
    with the machine untouched. *)
Lemma tpm_log_event_overflow (pcpes : pcpes_t) (event : bytes_at)
    (m : machine) :
  let s := tpm_state m in
  0 <= log_area_start_address s <= log_area_next_entry s ->
  0 <= eventdatasize pcpes ->
  log_area_next_entry s - log_area_start_address s
    + sizeof_pcpes + eventdatasize pcpes > log_area_minimum_length s ->
  log_area_next_entry s - log_area_start_address s
    + sizeof_pcpes + eventdatasize pcpes < 2 ^ 32 ->
  tpm_log_event pcpes event m = (TCG_PC_LOGOVERFLOW, m).
Proof.
  intros s Hs He Hover Hnw. unfold tpm_log_event. fold s.
  unfold sizeof_pcpes in *.
  destruct (log_area_next_entry s =? NULL); [reflexivity|].
  rewrite (u32_small (32 + eventdatasize pcpes)) by lia.
  rewrite (u32_small (log_area_next_entry s + (32 + eventdatasize pcpes)
                      - log_area_start_address s)) by lia.
  destruct (Z.gtb_spec
              (log_area_next_entry s + (32 + eventdatasize pcpes)
               - log_area_start_address s)
              (log_area_minimum_length s)) as [_|G]; [reflexivity|lia].
Qed.

(** A rejected append changes nothing, whatever the reason. *)
Lemma tpm_log_event_rejected (pcpes : pcpes_t) (event : bytes_at)
    (m m' : machine) (rc : Z) :
  tpm_log_event pcpes event m = (rc, m') -> rc <> 0 -> m' = m.
Proof.
  unfold tpm_log_event. intros H Hrc.
  destruct (log_area_next_entry (tpm_state m) =? NULL).
  - inversion H. reflexivity.
  - destruct (_ >? _).
    + inversion H. reflexivity.
    + inversion H. congruence.
Qed.

(** What a successful append leaves in the tracker. *)
Lemma tpm_log_event_accepted (pcpes : pcpes_t) (event : bytes_at)
    (m m' : machine) :
  TCG_PC_LOGOVERFLOW <> 0 ->
  tpm_log_event pcpes event m = (0, m') ->
  let s := tpm_state m in
  let s' := tpm_state m' in
  log_area_last_entry s' = log_area_next_entry s
  /\ log_area_next_entry s'
     = u32 (log_area_next_entry s + u32 (sizeof_pcpes + eventdatasize pcpes))
  /\ entry_count s' = u32 (entry_count s + 1)
  /\ log_area_start_address s' = log_area_start_address s
  /\ log_area_minimum_length s' = log_area_minimum_length s
  /\ tpm_probed s' = tpm_probed s /\ tpm_found s' = tpm_found s
  /\ tpm_working s' = tpm_working s /\ if_shutdown s' = if_shutdown s
  /\ hw m' = hw m.
Proof.
  unfold tpm_log_event. intros Hc H.
  destruct (log_area_next_entry (tpm_state m) =? NULL).
  - inversion H. congruence.
  - destruct (_ >? _).
    + inversion H. congruence.
    + inversion H. subst m'. simpl. repeat split; reflexivity.
Qed.

(** An append that fits writes only the bytes of its entry. *)
Lemma tpm_log_event_writes_within (pcpes : pcpes_t) (event : bytes_at)
    (m : machine) (a : Z) :
  let s := tpm_state m in
  log_has_room m (eventdatasize pcpes) ->
  0 <= a < 2 ^ 32 ->
  a < log_area_next_entry s
  \/ log_area_next_entry s + sizeof_pcpes + eventdatasize pcpes <= a ->
  ram (snd (tpm_log_event pcpes event m)) a = ram m a.
Proof.
  intros s (R1 & R2 & R3 & R4 & R5 & R6) Ha Hout.
  rewrite (tpm_log_event_fits pcpes event m R1 R2 R3 R4 R5 R6).
  cbn [snd ram upd_state set_ram]. subst s. unfold sizeof_pcpes in *.
  set (next := log_area_next_entry (tpm_state m)) in *.
  unfold memcpy.
  assert (E1 : eventdatasize pcpes
               <= u32 (a - (next + 32))).
  { destruct Hout as [Hlt|Hge].
    - replace (a - (next + 32))
        with ((a - (next + 32) + 2 ^ 32) + (-1) * 2 ^ 32)
        by ring.
      unfold u32. rewrite Z.mod_add by lia. rewrite Z.mod_small; lia.
    - rewrite u32_small; lia. }
  assert (E2 : 32 <= u32 (a - next)).
  { destruct Hout as [Hlt|Hge].
    - replace (a - next)
        with ((a - next + 2 ^ 32) + (-1) * 2 ^ 32) by ring.
      unfold u32. rewrite Z.mod_add by lia. rewrite Z.mod_small; lia.
    - rewrite u32_small; lia. }
  destruct (Z.ltb_spec (u32 (a - (next + 32)))
              (eventdatasize pcpes)) as [L|_]; [lia|].
  destruct (Z.ltb_spec (u32 (a - next)) 32) as [L|_];
    [lia|reflexivity].
Qed.

(** Successful appends in a row: the counter counts them, as a [u32]. *)
Lemma entry_count_after_appends (es : list (pcpes_t * bytes_at))
    (m m' : machine) :
  TCG_PC_LOGOVERFLOW <> 0 ->
  0 <= entry_count (tpm_state m) < 2 ^ 32 ->
  tpm_log_events es m = Some m' ->
  entry_count (tpm_state m')
  = u32 (entry_count (tpm_state m) + Z.of_nat (List.length es)).
Proof.
  intros Hc Hr. revert m Hr. induction es as [|[p e] es IH]; intros m Hr H.
  - simpl in H. inversion H. subst m'. simpl.
    rewrite Z.add_0_r. symmetry. apply u32_small. exact Hr.
  - simpl in H. destruct (tpm_log_event p e m) as [rc m1] eqn:E.
    destruct (nonzero rc) eqn:Erc; [discriminate|].
    apply nonzero_false in Erc. subst rc.
    destruct (tpm_log_event_accepted p e m m1 Hc E)
      as (_ & _ & Hcnt & _).
    rewrite (IH m1).
    + rewrite Hcnt. cbn [List.length]. rewrite Nat2Z.inj_succ.
      unfold u32. rewrite Zplus_mod_idemp_l. f_equal. lia.
    + rewrite Hcnt. apply u32_range.
    + exact H.
Qed.

(** C2 (code defect).  When [sizeof_pcpes + eventdatasize] does not fit
    in a [u32], [tpm_log_event] compares the wrapped size with the room
    left: the entry is accepted although
    offset + headerSize + eventDataSize exceeds the capacity, the call
    returns 0 instead of [TCG_PC_LOGOVERFLOW], and the body copy of
    [eventdatasize] bytes overwrites every address from the end of the
    header up to the top of the address space, beyond the log region. *)
Theorem tpm_log_event_size_wraps (pcpes : pcpes_t) (event : bytes_at)
    (m : machine) :
  let s := tpm_state m in
  log_area_next_entry s <> NULL ->
  0 <= log_area_start_address s <= log_area_next_entry s ->
  log_area_minimum_length s < 2 ^ 32 ->
  2 ^ 32 - sizeof_pcpes <= eventdatasize pcpes < 2 ^ 32 ->
  log_area_next_entry s - log_area_start_address s
    + (sizeof_pcpes + eventdatasize pcpes - 2 ^ 32)
    <= log_area_minimum_length s ->
  log_area_next_entry s + sizeof_pcpes < 2 ^ 32 ->
  log_area_next_entry s - log_area_start_address s
    + sizeof_pcpes + eventdatasize pcpes > log_area_minimum_length s
  /\ exists m',
       tpm_log_event pcpes event m = (0, m')
       /\ entry_count (tpm_state m') = u32 (entry_count s + 1)
       /\ forall a,
            log_area_next_entry s + sizeof_pcpes <= a < 2 ^ 32 ->
            ram m' a = event (a - (log_area_next_entry s + sizeof_pcpes)).
Proof.
  intros s Hn Hs Hcap He Hroom Hptr. unfold sizeof_pcpes in *.
  split; [lia|].
  unfold tpm_log_event. fold s. unfold sizeof_pcpes.
  destruct (Z.eqb_spec (log_area_next_entry s) NULL) as [E|_]; [contradiction|].
  rewrite (u32_wrap_once (32 + eventdatasize pcpes)) by lia.
  rewrite (u32_small (log_area_next_entry s
                      + (32 + eventdatasize pcpes - 2 ^ 32)
                      - log_area_start_address s)) by lia.
  destruct (Z.gtb_spec
              (log_area_next_entry s + (32 + eventdatasize pcpes - 2 ^ 32)
               - log_area_start_address s)
              (log_area_minimum_length s)) as [G|_]; [lia|].
  eexists. split; [reflexivity|]. split; [reflexivity|].
  intros a Ha. simpl. unfold memcpy at 1.
  rewrite (u32_small (log_area_next_entry s + 32)) by lia.
  rewrite (u32_small (a - (log_area_next_entry s + 32))) by lia.
  destruct (Z.ltb_spec (a - (log_area_next_entry s + 32))
              (eventdatasize pcpes)) as [_|G]; [reflexivity|lia].
Qed.


(** ** The measurement pipeline *)

Lemma has_working_tpm_eq (m m0 : machine) (w : bool) :
  has_working_tpm m = (w, m0) ->
  m0 = probe_tpm m /\ tpm_probed (tpm_state m0) = true
  /\ tpm_working (tpm_state m0) = w.
Proof.
  unfold has_working_tpm. intros H. inversion H. subst.
  repeat split. apply probe_tpm_probed.
Qed.

(** After [tpm_set_failure] on a probed tracker, [has_working_tpm]
    answers false. *)
Lemma has_working_tpm_after_failure (m : machine) :
  tpm_probed (tpm_state m) = true ->
  has_working_tpm (tpm_set_failure m) = (false, tpm_set_failure m).
Proof.
  intros H. rewrite has_working_tpm_probed.
  - rewrite tpm_set_failure_working. reflexivity.
  - rewrite tpm_set_failure_probed. exact H.
Qed.

(** The part of step 4 that the code gets right: a failed transmission
    of the extend command marks the TPM failed and returns
    [TCG_FATAL_COM_ERROR]. *)
Lemma tpm_log_extend_event_transmit_failed (pcpes : pcpes_t)
    (event : bytes_at) (m m0 m1 : machine) (rc len : Z) (buf : bytes_at) :
  has_working_tpm m = (true, m0) ->
  pcrindex pcpes < 24 ->
  transmit 0 (tpm_req_extend_image pcpes) zeros sizeof_tpm_rsp_extend
    TPM_DURATION_TYPE_SHORT m0 = ((rc, buf, len), m1) ->
  rc <> 0 ->
  tpm_log_extend_event pcpes event m
  = (TCG_FATAL_COM_ERROR, tpm_set_failure m1)
  /\ fst (has_working_tpm (tpm_set_failure m1)) = false.
Proof.
  intros Hw Hp Ht Hrc.
  destruct (has_working_tpm_eq _ _ _ Hw) as (_ & Hprobed & _).
  pose proof (transmit_only_hw 0 (tpm_req_extend_image pcpes) zeros
                sizeof_tpm_rsp_extend TPM_DURATION_TYPE_SHORT m0) as Hf.
  pose proof (transmit_status 0 (tpm_req_extend_image pcpes) zeros
                sizeof_tpm_rsp_extend TPM_DURATION_TYPE_SHORT m0) as Hs.
  rewrite Ht in Hf, Hs. simpl in Hf, Hs.
  destruct Hs as [Hs|Hs]; [contradiction|].
  split.
  - unfold tpm_log_extend_event. rewrite Hw. simpl.
    destruct (Z.geb_spec (pcrindex pcpes) 24) as [G|_]; [lia|].
    rewrite Ht. apply nonzero_true in Hrc. rewrite Hrc. simpl.
    rewrite Hs. reflexivity.
  - rewrite has_working_tpm_after_failure; [reflexivity|].
    destruct (only_hw_state _ _ Hf) as [-> _]. exact Hprobed.
Qed.

(** C1 (code defect).  When the extend command is transmitted
    successfully but the response length differs from
    [sizeof(struct tpm_rsp_extend)], [tpm_log_extend_event] does run
    [tpm_set_failure], so [has_working_tpm] is false afterwards, but it
    returns [rc], which is 0 on this path: success, not
    [TCG_FATAL_COM_ERROR]. *)
Theorem tpm_log_extend_event_short_response (pcpes : pcpes_t)
    (event : bytes_at) (m m0 m1 : machine) (len : Z) (buf : bytes_at) :
  has_working_tpm m = (true, m0) ->
  pcrindex pcpes < 24 ->
  transmit 0 (tpm_req_extend_image pcpes) zeros sizeof_tpm_rsp_extend
    TPM_DURATION_TYPE_SHORT m0 = ((0, buf, len), m1) ->
  len <> sizeof_tpm_rsp_extend ->
  tpm_log_extend_event pcpes event m = (0, tpm_set_failure m1)
  /\ fst (has_working_tpm (tpm_set_failure m1)) = false.
Proof.
  intros Hw Hp Ht Hlen.
  destruct (has_working_tpm_eq _ _ _ Hw) as (_ & Hprobed & _).
  pose proof (transmit_only_hw 0 (tpm_req_extend_image pcpes) zeros
                sizeof_tpm_rsp_extend TPM_DURATION_TYPE_SHORT m0) as Hf.
  rewrite Ht in Hf. simpl in Hf.
  split.
  - unfold tpm_log_extend_event. rewrite Hw. simpl.
    destruct (Z.geb_spec (pcrindex pcpes) 24) as [G|_]; [lia|].
    rewrite Ht.
    destruct (Z.eqb_spec len sizeof_tpm_rsp_extend) as [E|_]; [contradiction|].
    reflexivity.
  - rewrite has_working_tpm_after_failure; [reflexivity|].
    destruct (only_hw_state _ _ Hf) as [-> _]. exact Hprobed.
Qed.

(** With a TPM that is not working the pipeline stops at its first
    test; with a PCR index of 24 or more, at its second.  Either way the
    machine is left as the probe leaves it. *)
Lemma tpm_log_extend_event_not_working (pcpes : pcpes_t) (event : bytes_at)
    (m m0 : machine) :
  has_working_tpm m = (false, m0) ->
  tpm_log_extend_event pcpes event m = (TCG_GENERAL_ERROR, m0).
Proof. intros H. unfold tpm_log_extend_event. rewrite H. reflexivity. Qed.


Lemma tpm_fill_hash_pcrindex (pcpes : pcpes_t) (h : option bytes_at) (n : Z) :
  pcrindex (tpm_fill_hash pcpes h n) = pcrindex pcpes.
Proof. destruct h; reflexivity. Qed.

(** ** The sticky failure state *)

Lemma failed_has_working_tpm (m : machine) :
  failed m -> has_working_tpm m = (false, m).
Proof.
  intros [Hp Hw]. rewrite has_working_tpm_probed by exact Hp.
  rewrite Hw. reflexivity.
Qed.

Lemma tpm_set_failure_failed (m : machine) :
  tpm_probed (tpm_state m) = true -> failed (tpm_set_failure m).
Proof.
  intros H. split.
  - rewrite tpm_set_failure_probed. exact H.
  - apply tpm_set_failure_working.
Qed.

Lemma failed_tpm_log_extend_event (pcpes : pcpes_t) (event : bytes_at)
    (m : machine) :
  failed m -> tpm_log_extend_event pcpes event m = (TCG_GENERAL_ERROR, m).
Proof.
  intros H. apply tpm_log_extend_event_not_working.
  apply failed_has_working_tpm. exact H.
Qed.


(** ** The pipeline on pointers into memory *)


Lemma tpm_log_event_at_rejected (pcpes event : Z) (m m' : machine) (rc : Z) :
  tpm_log_event_at pcpes event m = (rc, m') -> rc <> 0 -> m' = m.
Proof.
  unfold tpm_log_event_at. intros H Hrc.
  destruct (log_area_next_entry (tpm_state m) =? NULL).
  - inversion H. reflexivity.
  - destruct (_ >? _).
    + inversion H. reflexivity.
    + inversion H. congruence.
Qed.

Lemma tpm_log_event_at_flags (pcpes event : Z) (m : machine) :
  let s := tpm_state m in
  let m' := snd (tpm_log_event_at pcpes event m) in
  tpm_probed (tpm_state m') = tpm_probed s
  /\ tpm_found (tpm_state m') = tpm_found s
  /\ tpm_working (tpm_state m') = tpm_working s
  /\ if_shutdown (tpm_state m') = if_shutdown s
  /\ hw m' = hw m.
Proof.
  unfold tpm_log_event_at.
  destruct (_ =? NULL); simpl; [auto 6|].
  destruct (_ >? _); simpl; auto 6.
Qed.

(** What a successful append leaves in the tracker. *)
Lemma tpm_log_event_at_accepted (pcpes event : Z) (m m' : machine) :
  TCG_PC_LOGOVERFLOW <> 0 ->
  tpm_log_event_at pcpes event m = (0, m') ->
  let s := tpm_state m in
  let s' := tpm_state m' in
  log_area_last_entry s' = log_area_next_entry s
  /\ log_area_next_entry s'
     = u32 (log_area_next_entry s
            + u32 (sizeof_pcpes + eventdatasize (load_pcpes (ram m) pcpes)))
  /\ entry_count s' = u32 (entry_count s + 1)
  /\ log_area_start_address s' = log_area_start_address s
  /\ log_area_minimum_length s' = log_area_minimum_length s.
Proof.
  unfold tpm_log_event_at. intros Hc H.
  destruct (log_area_next_entry (tpm_state m) =? NULL).
  - inversion H. congruence.
  - destruct (_ >? _).
    + inversion H. congruence.
    + inversion H. subst m'. simpl. repeat split; reflexivity.
Qed.




Lemma tpm_fill_hash_at_frame (p h n : Z) (m : machine) :
  tpm_state (tpm_fill_hash_at p h n m) = tpm_state m
  /\ hw (tpm_fill_hash_at p h n m) = hw m.
Proof.
  unfold tpm_fill_hash_at. destruct (nonzero h); split; reflexivity.
Qed.






(** *** Nothing but the explicit reset leaves the failure state *)

Lemma is_tpm_present_from_flags (n : nat) (i : Z) (m : machine) :
  let s := tpm_state m in
  let s' := tpm_state (snd (is_tpm_present_from n i m)) in
  tpm_probed s' = tpm_probed s /\ tpm_found s' = tpm_found s
  /\ tpm_working s' = tpm_working s /\ if_shutdown s' = if_shutdown s.
Proof.
  revert i m. induction n as [|n IH]; intros i m; simpl; [auto|].
  destruct (probe (tpm_drivers i) (hw m)) as [r d1].
  destruct (nonzero r); simpl; [auto|].
  apply (IH (i + 1) (set_hw d1 m)).
Qed.

Lemma tpm_log_event_flags (pcpes : pcpes_t) (event : bytes_at) (m : machine) :
  let s := tpm_state m in
  let m' := snd (tpm_log_event pcpes event m) in
  tpm_probed (tpm_state m') = tpm_probed s
  /\ tpm_found (tpm_state m') = tpm_found s
  /\ tpm_working (tpm_state m') = tpm_working s
  /\ if_shutdown (tpm_state m') = if_shutdown s
  /\ hw m' = hw m.
Proof.
  unfold tpm_log_event.
  destruct (_ =? NULL); simpl; [auto 6|].
  destruct (_ >? _); simpl; auto 6.
Qed.


Lemma store_u32_other (r : mem) (p v a : Z) :
  within p 4 a = false -> store_u32 r p v a = r a.
Proof.
  unfold within, store_u32, memcpy. intros ->. reflexivity.
Qed.






(** ** The PCR index check *)

Lemma nonzero_is_preboot_if_shutdown (m : machine) :
  nonzero (is_preboot_if_shutdown m) = if_shutdown (tpm_state m).
Proof.
  unfold is_preboot_if_shutdown. destruct (if_shutdown (tpm_state m));
    reflexivity.
Qed.

(** The probe writes neither memory nor the log fields. *)
Lemma is_tpm_present_from_frame (n : nat) (i : Z) (m : machine) :
  let s := tpm_state m in
  let m' := snd (is_tpm_present_from n i m) in
  ram m' = ram m
  /\ log_area_start_address (tpm_state m') = log_area_start_address s
  /\ log_area_minimum_length (tpm_state m') = log_area_minimum_length s
  /\ log_area_next_entry (tpm_state m') = log_area_next_entry s
  /\ log_area_last_entry (tpm_state m') = log_area_last_entry s
  /\ entry_count (tpm_state m') = entry_count s.
Proof.
  revert i m. induction n as [|n IH]; intros i m; simpl; [auto 7|].
  destruct (probe (tpm_drivers i) (hw m)) as [r d1].
  destruct (nonzero r); simpl; [auto 7|].
  apply (IH (i + 1) (set_hw d1 m)).
Qed.

Lemma probe_tpm_frame (m : machine) :
  let s := tpm_state m in
  let m' := probe_tpm m in
  ram m' = ram m
  /\ log_area_start_address (tpm_state m') = log_area_start_address s
  /\ log_area_minimum_length (tpm_state m') = log_area_minimum_length s
  /\ log_area_next_entry (tpm_state m') = log_area_next_entry s
  /\ log_area_last_entry (tpm_state m') = log_area_last_entry s
  /\ entry_count (tpm_state m') = entry_count s.
Proof.
  unfold probe_tpm. destruct (tpm_probed (tpm_state m)); [simpl; auto 7|].
  pose proof (is_tpm_present_from_frame (Z.to_nat TPM_NUM_DRIVERS) 0
                (upd_state (set_tpm_probed true) m)) as H.
  unfold is_tpm_present.
  destruct (is_tpm_present_from _ _ _) as [rc m2]. simpl in H. simpl.
  exact H.
Qed.

Lemma probe_tpm_idem (m : machine) :
  tpm_probed (tpm_state m) = true -> probe_tpm m = m.
Proof. intros H. unfold probe_tpm. rewrite H. reflexivity. Qed.



(** ** The interface-shutdown latch *)



(** ** The ACPI log locator *)

Lemma div4_bounds (x : Z) : 4 * (x / 4) <= x < 4 * (x / 4) + 4.
Proof.
  pose proof (Z.div_mod x 4 ltac:(lia)) as H.
  pose proof (Z.mod_pos_bound x 4 ltac:(lia)) as B. lia.
Qed.

(** For a root table shorter than 64 KiB the [u16] offset cannot wrap,
    and a fuel above the number of entries lets the loop run to its
    end: the first valid entry in table order, or [NULL]. *)
Lemma find_tcpa_loop_first_valid (r : mem) (rsdt length : Z) :
  length < 2 ^ 16 ->
  forall (n fuel : nat) (off ctr : Z),
    n = Z.to_nat ((length - off) / sizeof_rsdt_entry) ->
    (n < fuel)%nat ->
    0 <= off ->
    0 <= ctr -> ctr + Z.of_nat n < 2 ^ 32 ->
    find_tcpa_loop fuel r rsdt length off ctr
    = Some (first_valid r rsdt n ctr).
Proof.
  intros Hlen. unfold sizeof_rsdt_entry.
  induction n as [|n IH]; intros fuel off ctr Hn Hfuel Hoff Hctr Hwrap.
  - destruct fuel as [|fuel]; [lia|]. simpl. unfold sizeof_rsdt_entry.
    pose proof (div4_bounds (length - off)) as B.
    destruct (Z.leb_spec (off + 4) length) as [L|L]; [|reflexivity].
    assert (1 <= (length - off) / 4) by lia. lia.
  - destruct fuel as [|fuel]; [lia|]. simpl. unfold sizeof_rsdt_entry.
    pose proof (div4_bounds (length - off)) as B.
    assert (Hq : (length - off) / 4 = Z.of_nat (S n)) by lia.
    destruct (Z.leb_spec (off + 4) length) as [L|L]; [|lia].
    destruct (tcpa_valid r (rsdt_entry r rsdt ctr)); [reflexivity|].
    assert (E16 : u16 (off + 4) = off + 4).
    { unfold u16. apply Z.mod_small. lia. }
    rewrite E16, (u32_small (ctr + 1)) by lia.
    apply IH; try lia.
    replace (length - (off + 4)) with ((length - off) + (-1) * 4) by ring.
    rewrite Z.div_add by lia. lia.
Qed.

(** What [first_valid] returns: a valid entry all of whose predecessors
    are invalid, or [NULL]. *)
Lemma first_valid_found (r : mem) (rsdt : Z) (n : nat) (ctr : Z) :
  first_valid r rsdt n ctr <> NULL ->
  exists k : nat,
    (k < n)%nat
    /\ first_valid r rsdt n ctr = rsdt_entry r rsdt (ctr + Z.of_nat k)
    /\ tcpa_valid r (rsdt_entry r rsdt (ctr + Z.of_nat k)) = true
    /\ forall j : nat, (j < k)%nat ->
         tcpa_valid r (rsdt_entry r rsdt (ctr + Z.of_nat j)) = false.
Proof.
  revert ctr. induction n as [|n IH]; intros ctr H; simpl in *.
  - congruence.
  - destruct (tcpa_valid r (rsdt_entry r rsdt ctr)) eqn:E.
    + exists O. rewrite Z.add_0_r. repeat split; try lia. exact E.
    + destruct (IH (ctr + 1) H) as (k & Hk & Heq & Hv & Hprev).
      exists (S k). rewrite Nat2Z.inj_succ.
      replace (ctr + Z.succ (Z.of_nat k)) with (ctr + 1 + Z.of_nat k) by lia.
      repeat split; try lia; try assumption.
      intros [|j] Hj.
      * rewrite Z.add_0_r. exact E.
      * rewrite Nat2Z.inj_succ.
        replace (ctr + Z.succ (Z.of_nat j)) with (ctr + 1 + Z.of_nat j) by lia.
        apply Hprev. lia.
Qed.

Lemma first_valid_none (r : mem) (rsdt : Z) (n : nat) (ctr : Z) :
  (forall j : nat, (j < n)%nat ->
     tcpa_valid r (rsdt_entry r rsdt (ctr + Z.of_nat j)) = false) ->
  first_valid r rsdt n ctr = NULL.
Proof.
  revert ctr. induction n as [|n IH]; intros ctr H; simpl; [reflexivity|].
  pose proof (H O ltac:(lia)) as H0. rewrite Z.add_0_r in H0. rewrite H0.
  apply IH. intros j Hj. specialize (H (S j) ltac:(lia)).
  rewrite Nat2Z.inj_succ in H.
  replace (ctr + 1 + Z.of_nat j) with (ctr + Z.succ (Z.of_nat j)) by lia.
  exact H.
Qed.

Lemma rsdt_entries_bound (length : Z) :
  length < 2 ^ 16 -> Z.of_nat (rsdt_entries length) < 2 ^ 14.
Proof.
  intros H. unfold rsdt_entries, sizeof_rsdt_entry.
  pose proof (div4_bounds (length - u16 offsetof_rsdt_entry)) as B.
  assert (0 <= u16 offsetof_rsdt_entry)
    by (unfold u16; apply Z.mod_pos_bound; lia).
  lia.
Qed.

(** The scan of a root table shorter than 64 KiB, with enough fuel. *)
Lemma find_tcpa_by_rsdp_scan (fuel : nat) (rsdp : Z) (m : machine) :
  let rsdt := le32_at (deref (ram m) rsdp)
                offsetof_rsdp_rsdt_physical_address in
  let length := le32_at (deref (ram m) rsdt) offsetof_rsdt_length in
  let t := first_valid (ram m) rsdt (rsdt_entries length) 0 in
  rsdt <> NULL ->
  length < 2 ^ 16 -> (rsdt_entries length < fuel)%nat ->
  find_tcpa_by_rsdp fuel rsdp m
  = Some (t, if nonzero t then upd_state (set_tcpa t) m else m).
Proof.
  intros rsdt length t H3 Hlen Hfuel.
  unfold find_tcpa_by_rsdp. fold rsdt. fold length.
  destruct (Z.eqb_spec rsdt NULL) as [E|_]; [contradiction|].
  assert (Hscan : find_tcpa_loop fuel (ram m) rsdt length
                    (u16 offsetof_rsdt_entry) 0 = Some t).
  { apply find_tcpa_loop_first_valid; try assumption; try lia.
    - reflexivity.
    - unfold u16. apply Z.mod_pos_bound. lia.
    - pose proof (rsdt_entries_bound length Hlen). lia. }
  rewrite Hscan. reflexivity.
Qed.

(** C6 (amended).  A cached table is returned without a scan, whatever
    the fuel.  Without a root pointer the locator returns [NULL] and
    sets [if_shutdown].  With a root pointer and a root table shorter
    than 64 KiB it returns the first entry, in table order, whose
    signature matches and whose checksum is zero, and caches it; when
    there is no root table or no entry is valid it returns [NULL] and
    leaves the machine, [if_shutdown] included, as it was. *)
Theorem find_tcpa_table_spec (fuel : nat) (m : machine) :
  let rsdt := le32_at (deref (ram m) (RsdpAddr m))
                offsetof_rsdp_rsdt_physical_address in
  let length := le32_at (deref (ram m) rsdt) offsetof_rsdt_length in
  let t := first_valid (ram m) rsdt (rsdt_entries length) 0 in
  (tcpa (tpm_state m) <> NULL ->
   find_tcpa_table fuel m = Some (tcpa (tpm_state m), m))
  /\ (tcpa (tpm_state m) = NULL -> RsdpAddr m = NULL ->
      find_tcpa_table fuel m
      = Some (NULL, upd_state (set_if_shutdown true) m))
  /\ (tcpa (tpm_state m) = NULL -> RsdpAddr m <> NULL -> rsdt = NULL ->
      find_tcpa_table fuel m = Some (NULL, m))
  /\ (tcpa (tpm_state m) = NULL -> RsdpAddr m <> NULL -> rsdt <> NULL ->
      length < 2 ^ 16 -> (rsdt_entries length < fuel)%nat ->
      find_tcpa_table fuel m
      = Some (t, if nonzero t then upd_state (set_tcpa t) m else m)
      /\ (t <> NULL ->
          exists k : nat,
            (k < rsdt_entries length)%nat
            /\ t = rsdt_entry (ram m) rsdt (Z.of_nat k)
            /\ tcpa_valid (ram m) t = true
            /\ forall j : nat, (j < k)%nat ->
                 tcpa_valid (ram m) (rsdt_entry (ram m) rsdt (Z.of_nat j))
                 = false)
      /\ ((forall j : nat, (j < rsdt_entries length)%nat ->
             tcpa_valid (ram m) (rsdt_entry (ram m) rsdt (Z.of_nat j))
             = false) ->
          find_tcpa_table fuel m = Some (NULL, m))).
Proof.
  intros rsdt length t. unfold find_tcpa_table.
  repeat apply conj.
  - intros H. apply nonzero_true in H. rewrite H. reflexivity.
  - intros H1 H2. apply nonzero_false in H1, H2. rewrite H1, H2. reflexivity.
  - intros H1 H2 H3. apply nonzero_false in H1. apply nonzero_true in H2.
    rewrite H1, H2. unfold find_tcpa_by_rsdp. fold rsdt. rewrite H3.
    reflexivity.
  - intros H1 H2 H3 Hlen Hfuel.
    apply nonzero_false in H1. apply nonzero_true in H2.
    rewrite H1, H2.
    rewrite (find_tcpa_by_rsdp_scan fuel (RsdpAddr m) m H3 Hlen Hfuel).
    fold rsdt. fold length. fold t.
    split; [reflexivity|]. split.
    + intros Ht. destruct (first_valid_found _ _ _ _ Ht)
        as (k & Hk & Heq & Hv & Hprev).
      exists k. simpl in Heq, Hv. fold t in Heq. rewrite <- Heq in Hv.
      repeat split; assumption.
    + intros Hnone.
      assert (Et : t = NULL) by (apply first_valid_none; exact Hnone).
      rewrite Et. reflexivity.
Qed.

(** The locator returns whenever the root table, if it has to be
    scanned, is shorter than 64 KiB and the fuel exceeds its number of
    entries, which is below 2^14. *)
Lemma find_tcpa_table_returns (fuel : nat) (m : machine) :
  let rsdt := le32_at (deref (ram m) (RsdpAddr m))
                offsetof_rsdp_rsdt_physical_address in
  let length := le32_at (deref (ram m) rsdt) offsetof_rsdt_length in
  (tcpa (tpm_state m) = NULL -> RsdpAddr m <> NULL -> rsdt <> NULL ->
   length < 2 ^ 16 /\ (rsdt_entries length < fuel)%nat) ->
  exists t m1, find_tcpa_table fuel m = Some (t, m1).
Proof.
  intros rsdt length H. unfold find_tcpa_table.
  destruct (nonzero (tcpa (tpm_state m))) eqn:E1; [eauto|].
  destruct (nonzero (RsdpAddr m)) eqn:E2; [|eauto].
  apply nonzero_false in E1. apply nonzero_true in E2.
  destruct (Z.eq_dec rsdt NULL) as [E3|E3].
  - unfold find_tcpa_by_rsdp. fold rsdt. rewrite E3. simpl. eauto.
  - destruct (H E1 E2 E3) as [Hlen Hfuel].
    rewrite (find_tcpa_by_rsdp_scan fuel (RsdpAddr m) m E3 Hlen Hfuel).
    eauto.
Qed.

(** ** Resetting the log *)

(** C8.  When the locator yields a table whose log area start address
    is not null, [reset_acpi_log] returns with the area
    [start, start + length) reading zero, the cursor at [start], no
    last entry and an entry count of 0. *)
Theorem reset_acpi_log_established (fuel : nat) (m m1 : machine) (t : Z) :
  find_tcpa_table fuel m = Some (t, m1) ->
  t <> NULL ->
  let start := le32_at (deref (ram m1) t)
                 offsetof_tcpa_log_area_start_address in
  let len := le32_at (deref (ram m1) t)
               offsetof_tcpa_log_area_minimum_length in
  start <> NULL ->
  exists m',
    reset_acpi_log fuel m = Some m'
    /\ log_area_start_address (tpm_state m') = start
    /\ log_area_minimum_length (tpm_state m') = len
    /\ (forall a, start <= a < start + len -> ram m' a = 0)
    /\ log_area_next_entry (tpm_state m') = start
    /\ log_area_last_entry (tpm_state m') = NULL
    /\ entry_count (tpm_state m') = 0.
Proof.
  intros Hfind Ht start len Hstart.
  unfold reset_acpi_log, get_lasa_base_ptr. rewrite Hfind.
  apply nonzero_true in Ht. rewrite Ht. fold start. fold len.
  apply nonzero_true in Hstart. rewrite Hstart.
  eexists. split; [reflexivity|]. simpl.
  repeat split. intros a Ha. unfold memset.
  pose proof (u32_le (a - start) ltac:(lia)) as Hle.
  destruct (Z.ltb_spec (u32 (a - start)) len) as [_|G]; [reflexivity|lia].
Qed.

(** Whenever the locator returns, so does [reset_acpi_log], with the
    cursor at the start address it stored, no last entry and no entry
    counted; without a table the start address is null. *)
Lemma reset_acpi_log_returns (fuel : nat) (m m1 : machine) (t : Z) :
  find_tcpa_table fuel m = Some (t, m1) ->
  exists m',
    reset_acpi_log fuel m = Some m'
    /\ log_area_next_entry (tpm_state m')
       = log_area_start_address (tpm_state m')
    /\ log_area_last_entry (tpm_state m') = NULL
    /\ entry_count (tpm_state m') = 0
    /\ (t = NULL -> log_area_start_address (tpm_state m') = NULL).
Proof.
  intros Hfind. unfold reset_acpi_log, get_lasa_base_ptr. rewrite Hfind.
  destruct (nonzero t) eqn:Et.
  - eexists. split; [reflexivity|]. simpl. repeat split.
    intros E. apply nonzero_true in Et. contradiction.
  - eexists. split; [reflexivity|]. simpl. repeat split.
Qed.

(** ** The log-only path *)

Lemma tpm_log_event_set_flags (pr fo wo : bool) (pcpes : pcpes_t)
    (event : bytes_at) (m : machine) :
  tpm_log_event pcpes event (upd_state (set_flags pr fo wo) m)
  = (fst (tpm_log_event pcpes event m),
     upd_state (set_flags pr fo wo) (snd (tpm_log_event pcpes event m))).
Proof.
  unfold tpm_log_event.
  cbn [upd_state set_flags set_tpm_working set_tpm_found set_tpm_probed
       tpm_state ram log_area_next_entry log_area_start_address
       log_area_minimum_length entry_count].
  destruct (_ =? NULL); [reflexivity|].
  destruct (_ >? _); reflexivity.
Qed.

Lemma tpm_log_event_at_set_flags (pr fo wo : bool) (pcpes event : Z)
    (m : machine) :
  tpm_log_event_at pcpes event (upd_state (set_flags pr fo wo) m)
  = (fst (tpm_log_event_at pcpes event m),
     upd_state (set_flags pr fo wo) (snd (tpm_log_event_at pcpes event m))).
Proof.
  unfold tpm_log_event_at.
  cbn [upd_state set_flags set_tpm_working set_tpm_found set_tpm_probed
       tpm_state ram log_area_next_entry log_area_start_address
       log_area_minimum_length entry_count].
  destruct (_ =? NULL); [reflexivity|].
  destruct (_ >? _); reflexivity.
Qed.

Lemma tpm_fill_hash_at_set_flags (pr fo wo : bool) (p h n : Z) (m : machine) :
  tpm_fill_hash_at p h n (upd_state (set_flags pr fo wo) m)
  = upd_state (set_flags pr fo wo) (tpm_fill_hash_at p h n m).
Proof. unfold tpm_fill_hash_at. destruct (nonzero h); reflexivity. Qed.

Lemma u32_sub_u32 (a b : Z) : u32 (u32 a - u32 b) = u32 (a - b).
Proof. unfold u32. symmetry. apply Zminus_mod. Qed.

(** Storing the digest leaves the other header fields of the caller's
    entry as they were. *)
Lemma memcpy_digest_other (r : mem) (p : Z) (d : bytes_at) (i : Z) :
  0 <= i < 8 \/ 28 <= i < 32 ->
  deref (memcpy r (u32 (p + 8)) d sizeof_digest) p i = deref r p i.
Proof.
  intros Hi. unfold deref, memcpy, sizeof_digest.
  rewrite u32_sub_u32. replace (p + i - (p + 8)) with (i - 8) by ring.
  assert (G : 20 <= u32 (i - 8)).
  { destruct Hi as [Hi|Hi].
    - replace (i - 8) with ((i - 8 + 2 ^ 32) + (-1) * 2 ^ 32) by ring.
      unfold u32. rewrite Z.mod_add by lia. rewrite Z.mod_small; lia.
    - rewrite u32_small; lia. }
  destruct (Z.ltb_spec (u32 (i - 8)) 20) as [L|_]; [lia|reflexivity].
Qed.

Lemma load_pcpes_after_fill (p h n : Z) (m : machine) :
  let q := load_pcpes (ram m) p in
  let q' := load_pcpes (ram (tpm_fill_hash_at p h n m)) p in
  pcrindex q' = pcrindex q /\ eventtype q' = eventtype q
  /\ eventdatasize q' = eventdatasize q.
Proof.
  unfold tpm_fill_hash_at. destruct (nonzero h); [|auto].
  unfold load_pcpes. cbn [ram set_ram pcrindex eventtype eventdatasize].
  unfold le32_at.
  rewrite !memcpy_digest_other; [auto | lia ..].
Qed.

Lemma tpm_fill_hash_at_log (p h n : Z) (m : machine) :
  tpm_state (tpm_fill_hash_at p h n m) = tpm_state m.
Proof. apply tpm_fill_hash_at_frame. Qed.

(** The path taken by [hash_log_event_int] on a valid block, whatever
    the TPM flags say. *)
Lemma hash_log_event_int_valid (hlei : hlei_t) (hleo : hleo_t) (m : machine) :
  if_shutdown (tpm_state m) = false ->
  hlei_valid hlei (load_pcpes (ram m) (hlei_logdataptr hlei)) ->
  let p := hlei_logdataptr hlei in
  let m1 := tpm_fill_hash_at p (hlei_hashdataptr hlei)
              (hlei_hashdatalen hlei) m in
  let r := tpm_log_event_at p (u32 (p + sizeof_pcpes)) m1 in
  hash_log_event_int hlei hleo m
  = if nonzero (fst r)
    then ((fst r, hleo_err_exit (fst r) hleo), snd r)
    else ((fst r, {| hleo_opblength := u16 sizeof_hleo; hleo_reserved := 0;
                     hleo_eventnumber := entry_count (tpm_state (snd r)) |}),
          snd r).
Proof.
  intros Hs (Hv1 & Hv2 & Hv3 & Hv4 & Hv5) p m1 r.
  unfold hash_log_event_int. rewrite nonzero_is_preboot_if_shutdown, Hs.
  rewrite Hv1, Z.eqb_refl. cbn [negb].
  destruct (Z.geb_spec
              (pcrindex (load_pcpes (ram m) (hlei_logdataptr hlei))) 24)
    as [G|_]; [lia|].
  rewrite Hv3, Hv4, Hv5, !Z.eqb_refl. cbn [negb orb].
  subst r m1 p. destruct (tpm_log_event_at _ _ _) as [rc m2]. reflexivity.
Qed.

Lemma hash_log_event_int_frame (hlei : hlei_t) (hleo : hleo_t) (m : machine) :
  let m' := snd (hash_log_event_int hlei hleo m) in
  hw m' = hw m
  /\ tpm_probed (tpm_state m') = tpm_probed (tpm_state m)
  /\ tpm_found (tpm_state m') = tpm_found (tpm_state m)
  /\ tpm_working (tpm_state m') = tpm_working (tpm_state m).
Proof.
  unfold hash_log_event_int.
  destruct (nonzero (is_preboot_if_shutdown m)); [simpl; auto|].
  destruct (negb (_ =? sizeof_hlei)); [simpl; auto|].
  destruct (_ || _); [simpl; auto|].
  pose proof (tpm_log_event_at_flags (hlei_logdataptr hlei)
    (u32 (hlei_logdataptr hlei + sizeof_pcpes))
    (tpm_fill_hash_at (hlei_logdataptr hlei)
       (hlei_hashdataptr hlei) (hlei_hashdatalen hlei) m)) as H.
  destruct (tpm_log_event_at _ _ _) as [rc m2]. simpl in H.
  destruct H as (H1 & H2 & H3 & _ & H5).
  destruct (tpm_fill_hash_at_frame (hlei_logdataptr hlei)
              (hlei_hashdataptr hlei) (hlei_hashdatalen hlei) m) as [Hs Hh].
  rewrite Hs in H1, H2, H3. rewrite Hh in H5.
  destruct (nonzero rc); simpl; auto.
Qed.

Lemma hash_log_event_int_set_flags (pr fo wo : bool) (hlei : hlei_t)
    (hleo : hleo_t) (m : machine) :
  hash_log_event_int hlei hleo (upd_state (set_flags pr fo wo) m)
  = (fst (hash_log_event_int hlei hleo m),
     upd_state (set_flags pr fo wo) (snd (hash_log_event_int hlei hleo m))).
Proof.
  unfold hash_log_event_int. rewrite !nonzero_is_preboot_if_shutdown.
  cbn [upd_state tpm_state ram set_flags set_tpm_working set_tpm_found
       set_tpm_probed if_shutdown].
  destruct (if_shutdown (tpm_state m)); [reflexivity|].
  destruct (negb (_ =? sizeof_hlei)); [reflexivity|].
  destruct (_ || _); [reflexivity|].
  rewrite ?tpm_fill_hash_at_set_flags.
  cbn [upd_state ram].
  rewrite ?tpm_log_event_at_set_flags.
  destruct (tpm_log_event_at _ _ _) as [rc m2]. cbn [fst snd].
  destruct (nonzero rc); reflexivity.
Qed.

(** An append through pointers that fits.  The second [memcpy] takes its
    length from the caller's entry as the first one has left it. *)
Lemma tpm_log_event_at_fits (pcpes event : Z) (m : machine) :
  let s := tpm_state m in
  let n := eventdatasize (load_pcpes (ram m) pcpes) in
  let r1 := memcpy (ram m) (log_area_next_entry s) (deref (ram m) pcpes)
              sizeof_pcpes in
  log_has_room m n ->
  tpm_log_event_at pcpes event m =
  (0, upd_state
        (set_log (log_area_minimum_length s) (log_area_start_address s)
           (u32 (entry_count s + 1))
           (log_area_next_entry s + sizeof_pcpes + n)
           (log_area_next_entry s))
        (set_ram
           (memcpy r1 (log_area_next_entry s + sizeof_pcpes)
              (deref r1 event) (eventdatasize (load_pcpes r1 pcpes))) m)).
Proof.
  intros s n r1 Hroom. unfold log_has_room in Hroom. cbv zeta in Hroom.
  fold s in Hroom. destruct Hroom as (Hn & Hs & He & Hfit & Hcap & Hptr).
  unfold tpm_log_event_at. fold s. fold n. fold r1.
  unfold sizeof_pcpes in *.
  destruct (Z.eqb_spec (log_area_next_entry s) NULL) as [E|_]; [contradiction|].
  rewrite (u32_small (32 + n)) by lia.
  rewrite (u32_small (log_area_next_entry s + (32 + n)
                      - log_area_start_address s)) by lia.
  destruct (Z.gtb_spec
              (log_area_next_entry s + (32 + n) - log_area_start_address s)
              (log_area_minimum_length s)) as [G|_]; [lia|].
  rewrite (u32_small (log_area_next_entry s + 32)) by lia.
  rewrite (u32_small (log_area_next_entry s + (32 + n))) by lia.
  rewrite Z.add_assoc. reflexivity.
Qed.

(** What the header copy leaves alone. *)
Lemma memcpy_outside (r : mem) (dst : Z) (src : bytes_at) (n a : Z) :
  0 <= dst -> dst + n <= 2 ^ 32 -> 0 <= a < 2 ^ 32 ->
  a < dst \/ dst + n <= a ->
  memcpy r dst src n a = r a.
Proof.
  intros Hd Hn Ha Ho. unfold memcpy.
  destruct (Z.ltb_spec (u32 (a - dst)) n) as [L|_]; [|reflexivity].
  exfalso. pose proof (u32_range (a - dst)) as U.
  assert (N : 0 < n) by lia. clear U.
  destruct (Z_lt_le_dec a dst) as [Lt|Ge].
  - replace (a - dst) with ((a - dst + 2 ^ 32) + (-1) * 2 ^ 32) in L by ring.
    unfold u32 in L. rewrite Z.mod_add in L by lia.
    rewrite Z.mod_small in L; lia.
  - rewrite u32_small in L; lia.
Qed.

Lemma memcpy_inside (r : mem) (dst : Z) (src : bytes_at) (n i : Z) :
  0 <= i < n -> i < 2 ^ 32 ->
  memcpy r dst src n (dst + i) = src i.
Proof.
  intros Hi Hb. unfold memcpy.
  replace (dst + i - dst) with i by ring.
  rewrite u32_small by lia.
  destruct (Z.ltb_spec i n) as [_|G]; [reflexivity|lia].
Qed.

(** With the caller's entry apart from the place of the new one, the
    header copy leaves the caller's entry as it was, the body is copied
    with the length that was validated, and the log holds the caller's
    entry byte for byte. *)
Lemma tpm_log_event_at_copy (p : Z) (m : machine) :
  let s := tpm_state m in
  let n := eventdatasize (load_pcpes (ram m) p) in
  let m' := snd (tpm_log_event_at p (u32 (p + sizeof_pcpes)) m) in
  log_has_room m n ->
  entry_apart p (log_area_next_entry s) n ->
  (forall i, 0 <= i < sizeof_pcpes + n ->
             ram m' (log_area_next_entry s + i) = ram m (p + i))
  /\ (forall a, 0 <= a < 2 ^ 32 ->
                a < log_area_next_entry s
                \/ log_area_next_entry s + sizeof_pcpes + n <= a ->
                ram m' a = ram m a).
Proof.
  intros s n m' Hroom (Hp0 & Hp1 & Hap).
  subst m'. rewrite (tpm_log_event_at_fits p _ m Hroom).
  fold s. fold n. cbn [snd upd_state set_ram ram].
  unfold log_has_room in Hroom. cbv zeta in Hroom. fold s in Hroom.
  destruct Hroom as (Hn & Hs & He & Hfit & Hcap & Hptr).
  unfold sizeof_pcpes in *.
  set (next := log_area_next_entry s) in *.
  set (r1 := memcpy (ram m) next (deref (ram m) p) 32).
  assert (Hr1 : forall i, 0 <= i < 32 + n -> r1 (p + i) = ram m (p + i)).
  { intros i Hi. unfold r1. apply memcpy_outside; lia. }
  assert (Hn' : eventdatasize (load_pcpes r1 p) = n).
  { unfold n, load_pcpes. cbn [eventdatasize]. unfold le32_at, deref.
    rewrite !(u32_small (p + _)) by lia.
    rewrite !Hr1 by lia. reflexivity. }
  rewrite Hn'.
  split.
  - intros i Hi.
    destruct (Z_lt_le_dec i 32) as [L|G].
    + rewrite memcpy_outside by lia.
      unfold r1. rewrite memcpy_inside by lia.
      unfold deref. rewrite u32_small by lia. reflexivity.
    + replace (next + i) with (next + 32 + (i - 32)) by ring.
      rewrite memcpy_inside by lia.
      unfold deref. rewrite (u32_small (p + 32)) by lia.
      rewrite u32_small by lia.
      replace (p + 32 + (i - 32)) with (p + i) by ring.
      apply Hr1. lia.
  - intros a Ha Ho.
    rewrite memcpy_outside by lia.
    unfold r1. apply memcpy_outside; lia.
Qed.

(** C9 (code defect).  [hash_log_event_int] never hands anything to the
    TPM driver and neither modifies nor consults [tpm_probed],
    [tpm_found] and [tpm_working]: run on a machine whose three flags
    were overwritten with arbitrary values, it returns the same status
    and output block and the same machine up to those flags.  When the
    interface is not shut down, the input block is valid and the log
    has room, it returns 0 whatever [tpm_working] says, but what it
    writes is not always the entry: [tpm_log_event] reads
    [pcpes->eventdatasize] again for the copy of the body, after the
    copy of the header, so that with the caller's entry lying over the
    place of the new one the body is copied with the length the header
    copy has left there, whatever was validated.  With the caller's
    entry apart from that place the entry is appended byte for byte,
    the tracker advances by its size and nothing else is written.
    ([m1] is the machine after [tpm_fill_hash]; the memory is the one
    the function leaves before its output block is stored.) *)
Theorem hash_log_event_int_log_only (hlei : hlei_t) (hleo : hleo_t)
    (m : machine) :
  let r := hash_log_event_int hlei hleo m in
  let p := hlei_logdataptr hlei in
  let m1 := tpm_fill_hash_at p (hlei_hashdataptr hlei)
              (hlei_hashdatalen hlei) m in
  let s := tpm_state m in
  let n := eventdatasize (load_pcpes (ram m) p) in
  let r1 := memcpy (ram m1) (log_area_next_entry s) (deref (ram m1) p)
              sizeof_pcpes in
  (hw (snd r) = hw m
   /\ tpm_probed (tpm_state (snd r)) = tpm_probed s
   /\ tpm_found (tpm_state (snd r)) = tpm_found s
   /\ tpm_working (tpm_state (snd r)) = tpm_working s)
  /\ (forall pr fo wo,
        hash_log_event_int hlei hleo (upd_state (set_flags pr fo wo) m)
        = (fst r, upd_state (set_flags pr fo wo) (snd r)))
  /\ (if_shutdown s = false ->
      hlei_valid hlei (load_pcpes (ram m) p) ->
      log_has_room m n ->
      fst (fst r) = 0
      /\ (forall a,
            ram (snd r) a
            = memcpy r1 (log_area_next_entry s + sizeof_pcpes)
                (deref r1 (u32 (p + sizeof_pcpes)))
                (eventdatasize (load_pcpes r1 p)) a)
      /\ (entry_apart p (log_area_next_entry s) n ->
          entry_count (tpm_state (snd r)) = u32 (entry_count s + 1)
          /\ hleo_eventnumber (snd (fst r)) = u32 (entry_count s + 1)
          /\ log_area_last_entry (tpm_state (snd r)) = log_area_next_entry s
          /\ log_area_next_entry (tpm_state (snd r))
             = log_area_next_entry s + sizeof_pcpes + n
          /\ (forall i,
                0 <= i < sizeof_pcpes + n ->
                ram (snd r) (log_area_next_entry s + i) = ram m1 (p + i))
          /\ (forall a,
                0 <= a < 2 ^ 32 ->
                a < log_area_next_entry s
                \/ log_area_next_entry s + sizeof_pcpes + n <= a ->
                ram (snd r) a = ram m1 a))).
Proof.
  intros r p m1 s n r1. split; [apply hash_log_event_int_frame|].
  split; [intros; apply hash_log_event_int_set_flags|].
  intros Hs Hv Hroom.
  destruct (load_pcpes_after_fill p (hlei_hashdataptr hlei)
              (hlei_hashdatalen hlei) m) as (_ & _ & Heds).
  cbv zeta in Heds. fold m1 in Heds. fold n in Heds.
  assert (Hst : tpm_state m1 = tpm_state m) by apply tpm_fill_hash_at_log.
  assert (Hroom1 : log_has_room m1 (eventdatasize (load_pcpes (ram m1) p))).
  { rewrite Heds. unfold log_has_room. rewrite Hst. exact Hroom. }
  pose proof (tpm_log_event_at_fits p (u32 (p + sizeof_pcpes)) m1 Hroom1)
    as Hfit.
  cbv zeta in Hfit. rewrite Hst, Heds in Hfit. fold s in Hfit. fold r1 in Hfit.
  pose proof (tpm_log_event_at_copy p m1) as Hcopy.
  cbv zeta in Hcopy. rewrite Hst, Heds in Hcopy. fold s in Hcopy.
  rewrite Heds in Hroom1. specialize (Hcopy Hroom1).
  subst r. rewrite (hash_log_event_int_valid hlei hleo m Hs Hv).
  cbv zeta. fold p. fold m1. fold p in Hcopy. fold m1 in Hcopy.
  rewrite Hfit in *.
  cbn [fst snd nonzero Z.eqb negb tpm_state upd_state set_log set_ram ram
       entry_count log_area_last_entry log_area_next_entry hleo_eventnumber]
    in *.
  split; [reflexivity|]. split; [reflexivity|].
  intros Hap. destruct (Hcopy Hap) as [C1 C2].
  fold s. repeat (split; [reflexivity|]).
  split; assumption.
Qed.

(** ** The event number handed back *)

Lemma same_log_refl (m : machine) : same_log m m.
Proof. repeat split. Qed.

Lemma same_log_trans (m1 m2 m3 : machine) :
  same_log m1 m2 -> same_log m2 m3 -> same_log m1 m3.
Proof.
  unfold same_log. intros (A1 & A2 & A3 & A4 & A5 & A6)
    (B1 & B2 & B3 & B4 & B5 & B6).
  repeat split; congruence.
Qed.

Lemma same_log_only_hw (m m' : machine) : only_hw m m' -> same_log m m'.
Proof.
  intros H. destruct (only_hw_state _ _ H) as [Hs Hr].
  unfold same_log. rewrite Hs, Hr. repeat split.
Qed.

Lemma same_log_probe_tpm (m : machine) : same_log m (probe_tpm m).
Proof. apply probe_tpm_frame. Qed.

Lemma same_log_tpm_set_failure (m : machine) : same_log m (tpm_set_failure m).
Proof. destruct (tpm_set_failure_spec m) as [d ->]. repeat split. Qed.

Lemma same_log_fail_after (m m1 : machine) :
  only_hw m m1 -> same_log m (tpm_set_failure m1).
Proof.
  intros H. apply (same_log_trans m m1).
  - apply same_log_only_hw. exact H.
  - apply same_log_tpm_set_failure.
Qed.

Lemma tpm_log_extend_event_success (pcpes : pcpes_t) (event : bytes_at)
    (m m' : machine) :
  TCG_GENERAL_ERROR <> 0 -> TCG_INVALID_INPUT_PARA <> 0 ->
  TCG_PC_LOGOVERFLOW <> 0 ->
  tpm_log_extend_event pcpes event m = (0, m') ->
  entry_count (tpm_state m') = u32 (entry_count (tpm_state m) + 1)
  \/ tpm_working (tpm_state m') = false /\ same_log m m'.
Proof.
  intros Hg Hi Ho. unfold tpm_log_extend_event.
  destruct (has_working_tpm m) as [w m0] eqn:Hw.
  destruct (has_working_tpm_eq _ _ _ Hw) as (Hm0 & _ & _).
  destruct w; cbn [negb]; [|intros H; inversion H; congruence].
  destruct (pcrindex pcpes >=? 24); [intros H; inversion H; congruence|].
  pose proof (transmit_only_hw 0 (tpm_req_extend_image pcpes) zeros
                sizeof_tpm_rsp_extend TPM_DURATION_TYPE_SHORT m0) as Hf.
  destruct (transmit _ _ _ _ _ m0) as [[[rc buf] len] m1]. simpl in Hf.
  destruct (_ || _).
  - intros H. inversion H. right.
    split; [apply tpm_set_failure_working|].
    apply (same_log_trans m m0); [subst m0; apply same_log_probe_tpm|].
    apply same_log_fail_after. exact Hf.
  - destruct (tpm_log_event pcpes event m1) as [rc' m2] eqn:E.
    destruct (nonzero rc') eqn:Erc.
    + intros H. inversion H. subst rc'. discriminate Erc.
    + intros H. inversion H. subst rc' m2. left.
      destruct (tpm_log_event_accepted _ _ _ _ Ho E) as (_ & _ & Hc & _).
      rewrite Hc. destruct (only_hw_state _ _ Hf) as [-> _].
      rewrite Hm0. destruct (probe_tpm_frame m) as (_ & _ & _ & _ & _ & ->).
      reflexivity.
Qed.

(** C10 (code defect).  On success, [hash_log_event_int] stores in
    [eventnumber] and [compact_hash_log_extend_event_int] stores behind
    [edx_ptr] the entry count of the tracker as the call leaves it.
    For [hash_log_event_int] this is the count after the append just
    made.  For the compact call it is not always: the pipeline also
    returns 0 when the extend response has the wrong length, where the
    TPM has been marked failed and nothing has been appended, and the
    compact call then reports success with the entry count as it was
    before the call. *)
Theorem eventnumber_is_entry_count :
  TCG_INTERFACE_SHUTDOWN <> 0 -> TCG_INVALID_INPUT_PARA <> 0 ->
  TCG_GENERAL_ERROR <> 0 -> TCG_PC_LOGOVERFLOW <> 0 ->
  (forall hlei hleo (m : machine) o' m',
     hash_log_event_int hlei hleo m = ((0, o'), m') ->
     hleo_eventnumber o' = entry_count (tpm_state m')
     /\ entry_count (tpm_state m') = u32 (entry_count (tpm_state m) + 1))
  /\ (forall buffer info len pcr edx0 (m : machine) edx' m',
        compact_hash_log_extend_event_int buffer info len pcr edx0 m
        = ((0, edx'), m') ->
        edx' = entry_count (tpm_state m')
        /\ (entry_count (tpm_state m') = u32 (entry_count (tpm_state m) + 1)
            \/ tpm_working (tpm_state m') = false /\ same_log m m'))
  /\ (forall buffer info len pcr edx0 (m m0 m1 : machine) l buf,
        let pcpes :=
          tpm_fill_hash {| pcrindex := pcr; eventtype := EV_COMPACT_HASH;
                           digest := zeros; eventdatasize := 4 |}
            (hash_src m buffer) len in
        if_shutdown (tpm_state m) = false ->
        has_working_tpm m = (true, m0) ->
        pcr < 24 ->
        transmit 0 (tpm_req_extend_image pcpes) zeros sizeof_tpm_rsp_extend
          TPM_DURATION_TYPE_SHORT m0 = ((0, buf, l), m1) ->
        l <> sizeof_tpm_rsp_extend ->
        compact_hash_log_extend_event_int buffer info len pcr edx0 m
        = ((0, entry_count (tpm_state m)), tpm_set_failure m1)
        /\ same_log m (tpm_set_failure m1)).
Proof.
  intros Hsd Hi Hg Ho. split; [|split].
  - intros hlei hleo m o' m'. unfold hash_log_event_int.
    destruct (nonzero (is_preboot_if_shutdown m));
      [intros H; inversion H; congruence|].
    destruct (negb (_ =? sizeof_hlei)); [intros H; inversion H; congruence|].
    destruct (_ || _); [intros H; inversion H; congruence|].
    destruct (tpm_log_event_at _ _ _) as [rc m2] eqn:E.
    destruct (nonzero rc) eqn:Erc; intros H; inversion H; subst.
    + apply nonzero_true in Erc. congruence.
    + split; [reflexivity|].
      destruct (tpm_log_event_at_accepted _ _ _ _ Ho E) as (_ & _ & Hc & _).
      rewrite Hc. rewrite tpm_fill_hash_at_log. reflexivity.
  - intros buffer info len pcr edx0 m edx' m'.
    unfold compact_hash_log_extend_event_int.
    destruct (nonzero (is_preboot_if_shutdown m));
      [intros H; inversion H; congruence|].
    destruct (tpm_log_extend_event _ _ m) as [rc m1] eqn:E.
    destruct (Z.eqb_spec rc 0) as [E0|E0]; intros H; inversion H; subst.
    + split; [reflexivity|].
      exact (tpm_log_extend_event_success _ _ _ _ Hg Hi Ho E).
    + congruence.
  - intros buffer info len pcr edx0 m m0 m1 l buf pcpes Hs Hw Hp Ht Hl.
    destruct (has_working_tpm_eq _ _ _ Hw) as (Hm0 & _ & _).
    pose proof (transmit_only_hw 0 (tpm_req_extend_image pcpes) zeros
                  sizeof_tpm_rsp_extend TPM_DURATION_TYPE_SHORT m0) as Hf.
    rewrite Ht in Hf. simpl in Hf.
    assert (Hsame : same_log m (tpm_set_failure m1)).
    { apply (same_log_trans m m0); [subst m0; apply same_log_probe_tpm|].
      apply same_log_fail_after. exact Hf. }
    split; [|exact Hsame].
    unfold compact_hash_log_extend_event_int.
    rewrite nonzero_is_preboot_if_shutdown, Hs. fold pcpes.
    unfold tpm_log_extend_event. rewrite Hw. cbn [negb].
    assert (Hpi : pcrindex pcpes = pcr)
      by (unfold pcpes; rewrite tpm_fill_hash_pcrindex; reflexivity).
    destruct (Z.geb_spec (pcrindex pcpes) 24) as [G|_]; [lia|].
    rewrite Ht.
    destruct (Z.eqb_spec l sizeof_tpm_rsp_extend) as [E|_]; [contradiction|].
    cbn [nonzero Z.eqb negb orb].
    destruct Hsame as (_ & _ & _ & _ & _ & ->). reflexivity.
Qed.

(** * Further properties of the code *)

(** ** Byte order *)

Lemma lor_shiftl_add (hi lo k : Z) :
  0 <= k -> 0 <= lo < 2 ^ k ->
  Z.lor (Z.shiftl hi k) lo = hi * 2 ^ k + lo.
Proof.
  intros Hk Hlo.
  rewrite <- Z.shiftl_mul_pow2 by exact Hk.
  rewrite <- Z.lxor_lor.
  - symmetry. apply Z.add_nocarry_lxor.
    apply Z.bits_inj'. intros n Hn. rewrite Z.land_spec, Z.bits_0.
    destruct (Z.lt_ge_cases n k) as [L|G].
    + rewrite Z.shiftl_spec_low by exact L. reflexivity.
    + rewrite <- (Z.mod_small lo (2 ^ k)) by exact Hlo.
      rewrite Z.mod_pow2_bits_high by lia. apply andb_false_r.
  - apply Z.bits_inj'. intros n Hn. rewrite Z.land_spec, Z.bits_0.
    destruct (Z.lt_ge_cases n k) as [L|G].
    + rewrite Z.shiftl_spec_low by exact L. reflexivity.
    + rewrite <- (Z.mod_small lo (2 ^ k)) by exact Hlo.
      rewrite Z.mod_pow2_bits_high by lia. apply andb_false_r.
Qed.

Lemma u8_range (x : Z) : 0 <= u8 x < 2 ^ 8.
Proof. unfold u8. apply Z.mod_pos_bound. lia. Qed.

(** The value read at a little-endian or big-endian word, as a sum. *)
Lemma le32_at_sum (b : bytes_at) (off : Z) :
  le32_at b off
  = u8 (b off) + 2 ^ 8 * u8 (b (off + 1)) + 2 ^ 16 * u8 (b (off + 2))
    + 2 ^ 24 * u8 (b (off + 3)).
Proof.
  unfold le32_at.
  pose proof (u8_range (b off)). pose proof (u8_range (b (off + 1))).
  pose proof (u8_range (b (off + 2))). pose proof (u8_range (b (off + 3))).
  rewrite (lor_shiftl_add (u8 (b (off + 1))) (u8 (b off)) 8) by lia.
  rewrite (lor_shiftl_add (u8 (b (off + 2))) _ 16) by lia.
  rewrite (lor_shiftl_add (u8 (b (off + 3))) _ 24) by lia.
  ring.
Qed.

Lemma be32_at_sum (b : bytes_at) (off : Z) :
  be32_at b off
  = u8 (b (off + 3)) + 2 ^ 8 * u8 (b (off + 2)) + 2 ^ 16 * u8 (b (off + 1))
    + 2 ^ 24 * u8 (b off).
Proof.
  unfold be32_at.
  pose proof (u8_range (b off)). pose proof (u8_range (b (off + 1))).
  pose proof (u8_range (b (off + 2))). pose proof (u8_range (b (off + 3))).
  rewrite (lor_shiftl_add (u8 (b (off + 2))) (u8 (b (off + 3))) 8) by lia.
  rewrite (lor_shiftl_add (u8 (b (off + 1))) _ 16) by lia.
  rewrite (lor_shiftl_add (u8 (b off)) _ 24) by lia.
  ring.
Qed.

(** A byte of an image, as a digit in base 256. *)
Lemma byte_of_shift (x k : Z) :
  0 <= k -> u8 (Z.land (Z.shiftr x k) 255) = (x / 2 ^ k) mod 2 ^ 8.
Proof.
  intros Hk. change 255 with (Z.ones 8).
  rewrite Z.land_ones by lia. rewrite Z.shiftr_div_pow2 by exact Hk.
  unfold u8. apply Z.mod_mod. lia.
Qed.

Lemma base256_digits (x : Z) :
  0 <= x < 2 ^ 32 ->
  x mod 2 ^ 8 + 2 ^ 8 * ((x / 2 ^ 8) mod 2 ^ 8)
  + 2 ^ 16 * ((x / 2 ^ 16) mod 2 ^ 8) + 2 ^ 24 * ((x / 2 ^ 24) mod 2 ^ 8) = x.
Proof.
  intros Hx.
  change (2 ^ 8) with 256. change (2 ^ 16) with 65536.
  change (2 ^ 24) with 16777216. change (2 ^ 32) with 4294967296 in Hx.
  Z.to_euclidean_division_equations. lia.
Qed.

(** Any four bytes that are the little-endian image of [x] read back as
    [x]; likewise for big-endian. *)
Lemma le32_at_image (b : bytes_at) (off x : Z) :
  0 <= x < 2 ^ 32 ->
  (forall i, 0 <= i < 4 -> b (off + i) = le32_bytes x i) ->
  le32_at b off = x.
Proof.
  intros Hx Hb. rewrite le32_at_sum.
  replace (b off) with (b (off + 0)) by (f_equal; lia).
  rewrite !Hb by lia. unfold le32_bytes.
  rewrite !byte_of_shift by lia.
  change (8 * 0) with 0. change (8 * 1) with 8. change (8 * 2) with 16.
  change (8 * 3) with 24. rewrite Z.pow_0_r, Z.div_1_r.
  apply base256_digits. exact Hx.
Qed.

Lemma be32_at_image (b : bytes_at) (off x : Z) :
  0 <= x < 2 ^ 32 ->
  (forall i, 0 <= i < 4 -> b (off + i) = be32_bytes x i) ->
  be32_at b off = x.
Proof.
  intros Hx Hb. rewrite be32_at_sum.
  replace (b off) with (b (off + 0)) by (f_equal; lia).
  rewrite !Hb by lia. unfold be32_bytes.
  rewrite !byte_of_shift by lia.
  change (8 * (3 - 0)) with 24. change (8 * (3 - 1)) with 16.
  change (8 * (3 - 2)) with 8. change (8 * (3 - 3)) with 0.
  rewrite Z.pow_0_r, Z.div_1_r.
  pose proof (base256_digits x Hx). lia.
Qed.

(** ** The event log, continued *)

(** X1.  Round trip of the log: after an append that fits, made as the
    two callers of the BIOS interface make it, with the body right
    behind the header, and with the caller's entry apart from the place
    of the new one, the entry read back from memory at the old cursor
    has the PCR index, event type, digest and body size of the caller's
    entry, followed by the same body; the caller's entry is as it
    was. *)
Theorem tpm_log_event_read_back (p : Z) (m : machine) :
  let next := log_area_next_entry (tpm_state m) in
  let q0 := load_pcpes (ram m) p in
  let n := eventdatasize q0 in
  let r := tpm_log_event_at p (u32 (p + sizeof_pcpes)) m in
  let q := load_pcpes (ram (snd r)) next in
  log_has_room m n ->
  entry_apart p next n ->
  fst r = 0
  /\ pcrindex q = pcrindex q0
  /\ eventtype q = eventtype q0
  /\ eventdatasize q = n
  /\ (forall i, 0 <= i < sizeof_digest -> digest q i = digest q0 i)
  /\ (forall i, 0 <= i < n ->
        pcpes_event (ram (snd r)) next i = pcpes_event (ram m) p i)
  /\ (forall i, 0 <= i < sizeof_pcpes + n ->
        ram (snd r) (p + i) = ram m (p + i)).
Proof.
  intros next q0 n r q Hroom Hap.
  destruct (tpm_log_event_at_copy p m Hroom Hap) as [C1 C2].
  fold next in C1, C2. fold n in C1, C2. fold r in C1, C2.
  pose proof Hroom as (R1 & R2 & R3 & R4 & R5 & R6).
  pose proof Hap as (P0 & P1 & P2).
  fold next in R1, R2, R4, R6, P2. unfold sizeof_pcpes in *.
  assert (H : forall i, 0 <= i < 32 + n ->
                deref (ram (snd r)) next i = deref (ram m) p i).
  { intros i Hi. unfold deref. rewrite !u32_small by lia. apply C1. exact Hi. }
  split.
  { subst r. rewrite (tpm_log_event_at_fits p _ m Hroom). reflexivity. }
  subst q q0. unfold load_pcpes in *.
  cbn [pcrindex eventtype eventdatasize digest] in *.
  unfold le32_at in *.
  split; [rewrite !H by lia; reflexivity|].
  split; [rewrite !H by lia; reflexivity|].
  split; [rewrite !H by lia; reflexivity|].
  split.
  { intros i Hi. unfold sizeof_digest in Hi.
    specialize (H (8 + i) ltac:(lia)). unfold deref in H |- *.
    rewrite (u32_small (next + 8)) by lia.
    rewrite (u32_small (p + 8)) by lia.
    rewrite <- !Z.add_assoc. exact H. }
  split.
  { intros i Hi. unfold pcpes_event, sizeof_pcpes.
    specialize (H (32 + i) ltac:(lia)). unfold deref in H |- *.
    rewrite (u32_small (next + 32)) by lia.
    rewrite (u32_small (p + 32)) by lia.
    rewrite <- !Z.add_assoc. exact H. }
  intros i Hi. apply C2; lia.
Qed.

(** The cursor stays in the region on every call of [tpm_log_event],
    the ones with a wrapping size included. *)
Lemma tpm_log_event_region (pcpes : pcpes_t) (event : bytes_at)
    (m : machine) :
  log_region_ok (tpm_state m) ->
  log_region_ok (tpm_state (snd (tpm_log_event pcpes event m)))
  /\ same_region (tpm_state m) (tpm_state (snd (tpm_log_event pcpes event m))).
Proof.
  intros Hok. pose proof Hok as (H1 & H2 & H3 & H4).
  unfold tpm_log_event.
  destruct (_ =? NULL); [split; [exact Hok|split; reflexivity]|].
  set (size := u32 (sizeof_pcpes + eventdatasize pcpes)).
  pose proof (u32_range (sizeof_pcpes + eventdatasize pcpes)) as Hsz.
  fold size in Hsz.
  set (s := tpm_state m) in *.
  destruct (Z.gtb_spec (u32 (log_area_next_entry s + size
                             - log_area_start_address s))
              (log_area_minimum_length s)) as [G|G];
    [split; [exact Hok|split; reflexivity]|].
  cbn [snd tpm_state upd_state set_log]. split; [|split; reflexivity].
  unfold log_region_ok.
  cbn [log_area_start_address log_area_minimum_length log_area_next_entry].
  clearbody size.
  assert (Hnext : log_area_start_address s
                  <= u32 (log_area_next_entry s + size)
                  <= log_area_start_address s + log_area_minimum_length s).
  { destruct (Z.lt_ge_cases
                (log_area_next_entry s + size - log_area_start_address s)
                (2 ^ 32)) as [L|L].
    - rewrite u32_small in G by lia.
      rewrite (u32_small (log_area_next_entry s + size)) by lia. lia.
    - rewrite u32_wrap_once in G by lia.
      rewrite (u32_wrap_once (log_area_next_entry s + size)) by lia. lia. }
  unfold set_log.
  cbn [log_area_start_address log_area_minimum_length log_area_next_entry].
  repeat split; lia.
Qed.

Lemma region_kept_refl (m : machine) : region_kept m m.
Proof. split; [split; reflexivity|auto]. Qed.

Lemma region_kept_trans (m1 m2 m3 : machine) :
  region_kept m1 m2 -> region_kept m2 m3 -> region_kept m1 m3.
Proof.
  intros [[A1 A2] A3] [[B1 B2] B3]. split; [split; congruence|auto].
Qed.

Lemma region_kept_fields (m m' : machine) :
  log_area_start_address (tpm_state m') = log_area_start_address (tpm_state m) ->
  log_area_minimum_length (tpm_state m')
  = log_area_minimum_length (tpm_state m) ->
  log_area_next_entry (tpm_state m') = log_area_next_entry (tpm_state m) ->
  region_kept m m'.
Proof.
  intros H1 H2 H3. split; [split; assumption|].
  unfold log_region_ok. rewrite H1, H2, H3. auto.
Qed.

Lemma region_kept_state (m m' : machine) :
  tpm_state m' = tpm_state m -> region_kept m m'.
Proof. intros H. apply region_kept_fields; rewrite H; reflexivity. Qed.

Lemma region_kept_only_hw (m m' : machine) : only_hw m m' -> region_kept m m'.
Proof.
  intros H. apply region_kept_state. apply (only_hw_state _ _ H).
Qed.

Lemma region_kept_probe_tpm (m : machine) : region_kept m (probe_tpm m).
Proof.
  destruct (probe_tpm_frame m) as (_ & H1 & H2 & H3 & _).
  apply region_kept_fields; assumption.
Qed.

Lemma region_kept_tpm_set_failure (m : machine) :
  region_kept m (tpm_set_failure m).
Proof.
  destruct (tpm_set_failure_spec m) as [d ->].
  apply region_kept_fields; reflexivity.
Qed.

Lemma region_kept_tpm_fill_hash_at (p h n : Z) (m : machine) :
  region_kept m (tpm_fill_hash_at p h n m).
Proof. apply region_kept_state. apply tpm_fill_hash_at_log. Qed.

Lemma region_kept_tpm_log_event (pcpes : pcpes_t) (event : bytes_at)
    (m : machine) :
  region_kept m (snd (tpm_log_event pcpes event m)).
Proof.
  split.
  - unfold tpm_log_event. destruct (_ =? NULL); [split; reflexivity|].
    destruct (_ >? _); split; reflexivity.
  - intros H. apply (tpm_log_event_region pcpes event m H).
Qed.

Lemma region_kept_tpm_log_extend_event (pcpes : pcpes_t) (event : bytes_at)
    (m : machine) :
  region_kept m (snd (tpm_log_extend_event pcpes event m)).
Proof.
  unfold tpm_log_extend_event, has_working_tpm.
  pose proof (region_kept_probe_tpm m) as H0.
  destruct (negb _); [exact H0|].
  destruct (_ >=? 24); [exact H0|].
  pose proof (transmit_only_hw 0 (tpm_req_extend_image pcpes) zeros
                sizeof_tpm_rsp_extend TPM_DURATION_TYPE_SHORT (probe_tpm m))
    as H1.
  destruct (transmit _ _ _ _ _ _) as [[[rc buf] len] m1].
  cbn [snd] in H1. apply region_kept_only_hw in H1.
  pose proof (region_kept_trans _ _ _ H0 H1) as H01.
  destruct (_ || _).
  - cbn [snd]. eapply region_kept_trans; [exact H01|].
    apply region_kept_tpm_set_failure.
  - pose proof (region_kept_tpm_log_event pcpes event m1) as H2.
    destruct (tpm_log_event pcpes event m1) as [rc' m2]. cbn [snd] in H2.
    pose proof (region_kept_trans _ _ _ H01 H2) as H012.
    destruct (nonzero rc'); cbn [snd]; [|exact H012].
    eapply region_kept_trans; [exact H012|].
    apply region_kept_tpm_set_failure.
Qed.

(** With sizes that do not wrap, an append writes within the log
    region only. *)
Lemma tpm_log_event_in_region (pcpes : pcpes_t) (event : bytes_at)
    (m : machine) :
  let s := tpm_state m in
  log_region_ok s ->
  0 <= eventdatasize pcpes ->
  log_area_next_entry s + sizeof_pcpes + eventdatasize pcpes < 2 ^ 32 ->
  forall a,
    0 <= a < 2 ^ 32 ->
    a < log_area_start_address s
    \/ log_area_start_address s + log_area_minimum_length s <= a ->
    ram (snd (tpm_log_event pcpes event m)) a = ram m a.
Proof.
  intros s (H1 & H2 & H3 & H4) He Hw a Ha Ho.
  unfold tpm_log_event. fold s. unfold sizeof_pcpes in *.
  destruct (_ =? NULL); [reflexivity|].
  rewrite (u32_small (32 + eventdatasize pcpes)) by lia.
  rewrite (u32_small (log_area_next_entry s + (32 + eventdatasize pcpes)
                      - log_area_start_address s)) by lia.
  destruct (Z.gtb_spec
              (log_area_next_entry s + (32 + eventdatasize pcpes)
               - log_area_start_address s)
              (log_area_minimum_length s)) as [G|G]; [reflexivity|].
  cbn [snd upd_state set_ram ram].
  rewrite (u32_small (log_area_next_entry s + 32)) by lia.
  rewrite memcpy_outside by lia.
  apply memcpy_outside; lia.
Qed.

Lemma tpm_log_extend_event_in_region (pcpes : pcpes_t) (event : bytes_at)
    (m : machine) :
  let s := tpm_state m in
  log_region_ok s ->
  0 <= eventdatasize pcpes ->
  log_area_next_entry s + sizeof_pcpes + eventdatasize pcpes < 2 ^ 32 ->
  forall a,
    0 <= a < 2 ^ 32 ->
    a < log_area_start_address s
    \/ log_area_start_address s + log_area_minimum_length s <= a ->
    ram (snd (tpm_log_extend_event pcpes event m)) a = ram m a.
Proof.
  intros s Hok He Hw a Ha Ho.
  unfold tpm_log_extend_event, has_working_tpm.
  pose proof (same_log_probe_tpm m) as H0.
  destruct (negb _); [cbn [snd]; destruct H0 as [-> _]; reflexivity|].
  destruct (_ >=? 24); [cbn [snd]; destruct H0 as [-> _]; reflexivity|].
  pose proof (transmit_only_hw 0 (tpm_req_extend_image pcpes) zeros
                sizeof_tpm_rsp_extend TPM_DURATION_TYPE_SHORT (probe_tpm m))
    as H1.
  destruct (transmit _ _ _ _ _ _) as [[[rc buf] len] m1].
  cbn [snd] in H1. apply same_log_only_hw in H1.
  pose proof (same_log_trans _ _ _ H0 H1) as H01.
  destruct (_ || _).
  - cbn [snd].
    destruct (same_log_trans _ _ _ H01 (same_log_tpm_set_failure m1))
      as [-> _].
    reflexivity.
  - destruct H01 as (R & S1 & S2 & S3 & _).
    pose proof (tpm_log_event_in_region pcpes event m1) as H2.
    cbv zeta in H2. rewrite S1, S2, S3 in H2.
    assert (Hok1 : log_region_ok (tpm_state m1)).
    { unfold log_region_ok. rewrite S1, S2, S3. exact Hok. }
    specialize (H2 Hok1 He Hw a Ha Ho). rewrite R in H2.
    destruct (tpm_log_event pcpes event m1) as [rc' m2]. cbn [snd] in H2.
    destruct (nonzero rc'); cbn [snd]; [|exact H2].
    destruct (same_log_tpm_set_failure m2) as [-> _]. exact H2.
Qed.

(** X2.  The log region is an invariant of the appends whose sizes do
    not wrap: with the region in the address space, the cursor within
    it and [cursor + sizeof_pcpes + eventdatasize] below 2^32,
    [tpm_log_event] and the extend-and-log pipeline leave the start
    address and the length of the region as they were, keep the cursor
    between the start and the end of the region, and write no byte
    outside the region. *)
Theorem log_region_invariant (pcpes : pcpes_t) (event : bytes_at)
    (m : machine) :
  let s := tpm_state m in
  log_region_ok s ->
  0 <= eventdatasize pcpes ->
  log_area_next_entry s + sizeof_pcpes + eventdatasize pcpes < 2 ^ 32 ->
  (let m' := snd (tpm_log_event pcpes event m) in
   log_region_ok (tpm_state m') /\ same_region s (tpm_state m')
   /\ forall a,
        0 <= a < 2 ^ 32 ->
        a < log_area_start_address s
        \/ log_area_start_address s + log_area_minimum_length s <= a ->
        ram m' a = ram m a)
  /\ (let m' := snd (tpm_log_extend_event pcpes event m) in
      log_region_ok (tpm_state m') /\ same_region s (tpm_state m')
      /\ forall a,
           0 <= a < 2 ^ 32 ->
           a < log_area_start_address s
           \/ log_area_start_address s + log_area_minimum_length s <= a ->
           ram m' a = ram m a).
Proof.
  intros s Hok He Hw. split.
  - destruct (region_kept_tpm_log_event pcpes event m) as [H1 H2].
    split; [apply H2; exact Hok|]. split; [exact H1|].
    apply tpm_log_event_in_region; assumption.
  - destruct (region_kept_tpm_log_extend_event pcpes event m) as [H1 H2].
    split; [apply H2; exact Hok|]. split; [exact H1|].
    apply tpm_log_extend_event_in_region; assumption.
Qed.

(** ** The measurement pipeline, continued *)

(** X3.  After an extend command that the TPM accepted with a response
    of the expected length, the status of the pipeline is the status of
    the append.  If the append succeeds the TPM stays working; if it is
    rejected the TPM is marked failed although the extend has been sent,
    and the log is left as it was. *)
Theorem tpm_log_extend_event_after_extend (pcpes : pcpes_t)
    (event : bytes_at) (m m0 m1 : machine) (buf : bytes_at) :
  has_working_tpm m = (true, m0) ->
  pcrindex pcpes < 24 ->
  transmit 0 (tpm_req_extend_image pcpes) zeros sizeof_tpm_rsp_extend
    TPM_DURATION_TYPE_SHORT m0 = ((0, buf, sizeof_tpm_rsp_extend), m1) ->
  let r := tpm_log_event pcpes event m1 in
  (fst r = 0 ->
   tpm_log_extend_event pcpes event m = (0, snd r)
   /\ tpm_working (tpm_state (snd r)) = true)
  /\ (fst r <> 0 ->
      tpm_log_extend_event pcpes event m = (fst r, tpm_set_failure m1)
      /\ tpm_working (tpm_state (tpm_set_failure m1)) = false
      /\ same_log m (tpm_set_failure m1)).
Proof.
  intros Hw Hp Ht r.
  destruct (has_working_tpm_eq _ _ _ Hw) as (Hm0 & _ & Hwork).
  pose proof (transmit_only_hw 0 (tpm_req_extend_image pcpes) zeros
                sizeof_tpm_rsp_extend TPM_DURATION_TYPE_SHORT m0) as Hf.
  rewrite Ht in Hf. cbn [snd] in Hf.
  assert (Hunf : tpm_log_extend_event pcpes event m
                 = if nonzero (fst r) then (fst r, tpm_set_failure (snd r))
                   else (fst r, snd r)).
  { unfold tpm_log_extend_event. rewrite Hw. cbn [negb].
    destruct (Z.geb_spec (pcrindex pcpes) 24) as [G|_]; [lia|].
    rewrite Ht. rewrite Z.eqb_refl. cbn [nonzero Z.eqb negb orb].
    subst r. destruct (tpm_log_event pcpes event m1) as [rc' m2].
    reflexivity. }
  split.
  - intros E. rewrite Hunf, E. cbn [nonzero Z.eqb negb].
    split; [reflexivity|].
    destruct (tpm_log_event_flags pcpes event m1) as (_ & _ & H3 & _).
    fold r in H3. rewrite H3.
    destruct (only_hw_state _ _ Hf) as [-> _]. exact Hwork.
  - intros E. rewrite Hunf. apply nonzero_true in E. rewrite E.
    assert (Em : snd r = m1).
    { apply (tpm_log_event_rejected pcpes event m1 (snd r) (fst r)).
      - subst r. destruct (tpm_log_event pcpes event m1); reflexivity.
      - apply nonzero_true. exact E. }
    rewrite Em. split; [reflexivity|].
    split; [apply tpm_set_failure_working|].
    eapply same_log_trans; [|apply same_log_tpm_set_failure].
    eapply same_log_trans; [|apply same_log_only_hw; exact Hf].
    rewrite Hm0. apply same_log_probe_tpm.
Qed.

Lemma tpm_log_extend_event_probed (pcpes : pcpes_t) (event : bytes_at)
    (m : machine) :
  tpm_probed (tpm_state (snd (tpm_log_extend_event pcpes event m))) = true.
Proof.
  unfold tpm_log_extend_event, has_working_tpm.
  pose proof (probe_tpm_probed m) as H0.
  destruct (negb _); [exact H0|].
  destruct (_ >=? 24); [exact H0|].
  pose proof (transmit_only_hw 0 (tpm_req_extend_image pcpes) zeros
                sizeof_tpm_rsp_extend TPM_DURATION_TYPE_SHORT (probe_tpm m))
    as H1.
  destruct (transmit _ _ _ _ _ _) as [[[rc buf] len] m1].
  cbn [snd] in H1. destruct (only_hw_state _ _ H1) as [Hs _].
  destruct (_ || _).
  - cbn [snd]. rewrite tpm_set_failure_probed, Hs. exact H0.
  - destruct (tpm_log_event_flags pcpes event m1) as (H2 & _).
    destruct (tpm_log_event pcpes event m1) as [rc' m2]. cbn [snd] in H2.
    destruct (nonzero rc'); cbn [snd].
    + rewrite tpm_set_failure_probed, H2, Hs. exact H0.
    + rewrite H2, Hs. exact H0.
Qed.

(** A non-zero status of the pipeline for a PCR index below 24 means
    that the TPM is not working afterwards. *)
Lemma tpm_log_extend_event_error (pcpes : pcpes_t) (event : bytes_at)
    (m : machine) :
  pcrindex pcpes < 24 ->
  fst (tpm_log_extend_event pcpes event m) <> 0 ->
  tpm_working (tpm_state (snd (tpm_log_extend_event pcpes event m))) = false.
Proof.
  intros Hp. unfold tpm_log_extend_event, has_working_tpm.
  destruct (tpm_working (tpm_state (probe_tpm m))) eqn:Hw; cbn [negb];
    [|intros _; exact Hw].
  destruct (Z.geb_spec (pcrindex pcpes) 24) as [G|_]; [lia|].
  destruct (transmit _ _ _ _ _ _) as [[[rc buf] len] m1].
  destruct (_ || _).
  - intros _. apply tpm_set_failure_working.
  - destruct (tpm_log_event pcpes event m1) as [rc' m2].
    destruct (nonzero rc') eqn:E; cbn [fst snd].
    + intros _. apply tpm_set_failure_working.
    + apply nonzero_false in E. intros H. contradiction.
Qed.

(** One measurement that returned 0: the tracker is probed; if the TPM
    is working afterwards, one entry was counted, and the TPM was working
    before if it had been probed. *)
Lemma tpm_add_measurement_to_log_ok pcr ty ev n h hn (m m' : machine) :
  TCG_GENERAL_ERROR <> 0 -> TCG_INVALID_INPUT_PARA <> 0 ->
  TCG_PC_LOGOVERFLOW <> 0 ->
  tpm_add_measurement_to_log pcr ty ev n h hn m = (0, m') ->
  tpm_probed (tpm_state m') = true
  /\ (tpm_working (tpm_state m') = true ->
      entry_count (tpm_state m') = u32 (entry_count (tpm_state m) + 1)
      /\ (tpm_probed (tpm_state m) = true ->
          tpm_working (tpm_state m) = true)).
Proof.
  intros Hg Hi Ho H. unfold tpm_add_measurement_to_log in H.
  split.
  - pose proof (tpm_log_extend_event_probed
                  (tpm_fill_hash
                     {| pcrindex := pcr; eventtype := ty; digest := zeros;
                        eventdatasize := n |} h hn) ev m) as Hp.
    rewrite H in Hp. exact Hp.
  - intros Hw. split.
    + destruct (tpm_log_extend_event_success _ _ _ _ Hg Hi Ho H) as [G|[G _]];
        [exact G|congruence].
    + intros Hp. destruct (tpm_working (tpm_state m)) eqn:E; [reflexivity|].
      rewrite failed_tpm_log_extend_event in H by (split; assumption).
      inversion H. congruence.
Qed.

(** ** The boot-time measurements *)

Lemma tpm_add_measurement_to_log_error pcr ty ev n h hn (m : machine) :
  pcr < 24 ->
  fst (tpm_add_measurement_to_log pcr ty ev n h hn m) <> 0 ->
  tpm_working
    (tpm_state (snd (tpm_add_measurement_to_log pcr ty ev n h hn m))) = false.
Proof.
  intros Hp. unfold tpm_add_measurement_to_log.
  apply tpm_log_extend_event_error. rewrite tpm_fill_hash_pcrindex. exact Hp.
Qed.

Lemma tpm_add_event_separators_from_error (n : nat) (pcr rc0 : Z)
    (m : machine) :
  pcr + Z.of_nat n <= 24 -> (0 < n)%nat ->
  fst (tpm_add_event_separators_from n pcr rc0 m) <> 0 ->
  tpm_working
    (tpm_state (snd (tpm_add_event_separators_from n pcr rc0 m))) = false.
Proof.
  revert pcr rc0 m. induction n as [|n IH]; intros pcr rc0 m Hp Hn; [lia|].
  cbn [tpm_add_event_separators_from].
  pose proof (tpm_add_measurement_to_log_error pcr EV_SEPARATOR zeros 0
                (Some (str_bytes evt_separator)) 4 m ltac:(lia)) as Hstep.
  destruct (tpm_add_measurement_to_log _ _ _ _ _ _ m) as [rc' m'].
  cbn [fst snd] in Hstep.
  destruct (nonzero rc') eqn:E.
  - cbn [fst snd]. intros H. apply Hstep. exact H.
  - destruct n as [|n'].
    + cbn [tpm_add_event_separators_from fst snd]. intros H.
      apply Hstep. exact H.
    + apply IH; lia.
Qed.

(** X4.  An error of a boot-time measurement degrades the session: when
    [tpm_add_measurement_to_log] (for a PCR index below 24),
    [tpm_add_action], [tpm_add_event_separators], [tpm_add_bcv],
    [tpm_add_cdrom] or [tpm_add_cdrom_catalog] returns a non-zero
    status, the TPM is not working afterwards. *)
Theorem measurement_error_degrades (m : machine) :
  (forall pcr ty ev n h hn, pcr < 24 ->
     let r := tpm_add_measurement_to_log pcr ty ev n h hn m in
     fst r <> 0 -> tpm_working (tpm_state (snd r)) = false)
  /\ (forall pcr s, pcr < 24 ->
        let r := tpm_add_action pcr s m in
        fst r <> 0 -> tpm_working (tpm_state (snd r)) = false)
  /\ (let r := tpm_add_event_separators m in
      fst r <> 0 -> tpm_working (tpm_state (snd r)) = false)
  /\ (forall drv addr len,
        let r := tpm_add_bcv drv addr len m in
        fst r <> 0 -> tpm_working (tpm_state (snd r)) = false)
  /\ (forall drv addr len,
        let r := tpm_add_cdrom drv addr len m in
        fst r <> 0 -> tpm_working (tpm_state (snd r)) = false)
  /\ (forall addr len,
        let r := tpm_add_cdrom_catalog addr len m in
        fst r <> 0 -> tpm_working (tpm_state (snd r)) = false).
Proof.
  repeat apply conj.
  - intros pcr ty ev n h hn Hp r. apply tpm_add_measurement_to_log_error.
    exact Hp.
  - intros pcr s Hp r. apply tpm_add_measurement_to_log_error. exact Hp.
  - unfold tpm_add_event_separators, has_working_tpm.
    destruct (negb CONFIG_TCGBIOS); [cbn; congruence|].
    destruct (tpm_working (tpm_state (probe_tpm m))) eqn:Hw; cbn [negb];
      [|intros _; exact Hw].
    apply tpm_add_event_separators_from_error; lia.
  - intros drv addr len. unfold tpm_add_bcv, has_working_tpm.
    destruct (negb CONFIG_TCGBIOS); [cbn; congruence|].
    destruct (tpm_working (tpm_state (probe_tpm m))) eqn:Hw; cbn [negb];
      [|intros _; exact Hw].
    set (s := if drv =? 128 then _ else _).
    pose proof (tpm_add_measurement_to_log_error 4 EV_ACTION (str_bytes s)
                  (strlen s) (Some (str_bytes s)) (strlen s) (probe_tpm m)
                  ltac:(lia)) as H1.
    unfold tpm_add_action.
    destruct (tpm_add_measurement_to_log 4 EV_ACTION _ _ _ _ _) as [rc m1].
    cbn [fst snd] in H1.
    destruct (nonzero rc) eqn:E1; [exact H1|].
    pose proof (tpm_add_measurement_to_log_error 4 EV_IPL
                  (str_bytes (cstr "MBR")) (strlen (cstr "MBR"))
                  (hash_src m1 addr) 440 m1 ltac:(lia)) as H2.
    destruct (tpm_add_measurement_to_log 4 EV_IPL _ _ _ _ _) as [rc' m2].
    cbn [fst snd] in H2.
    destruct (nonzero rc') eqn:E2; [exact H2|].
    apply tpm_add_measurement_to_log_error. lia.
  - intros drv addr len. unfold tpm_add_cdrom, has_working_tpm.
    destruct (negb CONFIG_TCGBIOS); [cbn; congruence|].
    destruct (tpm_working (tpm_state (probe_tpm m))) eqn:Hw; cbn [negb];
      [|intros _; exact Hw].
    pose proof (tpm_add_measurement_to_log_error 4 EV_ACTION
                  (str_bytes (cstr "Booting from CD ROM device"))
                  (strlen (cstr "Booting from CD ROM device"))
                  (Some (str_bytes (cstr "Booting from CD ROM device")))
                  (strlen (cstr "Booting from CD ROM device")) (probe_tpm m)
                  ltac:(lia)) as H1.
    unfold tpm_add_action.
    destruct (tpm_add_measurement_to_log 4 EV_ACTION _ _ _ _ _) as [rc m1].
    cbn [fst snd] in H1.
    destruct (nonzero rc) eqn:E1; [exact H1|].
    apply tpm_add_measurement_to_log_error. lia.
  - intros addr len. unfold tpm_add_cdrom_catalog, has_working_tpm.
    destruct (negb CONFIG_TCGBIOS); [cbn; congruence|].
    destruct (tpm_working (tpm_state (probe_tpm m))) eqn:Hw; cbn [negb];
      [|intros _; exact Hw].
    pose proof (tpm_add_measurement_to_log_error 4 EV_ACTION
                  (str_bytes (cstr "Booting from CD ROM device"))
                  (strlen (cstr "Booting from CD ROM device"))
                  (Some (str_bytes (cstr "Booting from CD ROM device")))
                  (strlen (cstr "Booting from CD ROM device")) (probe_tpm m)
                  ltac:(lia)) as H1.
    unfold tpm_add_action.
    destruct (tpm_add_measurement_to_log 4 EV_ACTION _ _ _ _ _) as [rc m1].
    cbn [fst snd] in H1.
    destruct (nonzero rc) eqn:E1; [exact H1|].
    apply tpm_add_measurement_to_log_error. lia.
Qed.

Lemma u32_add_l (a b : Z) : u32 (u32 a + b) = u32 (a + b).
Proof. unfold u32. apply Zplus_mod_idemp_l. Qed.

Lemma tpm_add_event_separators_from_ok (n : nat) :
  TCG_GENERAL_ERROR <> 0 -> TCG_INVALID_INPUT_PARA <> 0 ->
  TCG_PC_LOGOVERFLOW <> 0 ->
  forall (pcr rc0 : Z) (m m' : machine),
    tpm_add_event_separators_from (S n) pcr rc0 m = (0, m') ->
    tpm_working (tpm_state m') = true ->
    tpm_probed (tpm_state m) = true ->
    tpm_working (tpm_state m) = true
    /\ entry_count (tpm_state m')
       = u32 (entry_count (tpm_state m) + Z.of_nat (S n)).
Proof.
  intros Hg Hi Ho. induction n as [|n IH]; intros pcr rc0 m m' H Hw Hp.
  - cbn [tpm_add_event_separators_from] in H.
    destruct (tpm_add_measurement_to_log _ _ _ _ _ _ m) as [rc' m1] eqn:E.
    destruct (nonzero rc') eqn:Erc; inversion H; subst.
    + apply nonzero_true in Erc. congruence.
    + destruct (tpm_add_measurement_to_log_ok _ _ _ _ _ _ _ _ Hg Hi Ho E)
        as (_ & G).
      destruct (G Hw) as [Hc Hb]. split; [apply Hb; exact Hp|exact Hc].
  - remember (S n) as k. cbn [tpm_add_event_separators_from] in H.
    destruct (tpm_add_measurement_to_log _ _ _ _ _ _ m) as [rc' m1] eqn:E.
    destruct (nonzero rc') eqn:Erc.
    + inversion H; subst. apply nonzero_true in Erc. congruence.
    + apply nonzero_false in Erc. subst rc' k.
      destruct (tpm_add_measurement_to_log_ok _ _ _ _ _ _ _ _ Hg Hi Ho E)
        as (Hp1 & G).
      destruct (IH _ _ _ _ H Hw Hp1) as [Hw1 Hc].
      destruct (G Hw1) as [Hc1 Hb]. split; [apply Hb; exact Hp|].
      rewrite Hc, Hc1, u32_add_l. f_equal. lia.
Qed.

(** X5.  A boot-time measurement that returns 0 and leaves the TPM
    working has appended exactly its entries: one for [tpm_add_action],
    eight for [tpm_add_event_separators] (PCRs 0 to 7), three for
    [tpm_add_bcv] (the action, the MBR and the partition table) and two
    for [tpm_add_cdrom] and [tpm_add_cdrom_catalog]. *)
Theorem boot_measurements_counted (m m' : machine) :
  CONFIG_TCGBIOS = true ->
  TCG_GENERAL_ERROR <> 0 -> TCG_INVALID_INPUT_PARA <> 0 ->
  TCG_PC_LOGOVERFLOW <> 0 ->
  tpm_working (tpm_state m') = true ->
  let count k := entry_count (tpm_state m')
                 = u32 (entry_count (tpm_state m) + k) in
  (forall pcr s, tpm_add_action pcr s m = (0, m') -> count 1)
  /\ (tpm_add_event_separators m = (0, m') -> count 8)
  /\ (forall drv addr len, tpm_add_bcv drv addr len m = (0, m') -> count 3)
  /\ (forall drv addr len, tpm_add_cdrom drv addr len m = (0, m') -> count 2)
  /\ (forall addr len, tpm_add_cdrom_catalog addr len m = (0, m') -> count 2).
Proof.
  intros Hcfg Hg Hi Ho Hw count. subst count. cbv beta.
  assert (Hcnt0 : entry_count (tpm_state (probe_tpm m))
                  = entry_count (tpm_state m))
    by apply probe_tpm_frame.
  pose proof (probe_tpm_probed m) as Hp0.
  repeat apply conj.
  - intros pcr s H. unfold tpm_add_action in H.
    destruct (tpm_add_measurement_to_log_ok _ _ _ _ _ _ _ _ Hg Hi Ho H)
      as (_ & G).
    apply G. exact Hw.
  - unfold tpm_add_event_separators, has_working_tpm. rewrite Hcfg.
    cbn [negb]. destruct (negb _).
    + intros H. inversion H. congruence.
    + intros H.
      destruct (tpm_add_event_separators_from_ok 7 Hg Hi Ho _ _ _ _ H Hw Hp0)
        as [_ Hc].
      rewrite Hc, Hcnt0. reflexivity.
  - intros drv addr len. unfold tpm_add_bcv, has_working_tpm. rewrite Hcfg.
    cbn [negb]. destruct (negb _); [intros H; inversion H; congruence|].
    unfold tpm_add_action.
    destruct (tpm_add_measurement_to_log 4 EV_ACTION _ _ _ _ _)
      as [rc1 m1] eqn:E1.
    destruct (nonzero rc1) eqn:N1;
      [intros H; inversion H; subst; apply nonzero_true in N1; congruence|].
    apply nonzero_false in N1. subst rc1.
    destruct (tpm_add_measurement_to_log 4 EV_IPL _ _ _ _ _)
      as [rc2 m2] eqn:E2.
    destruct (nonzero rc2) eqn:N2;
      [intros H; inversion H; subst; apply nonzero_true in N2; congruence|].
    apply nonzero_false in N2. subst rc2. intros E3.
    destruct (tpm_add_measurement_to_log_ok _ _ _ _ _ _ _ _ Hg Hi Ho E1)
      as (P1 & G1).
    destruct (tpm_add_measurement_to_log_ok _ _ _ _ _ _ _ _ Hg Hi Ho E2)
      as (P2 & G2).
    destruct (tpm_add_measurement_to_log_ok _ _ _ _ _ _ _ _ Hg Hi Ho E3)
      as (_ & G3).
    destruct (G3 Hw) as [C3 B3]. destruct (G2 (B3 P2)) as [C2 B2].
    destruct (G1 (B2 P1)) as [C1 _].
    rewrite C3, C2, C1, Hcnt0.
    rewrite u32_add_l, <- Z.add_assoc, u32_add_l. f_equal. lia.
  - intros drv addr len. unfold tpm_add_cdrom, has_working_tpm. rewrite Hcfg.
    cbn [negb]. destruct (negb _); [intros H; inversion H; congruence|].
    unfold tpm_add_action.
    destruct (tpm_add_measurement_to_log 4 EV_ACTION _ _ _ _ _)
      as [rc1 m1] eqn:E1.
    destruct (nonzero rc1) eqn:N1;
      [intros H; inversion H; subst; apply nonzero_true in N1; congruence|].
    apply nonzero_false in N1. subst rc1. intros E2.
    destruct (tpm_add_measurement_to_log_ok _ _ _ _ _ _ _ _ Hg Hi Ho E1)
      as (P1 & G1).
    destruct (tpm_add_measurement_to_log_ok _ _ _ _ _ _ _ _ Hg Hi Ho E2)
      as (_ & G2).
    destruct (G2 Hw) as [C2 B2]. destruct (G1 (B2 P1)) as [C1 _].
    rewrite C2, C1, Hcnt0, !u32_add_l. f_equal. lia.
  - intros addr len. unfold tpm_add_cdrom_catalog, has_working_tpm.
    rewrite Hcfg.
    cbn [negb]. destruct (negb _); [intros H; inversion H; congruence|].
    unfold tpm_add_action.
    destruct (tpm_add_measurement_to_log 4 EV_ACTION _ _ _ _ _)
      as [rc1 m1] eqn:E1.
    destruct (nonzero rc1) eqn:N1;
      [intros H; inversion H; subst; apply nonzero_true in N1; congruence|].
    apply nonzero_false in N1. subst rc1. intros E2.
    destruct (tpm_add_measurement_to_log_ok _ _ _ _ _ _ _ _ Hg Hi Ho E1)
      as (P1 & G1).
    destruct (tpm_add_measurement_to_log_ok _ _ _ _ _ _ _ _ Hg Hi Ho E2)
      as (_ & G2).
    destruct (G2 Hw) as [C2 B2]. destruct (G1 (B2 P1)) as [C1 _].
    rewrite C2, C1, Hcnt0, !u32_add_l. f_equal. lia.
Qed.

(** ** The TPM flags *)









(** The locator and the reset of the log leave the three flags alone. *)
Lemma reset_acpi_log_flags (fuel : nat) (m m' : machine) :
  reset_acpi_log fuel m = Some m' ->
  tpm_probed (tpm_state m') = tpm_probed (tpm_state m)
  /\ tpm_found (tpm_state m') = tpm_found (tpm_state m)
  /\ tpm_working (tpm_state m') = tpm_working (tpm_state m).
Proof.
  unfold reset_acpi_log, get_lasa_base_ptr, find_tcpa_table.
  destruct (nonzero (tcpa (tpm_state m))).
  - destruct (nonzero (tcpa (tpm_state m))); intros H; inversion H;
      repeat split.
  - destruct (nonzero (RsdpAddr m)).
    + unfold find_tcpa_by_rsdp. destruct (_ =? NULL).
      * cbn. intros H. inversion H. repeat split.
      * destruct (find_tcpa_loop _ _ _ _ _ _) as [t|]; [|discriminate].
        destruct (nonzero t); cbn; intros H; inversion H; repeat split.
    + cbn. intros H. inversion H. repeat split.
Qed.


(** ** The command transport *)

(** X7.  [transmit] has two statuses, 0 and [TCG_FATAL_COM_ERROR]; it
    changes nothing but the driver world; and when no driver is
    selected it fails without calling the driver at all, leaving the
    response buffer and its length as they were. *)
Theorem transmit_contract locty req buf len to_t (m : machine) :
  let r := transmit locty req buf len to_t m in
  (fst (fst (fst r)) = 0 \/ fst (fst (fst r)) = TCG_FATAL_COM_ERROR)
  /\ only_hw m (snd r)
  /\ (tpm_driver_to_use (tpm_state m) = TPM_INVALID_DRIVER ->
      r = ((TCG_FATAL_COM_ERROR, buf, len), m)).
Proof.
  intros r. split; [apply transmit_status|].
  split; [apply transmit_only_hw|].
  intros H. subst r. unfold transmit. rewrite H, Z.eqb_refl. reflexivity.
Qed.

Lemma build_and_send_cmd_unfold locty ord app n rb rs to_t (m : machine) :
  n <= sizeof_req_cmd -> rs <= sizeof_obuffer ->
  let req :=
    img_cat sizeof_tpm_req_header
      (tpm_req_header_image TPM_TAG_RQU_CMD
         (u32 (sizeof_tpm_req_header + n)) ord)
      (if nonzero n then fun i => if i <? n then app i else 0 else zeros) in
  let t := transmit locty req zeros sizeof_obuffer to_t m in
  build_and_send_cmd locty ord app n rb rs to_t m
  = if nonzero (fst (fst (fst t))) then ((fst (fst (fst t)), None, None), snd t)
    else ((0, Some (be32_at (snd (fst (fst t))) offsetof_errcode),
           if rb
           then Some (fun i => if i <? rs then snd (fst (fst t)) i else 0)
           else None), snd t).
Proof.
  intros Hn Hrs req t. unfold build_and_send_cmd.
  destruct (Z.gtb_spec rs sizeof_obuffer) as [G|_]; [lia|].
  destruct (Z.gtb_spec n sizeof_req_cmd) as [G|_]; [lia|].
  cbn [orb]. fold req. fold t. destruct t as [[[rc ob] l] m1]. reflexivity.
Qed.

(** X8.  [build_and_send_cmd] rejects a payload of more than 20 bytes
    or an expected response of more than 64 bytes with
    [TCG_FIRMWARE_ERROR] before anything reaches the transport.  Its
    status is 0, [TCG_FIRMWARE_ERROR] or [TCG_FATAL_COM_ERROR]; within
    the bounds the device's return code is stored exactly when the
    status is 0; and it changes nothing but the driver world. *)
Theorem build_and_send_cmd_contract locty ord app n rb rs to_t (m : machine) :
  let r := build_and_send_cmd locty ord app n rb rs to_t m in
  let rc := fst (fst (fst r)) in
  (sizeof_obuffer < rs \/ sizeof_req_cmd < n ->
   r = ((TCG_FIRMWARE_ERROR, None, None), m))
  /\ (rc = 0 \/ rc = TCG_FIRMWARE_ERROR \/ rc = TCG_FATAL_COM_ERROR)
  /\ (n <= sizeof_req_cmd -> rs <= sizeof_obuffer ->
      (rc = 0 <-> snd (fst (fst r)) <> None))
  /\ only_hw m (snd r).
Proof.
  intros r rc. split; [|split; [|split]].
  - intros H. subst r. unfold build_and_send_cmd.
    destruct (Z.gtb_spec rs sizeof_obuffer) as [_|G1]; [reflexivity|].
    destruct (Z.gtb_spec n sizeof_req_cmd) as [_|G2]; [reflexivity|]. lia.
  - subst rc r. unfold build_and_send_cmd.
    destruct (_ || _); [cbn; auto|].
    match goal with
    | |- context [transmit ?a ?b ?c ?d ?e ?f] =>
        pose proof (transmit_status a b c d e f) as Hs;
        destruct (transmit a b c d e f) as [[[rc0 ob] l] m1]
    end.
    cbn [fst] in Hs. destruct (nonzero rc0); cbn [fst]; [|auto].
    destruct Hs; auto.
  - intros Hn Hrs. subst rc r.
    rewrite (build_and_send_cmd_unfold locty ord app n rb rs to_t m Hn Hrs).
    cbv zeta.
    match goal with
    | |- context [transmit ?a ?b ?c ?d ?e ?f] =>
        destruct (transmit a b c d e f) as [[[rc0 ob] l] m1]
    end.
    cbn [fst snd]. destruct (nonzero rc0) eqn:E; cbn [fst snd].
    + apply nonzero_true in E. split; [contradiction|congruence].
    + split; [discriminate|reflexivity].
  - apply build_and_send_cmd_only_hw.
Qed.

Lemma tpm_req_header_image_fields (tag totlen ord : Z) (rest : bytes_at) :
  let img := img_cat sizeof_tpm_req_header
               (tpm_req_header_image tag totlen ord) rest in
  (forall i, 0 <= i < 4 -> img (offsetof_totlen + i) = be32_bytes totlen i)
  /\ (forall i, 0 <= i < 4 -> img (6 + i) = be32_bytes ord i)
  /\ (forall i, 0 <= i -> img (sizeof_tpm_req_header + i) = rest i).
Proof.
  unfold tpm_req_header_image, img_cat, sizeof_tpm_req_header, offsetof_totlen.
  repeat split; intros i Hi;
    repeat match goal with
           | |- context [?a <? ?b] => destruct (Z.ltb_spec a b); try lia
           end;
    f_equal; lia.
Qed.

(** X9.  The frame that [build_and_send_cmd] hands to the transport:
    its length field, read back as the driver reads it, is the header
    size plus the payload size, the ordinal reads back as given, and the
    payload follows the header, padded with zeros. *)
Theorem build_and_send_cmd_frame locty ord app n rb rs to_t (m : machine) :
  0 <= n <= sizeof_req_cmd -> rs <= sizeof_obuffer ->
  0 <= ord < 2 ^ 32 ->
  exists req : bytes_at,
    be32_at req offsetof_totlen = sizeof_tpm_req_header + n
    /\ be32_at req 6 = ord
    /\ (forall i, 0 <= i < n -> req (sizeof_tpm_req_header + i) = app i)
    /\ (forall i, n <= i -> req (sizeof_tpm_req_header + i) = 0)
    /\ fst (fst (fst (build_and_send_cmd locty ord app n rb rs to_t m)))
       = fst (fst (fst (transmit locty req zeros sizeof_obuffer to_t m)))
    /\ snd (build_and_send_cmd locty ord app n rb rs to_t m)
       = snd (transmit locty req zeros sizeof_obuffer to_t m).
Proof.
  intros Hn Hrs Hord.
  pose proof (build_and_send_cmd_unfold locty ord app n rb rs to_t m
                (proj2 Hn) Hrs) as Hu.
  cbv zeta in Hu.
  set (rest := if nonzero n then fun i => if i <? n then app i else 0
               else zeros) in *.
  set (req := img_cat sizeof_tpm_req_header
                (tpm_req_header_image TPM_TAG_RQU_CMD
                   (u32 (sizeof_tpm_req_header + n)) ord) rest) in *.
  destruct (tpm_req_header_image_fields TPM_TAG_RQU_CMD
              (u32 (sizeof_tpm_req_header + n)) ord rest) as (F1 & F2 & F3).
  fold req in F1, F2, F3.
  assert (Hlast :
    fst (fst (fst (build_and_send_cmd locty ord app n rb rs to_t m)))
    = fst (fst (fst (transmit locty req zeros sizeof_obuffer to_t m)))
    /\ snd (build_and_send_cmd locty ord app n rb rs to_t m)
       = snd (transmit locty req zeros sizeof_obuffer to_t m)).
  { rewrite Hu. unfold req, rest.
    destruct (transmit locty _ zeros sizeof_obuffer to_t m)
      as [[[rc0 ob] l] m1].
    cbn [fst snd]. destruct (nonzero rc0) eqn:E; cbn [fst snd].
    - split; reflexivity.
    - apply nonzero_false in E. split; [congruence|reflexivity]. }
  clear Hu. exists req.
  assert (Hh : sizeof_tpm_req_header = 10) by reflexivity.
  assert (Hc : sizeof_req_cmd = 20) by reflexivity.
  split.
  { transitivity (u32 (sizeof_tpm_req_header + n));
      [|apply u32_small; lia].
    apply be32_at_image; [apply u32_range|exact F1]. }
  split; [apply be32_at_image; assumption|].
  split.
  { intros i Hi. rewrite F3 by lia. subst rest.
    destruct (nonzero n) eqn:E.
    - destruct (Z.ltb_spec i n); [reflexivity|lia].
    - apply nonzero_false in E. lia. }
  split; [|exact Hlast].
  intros i Hi. rewrite F3 by lia. subst rest.
  destruct (nonzero n); [|reflexivity].
  destruct (Z.ltb_spec i n); [lia|reflexivity].
Qed.

(** X10.  The extend request of the pipeline decodes to what was
    measured: a total length of 34 bytes, the extend ordinal, the PCR
    index of the entry and, behind it, the 20 bytes of its digest. *)
Theorem tpm_req_extend_image_decodes (pcpes : pcpes_t) :
  0 <= pcrindex pcpes < 2 ^ 32 ->
  0 <= TPM_ORD_Extend < 2 ^ 32 ->
  let img := tpm_req_extend_image pcpes in
  be32_at img offsetof_totlen = 34
  /\ be32_at img 6 = TPM_ORD_Extend
  /\ be32_at img sizeof_tpm_req_header = pcrindex pcpes
  /\ (forall i, 0 <= i < sizeof_digest ->
        img (sizeof_tpm_req_header + 4 + i) = digest pcpes i).
Proof.
  intros Hp Ho img. subst img. unfold tpm_req_extend_image.
  set (rest := img_cat 4 (be32_bytes (pcrindex pcpes)) (digest pcpes)).
  destruct (tpm_req_header_image_fields TPM_TAG_RQU_CMD sizeof_tpm_req_extend
              TPM_ORD_Extend rest) as (F1 & F2 & F3).
  cbv zeta in F1, F2, F3.
  split; [apply be32_at_image; [vm_compute; split; congruence|exact F1]|].
  split; [apply be32_at_image; assumption|].
  split.
  - apply be32_at_image; [exact Hp|].
    intros i Hi. rewrite F3 by lia. subst rest. unfold img_cat.
    destruct (Z.ltb_spec i 4); [reflexivity|lia].
  - intros i Hi. unfold sizeof_digest in Hi.
    replace (sizeof_tpm_req_header + 4 + i)
      with (sizeof_tpm_req_header + (4 + i)) by ring.
    rewrite F3 by lia. subst rest. unfold img_cat.
    destruct (Z.ltb_spec (4 + i) 4); [lia|]. f_equal. lia.
Qed.

(** ** The request blocks of the dispatcher *)

Lemma pttto_err_exit_form (rc : Z) (o : pttto_t) :
  rc <> 0 ->
  pttto_opblength (pttto_err_exit rc o) = 4
  /\ pttto_reserved (pttto_err_exit rc o) = 0.
Proof.
  intros H. unfold pttto_err_exit. destruct (nonzero rc) eqn:E.
  - split; reflexivity.
  - apply nonzero_false in E. contradiction.
Qed.

Lemma hleeo_err_exit_form (rc : Z) (o : hleeo_t) :
  rc <> 0 ->
  hleeo_opblength (hleeo_err_exit rc o) = 4
  /\ hleeo_reserved (hleeo_err_exit rc o) = 0.
Proof.
  intros H. unfold hleeo_err_exit. destruct (nonzero rc) eqn:E.
  - split; reflexivity.
  - apply nonzero_false in E. contradiction.
Qed.

Lemma hleo_err_exit_form (rc : Z) (o : hleo_t) :
  rc <> 0 ->
  hleo_opblength (hleo_err_exit rc o) = 2
  /\ hleo_reserved (hleo_err_exit rc o) = 0.
Proof.
  intros H. unfold hleo_err_exit. destruct (nonzero rc) eqn:E.
  - split; reflexivity.
  - apply nonzero_false in E. contradiction.
Qed.

Lemma pass_through_to_tpm_int_accepted (pttti : pttti_t) (pttto : pttto_t)
    (m : machine) :
  if_shutdown (tpm_state m) = false ->
  sizeof_pttti + sizeof_pointer <= pttti_ipblength pttti ->
  pttti_ipblength pttti
  = u32 (sizeof_pttti + be32_at (pttti_tpmopin pttti) offsetof_totlen) ->
  sizeof_pttto <= pttti_opblength pttti ->
  let t := transmit 0 (pttti_tpmopin pttti) (pttto_tpmopout pttto)
             (u32 (pttti_opblength pttti - offsetof_pttto_tpmopout))
             TPM_DURATION_TYPE_LONG m in
  pass_through_to_tpm_int pttti pttto m
  = if nonzero (fst (fst (fst t)))
    then ((fst (fst (fst t)),
           pttto_err_exit (fst (fst (fst t)))
             {| pttto_opblength := pttto_opblength pttto;
                pttto_reserved := pttto_reserved pttto;
                pttto_tpmopout := snd (fst (fst t)) |}), snd t)
    else ((fst (fst (fst t)),
           {| pttto_opblength :=
                u16 (offsetof_pttto_tpmopout + snd (fst t));
              pttto_reserved := 0;
              pttto_tpmopout := snd (fst (fst t)) |}), snd t).
Proof.
  intros Hs H1 H2 H3 t. unfold pass_through_to_tpm_int.
  rewrite nonzero_is_preboot_if_shutdown, Hs.
  destruct (Z.ltb_spec (pttti_ipblength pttti) (sizeof_pttti + sizeof_pointer));
    [lia|].
  rewrite <- H2, Z.eqb_refl.
  destruct (Z.ltb_spec (pttti_opblength pttti) sizeof_pttto); [lia|].
  cbn [negb orb]. fold t. destruct t as [[[rc buf] l] m1]. reflexivity.
Qed.

(** X11.  Pass-through-to-TPM.  The call changes nothing but the driver
    world: no flag, no log field and no byte of memory.  Its status is
    0, [TCG_INTERFACE_SHUTDOWN], [TCG_INVALID_INPUT_PARA] or
    [TCG_FATAL_COM_ERROR], and with a non-zero status the output block
    has the error form (length 4, reserved 0).  With the interface open,
    a block whose length is not the block header plus the length field
    of the embedded request, or is too short, or leaves no room for a
    response, is rejected without any driver call; every other block is
    handed to the transport as it is, with the rest of the caller's
    output block as response buffer. *)
Theorem pass_through_to_tpm_int_contract (pttti : pttti_t) (pttto : pttto_t)
    (m : machine) :
  let r := pass_through_to_tpm_int pttti pttto m in
  let rc := fst (fst r) in
  let t := transmit 0 (pttti_tpmopin pttti) (pttto_tpmopout pttto)
             (u32 (pttti_opblength pttti - offsetof_pttto_tpmopout))
             TPM_DURATION_TYPE_LONG m in
  only_hw m (snd r)
  /\ (rc = 0 \/ rc = TCG_INTERFACE_SHUTDOWN \/ rc = TCG_INVALID_INPUT_PARA
      \/ rc = TCG_FATAL_COM_ERROR)
  /\ (rc <> 0 ->
      pttto_opblength (snd (fst r)) = 4 /\ pttto_reserved (snd (fst r)) = 0)
  /\ (if_shutdown (tpm_state m) = false ->
      pttti_ipblength pttti < sizeof_pttti + sizeof_pointer
      \/ pttti_ipblength pttti
         <> u32 (sizeof_pttti + be32_at (pttti_tpmopin pttti) offsetof_totlen)
      \/ pttti_opblength pttti < sizeof_pttto ->
      r = ((TCG_INVALID_INPUT_PARA,
            pttto_err_exit TCG_INVALID_INPUT_PARA pttto), m))
  /\ (if_shutdown (tpm_state m) = false ->
      sizeof_pttti + sizeof_pointer <= pttti_ipblength pttti ->
      pttti_ipblength pttti
      = u32 (sizeof_pttti + be32_at (pttti_tpmopin pttti) offsetof_totlen) ->
      sizeof_pttto <= pttti_opblength pttti ->
      rc = fst (fst (fst t)) /\ snd r = snd t
      /\ pttto_tpmopout (snd (fst r)) = snd (fst (fst t))
      /\ (rc = 0 ->
          pttto_opblength (snd (fst r))
          = u16 (offsetof_pttto_tpmopout + snd (fst t))
          /\ pttto_reserved (snd (fst r)) = 0)).
Proof.
  intros r rc t.
  assert (Hrej : if_shutdown (tpm_state m) = false ->
      pttti_ipblength pttti < sizeof_pttti + sizeof_pointer
      \/ pttti_ipblength pttti
         <> u32 (sizeof_pttti + be32_at (pttti_tpmopin pttti) offsetof_totlen)
      \/ pttti_opblength pttti < sizeof_pttto ->
      r = ((TCG_INVALID_INPUT_PARA,
            pttto_err_exit TCG_INVALID_INPUT_PARA pttto), m)).
  { intros Hs H. subst r. unfold pass_through_to_tpm_int.
    rewrite nonzero_is_preboot_if_shutdown, Hs.
    destruct (Z.ltb_spec (pttti_ipblength pttti)
                (sizeof_pttti + sizeof_pointer)); [reflexivity|].
    destruct (Z.eqb_spec (pttti_ipblength pttti)
                (u32 (sizeof_pttti
                      + be32_at (pttti_tpmopin pttti) offsetof_totlen)));
      [|reflexivity].
    destruct (Z.ltb_spec (pttti_opblength pttti) sizeof_pttto);
      [reflexivity|].
    lia. }
  assert (Hcases :
    (r = ((TCG_INTERFACE_SHUTDOWN,
           pttto_err_exit TCG_INTERFACE_SHUTDOWN pttto), m))
    \/ (r = ((TCG_INVALID_INPUT_PARA,
              pttto_err_exit TCG_INVALID_INPUT_PARA pttto), m))
    \/ (r = if nonzero (fst (fst (fst t)))
            then ((fst (fst (fst t)),
                   pttto_err_exit (fst (fst (fst t)))
                     {| pttto_opblength := pttto_opblength pttto;
                        pttto_reserved := pttto_reserved pttto;
                        pttto_tpmopout := snd (fst (fst t)) |}), snd t)
            else ((fst (fst (fst t)),
                   {| pttto_opblength :=
                        u16 (offsetof_pttto_tpmopout + snd (fst t));
                      pttto_reserved := 0;
                      pttto_tpmopout := snd (fst (fst t)) |}), snd t))).
  { destruct (if_shutdown (tpm_state m)) eqn:Hs.
    - left. subst r. unfold pass_through_to_tpm_int.
      rewrite nonzero_is_preboot_if_shutdown, Hs. reflexivity.
    - destruct (Z.lt_ge_cases (pttti_ipblength pttti)
                  (sizeof_pttti + sizeof_pointer)) as [L|L];
        [right; left; apply Hrej; auto|].
      destruct (Z.eq_dec (pttti_ipblength pttti)
                  (u32 (sizeof_pttti
                        + be32_at (pttti_tpmopin pttti) offsetof_totlen)))
        as [E|E]; [|right; left; apply Hrej; auto].
      destruct (Z.lt_ge_cases (pttti_opblength pttti) sizeof_pttto) as [L'|L'];
        [right; left; apply Hrej; auto|].
      right; right.
      apply pass_through_to_tpm_int_accepted; assumption. }
  pose proof (transmit_status 0 (pttti_tpmopin pttti) (pttto_tpmopout pttto)
                (u32 (pttti_opblength pttti - offsetof_pttto_tpmopout))
                TPM_DURATION_TYPE_LONG m) as Hst.
  pose proof (transmit_only_hw 0 (pttti_tpmopin pttti) (pttto_tpmopout pttto)
                (u32 (pttti_opblength pttti - offsetof_pttto_tpmopout))
                TPM_DURATION_TYPE_LONG m) as Hhw.
  fold t in Hst, Hhw.
  split.
  { destruct Hcases as [H|[H|H]]; rewrite H; try apply only_hw_refl.
    destruct (nonzero _); exact Hhw. }
  split.
  { subst rc. destruct Hcases as [H|[H|H]]; rewrite H; cbn [fst]; auto.
    destruct (nonzero _); cbn [fst]; destruct Hst as [Hst|Hst];
      rewrite Hst; auto. }
  split.
  { subst rc. destruct Hcases as [H|[H|H]]; rewrite H; cbn [fst snd];
      try apply pttto_err_exit_form.
    destruct (nonzero (fst (fst (fst t)))) eqn:E; cbn [fst snd].
    - apply pttto_err_exit_form.
    - apply nonzero_false in E. intros; contradiction. }
  split; [exact Hrej|].
  intros Hs H1 H2 H3. subst rc r.
  rewrite (pass_through_to_tpm_int_accepted pttti pttto m Hs H1 H2 H3).
  fold t. destruct (nonzero (fst (fst (fst t)))) eqn:E; cbn [fst snd].
  - apply nonzero_true in E. repeat split; try reflexivity.
    + unfold pttto_err_exit. destruct (nonzero _); reflexivity.
    + intros; contradiction.
    + intros; contradiction.
  - repeat split; reflexivity.
Qed.

(** X12.  The output blocks of the two hash-and-log calls.  A non-zero
    status always comes with the error form of the block (length 4 for
    hash-log-extend-event, 2 for hash-log-event, reserved 0) and the
    caller's event number left alone.  With non-zero error codes, status
    0 comes with the full block; the event number of hash-log-event is
    then the entry count of the log, while the one of
    hash-log-extend-event is the value of a local that is never
    assigned, whatever the log holds. *)
Theorem hash_log_blocks_form :
  (forall hleei hleeo junk (m : machine),
     let r := hash_log_extend_event_int hleei hleeo junk m in
     (fst (fst r) <> 0 ->
      hleeo_opblength (snd (fst r)) = 4
      /\ hleeo_reserved (snd (fst r)) = 0
      /\ hleeo_eventnumber (snd (fst r)) = hleeo_eventnumber hleeo)
     /\ (TCG_INTERFACE_SHUTDOWN <> 0 -> TCG_INVALID_INPUT_PARA <> 0 ->
         fst (fst r) = 0 ->
         hleeo_opblength (snd (fst r)) = u16 sizeof_hleeo
         /\ hleeo_reserved (snd (fst r)) = 0
         /\ hleeo_eventnumber (snd (fst r)) = junk))
  /\ (forall hlei hleo (m : machine),
        let r := hash_log_event_int hlei hleo m in
        (fst (fst r) <> 0 ->
         hleo_opblength (snd (fst r)) = 2
         /\ hleo_reserved (snd (fst r)) = 0
         /\ hleo_eventnumber (snd (fst r)) = hleo_eventnumber hleo)
        /\ (TCG_INTERFACE_SHUTDOWN <> 0 -> TCG_INVALID_INPUT_PARA <> 0 ->
            fst (fst r) = 0 ->
            hleo_opblength (snd (fst r)) = u16 sizeof_hleo
            /\ hleo_reserved (snd (fst r)) = 0
            /\ hleo_eventnumber (snd (fst r))
               = entry_count (tpm_state (snd r)))).
Proof.
  assert (E1 : forall rc o, rc <> 0 ->
            hleeo_opblength (hleeo_err_exit rc o) = 4
            /\ hleeo_reserved (hleeo_err_exit rc o) = 0
            /\ hleeo_eventnumber (hleeo_err_exit rc o) = hleeo_eventnumber o).
  { intros rc o H. unfold hleeo_err_exit. destruct (nonzero rc) eqn:E.
    - repeat split.
    - apply nonzero_false in E. contradiction. }
  assert (E2 : forall rc o, rc <> 0 ->
            hleo_opblength (hleo_err_exit rc o) = 2
            /\ hleo_reserved (hleo_err_exit rc o) = 0
            /\ hleo_eventnumber (hleo_err_exit rc o) = hleo_eventnumber o).
  { intros rc o H. unfold hleo_err_exit. destruct (nonzero rc) eqn:E.
    - repeat split.
    - apply nonzero_false in E. contradiction. }
  split.
  - intros hleei hleeo junk m r. subst r.
    unfold hash_log_extend_event_int.
    destruct (nonzero (is_preboot_if_shutdown m));
      [cbn [fst snd]; split; [apply E1|intros; congruence]|].
    destruct (hleei_layout hleei) as [[[p l] pcr]|];
      [|cbn [fst snd]; split; [apply E1|intros; congruence]].
    destruct (_ || _);
      [cbn [fst snd]; split; [apply E1|intros; congruence]|].
    destruct (tpm_log_extend_event_at _ _ _) as [rc m2].
    destruct (nonzero rc) eqn:E; cbn [fst snd].
    + apply nonzero_true in E. split; [apply E1|intros; congruence].
    + apply nonzero_false in E. split; [intros; congruence|].
      intros _ _ _. repeat split.
  - intros hlei hleo m r. subst r. unfold hash_log_event_int.
    destruct (nonzero (is_preboot_if_shutdown m));
      [cbn [fst snd]; split; [apply E2|intros; congruence]|].
    destruct (negb _);
      [cbn [fst snd]; split; [apply E2|intros; congruence]|].
    destruct (_ || _);
      [cbn [fst snd]; split; [apply E2|intros; congruence]|].
    destruct (tpm_log_event_at _ _ _) as [rc m2].
    destruct (nonzero rc) eqn:E; cbn [fst snd].
    + apply nonzero_true in E. split; [apply E2|intros; congruence].
    + apply nonzero_false in E. split; [intros; congruence|].
      intros _ _ _. repeat split.
Qed.

(** ** The status check *)

Lemma is_tpm_present_from_result (n : nat) (i : Z) (m : machine) :
  let r := is_tpm_present_from n i m in
  (fst r = 0 /\ only_hw m (snd r))
  \/ (fst r = 1
      /\ exists j, only_hw (upd_state (set_tpm_driver_to_use j) m) (snd r)).
Proof.
  revert i m. induction n as [|n IH]; intros i m; cbn [is_tpm_present_from].
  - left. split; [reflexivity|apply only_hw_refl].
  - destruct (probe (tpm_drivers i) (hw m)) as [r d1].
    destruct (nonzero r).
    + right. split; [reflexivity|]. exists i. cbn [snd].
      unfold only_hw. destruct m; reflexivity.
    + destruct (IH (i + 1) (set_hw d1 m)) as [[H1 H2]|[H1 [j H2]]].
      * left. split; [exact H1|].
        unfold only_hw in *. rewrite H2 at 1. destruct m; reflexivity.
      * right. split; [exact H1|]. exists j.
        unfold only_hw in *. rewrite H2 at 1. destruct m; reflexivity.
Qed.

(** X13.  The status check answers whether or not the interface is shut
    down and whatever the three TPM flags say: it runs the driver probe
    again and changes nothing but the driver world and the selected
    driver.  Either no driver answers and eax is
    [TCG_PC_TPM_NOT_PRESENT] with every other register as it was, or eax
    is 0, ebx the magic number, edx 0, esi the start of the log area and
    edi the address of the last entry.  The carry flag is cleared in
    both cases. *)
Theorem status_check_contract (regs : bregs) (m : machine) :
  CONFIG_TCGBIOS = true ->
  let r := tpm_interrupt_handler32 TCG_StatusCheck regs m in
  let regs' := fst (fst r) in
  let m' := snd r in
  same_log m m'
  /\ tpm_probed (tpm_state m') = tpm_probed (tpm_state m)
  /\ tpm_found (tpm_state m') = tpm_found (tpm_state m)
  /\ tpm_working (tpm_state m') = tpm_working (tpm_state m)
  /\ if_shutdown (tpm_state m') = if_shutdown (tpm_state m)
  /\ cf regs' = false
  /\ ((regs' = set_eax TCG_PC_TPM_NOT_PRESENT false regs /\ only_hw m m')
      \/ (eax regs' = 0 /\ ebx regs' = TCG_MAGIC /\ edx regs' = 0
          /\ esi regs' = log_area_start_address (tpm_state m)
          /\ edi regs' = log_area_last_entry (tpm_state m)
          /\ Z.land (ecx regs') 0xffff
             = Z.lor (Z.shiftl (u8 TCG_VERSION_MAJOR) 8)
                 (u8 TCG_VERSION_MINOR))).
Proof.
  intros HC r regs' m'. subst regs' m' r.
  unfold tpm_interrupt_handler32. rewrite HC. cbn [negb].
  unfold is_tpm_present.
  pose proof (is_tpm_present_from_flags (Z.to_nat TPM_NUM_DRIVERS) 0 m)
    as (F1 & F2 & F3 & F4).
  pose proof (is_tpm_present_from_frame (Z.to_nat TPM_NUM_DRIVERS) 0 m)
    as (G1 & G2 & G3 & G4 & G5 & G6).
  pose proof (is_tpm_present_from_result (Z.to_nat TPM_NUM_DRIVERS) 0 m)
    as HR.
  cbv zeta in F1, F2, F3, F4, G1, G2, G3, G4, G5, G6, HR.
  destruct (is_tpm_present_from (Z.to_nat TPM_NUM_DRIVERS) 0 m)
    as [present m1].
  cbn [fst snd] in *.
  assert (HL : same_log m m1) by (unfold same_log; auto 7).
  destruct (Z.eqb_spec present 0) as [E|E]; cbn [fst snd].
  - repeat (split; [assumption || reflexivity|]).
    left. split; [reflexivity|].
    destruct HR as [[_ H]|[H _]]; [exact H|lia].
  - repeat (split; [assumption || reflexivity|]).
    right. cbn [eax ebx ecx edx esi edi].
    repeat (split; [assumption || reflexivity|]).
    rewrite Z.land_lor_distr_l, <- Z.land_assoc.
    change (Z.land 0xffff0000 0xffff) with 0. rewrite Z.land_0_r, Z.lor_0_l.
    apply Z.bits_inj'. intros k Hk.
    rewrite Z.land_spec.
    destruct (Z.ltb_spec k 16).
    + change 0xffff with (Z.ones 16).
      rewrite Z.ones_spec_low by lia. apply andb_true_r.
    + change 0xffff with (Z.ones 16).
      rewrite Z.ones_spec_high by lia. rewrite andb_false_r.
      rewrite Z.lor_spec, Z.shiftl_spec by lia.
      unfold u8.
      change (2 ^ 8) with (2 ^ 8) in *.
      rewrite !Z.mod_pow2_bits_high by lia. reflexivity.
Qed.

(** ** The session reset *)

Lemma probe_tpm_globals (m : machine) :
  tcpa (tpm_state (probe_tpm m)) = tcpa (tpm_state m)
  /\ RsdpAddr (probe_tpm m) = RsdpAddr m
  /\ if_shutdown (tpm_state (probe_tpm m)) = if_shutdown (tpm_state m).
Proof.
  unfold probe_tpm. destruct (tpm_probed (tpm_state m)); [auto|].
  unfold is_tpm_present.
  set (m1 := upd_state (set_tpm_probed true) m).
  pose proof (is_tpm_present_from_result (Z.to_nat TPM_NUM_DRIVERS) 0 m1)
    as HR. cbv zeta in HR.
  destruct (is_tpm_present_from _ 0 m1) as [rc m2]. cbn [fst snd] in HR.
  destruct HR as [[_ H]|[_ [j H]]]; unfold only_hw in H; rewrite H;
    subst m1; destruct m; repeat split.
Qed.

Lemma probe_tpm_fresh (m : machine) :
  tpm_probed (tpm_state m) = false ->
  tpm_found (tpm_state (probe_tpm m)) = tpm_working (tpm_state (probe_tpm m)).
Proof.
  intros H. unfold probe_tpm. rewrite H.
  destruct (is_tpm_present _) as [rc m2]. reflexivity.
Qed.

Lemma reset_acpi_log_outcome (fuel : nat) (m m' : machine) :
  reset_acpi_log fuel m = Some m' ->
  log_area_next_entry (tpm_state m') = log_area_start_address (tpm_state m')
  /\ log_area_last_entry (tpm_state m') = NULL
  /\ entry_count (tpm_state m') = 0
  /\ (if_shutdown (tpm_state m) = false ->
      (if_shutdown (tpm_state m') = true
       <-> tcpa (tpm_state m) = NULL /\ RsdpAddr m = NULL)).
Proof.
  unfold reset_acpi_log, get_lasa_base_ptr, find_tcpa_table.
  destruct (nonzero (tcpa (tpm_state m))) eqn:E1.
  - apply nonzero_true in E1. rewrite (proj2 (nonzero_true _) E1).
    intros H. inversion H. cbn. repeat split; try congruence.
    intros [? _]. contradiction.
  - apply nonzero_false in E1. destruct (nonzero (RsdpAddr m)) eqn:E2.
    + apply nonzero_true in E2. unfold find_tcpa_by_rsdp.
      destruct (_ =? NULL).
      * cbn. intros H. inversion H. cbn. repeat split; try congruence.
        intros [_ ?]. contradiction.
      * destruct (find_tcpa_loop _ _ _ _ _ _) as [t|]; [|discriminate].
        destruct (nonzero t); cbn; intros H; inversion H; cbn;
          repeat split; try congruence; intros [_ ?]; contradiction.
    + apply nonzero_false in E2. cbn. intros H. inversion H. cbn.
      repeat split; auto.
Qed.

(** What [tpm_acpi_init] leaves behind. *)
Lemma tpm_acpi_init_facts (fuel : nat) (m : machine) :
  (tcpa (tpm_state m) <> NULL \/ RsdpAddr m = NULL ->
   exists m', tpm_acpi_init fuel m = Some m')
  /\ (forall m', tpm_acpi_init fuel m = Some m' ->
      let s' := tpm_state m' in
      tpm_probed s' = true
      /\ tpm_found s' = tpm_working s'
      /\ (tpm_working s' = false -> if_shutdown s' = true /\ same_log m m')
      /\ (tpm_working s' = true ->
          log_area_next_entry s' = log_area_start_address s'
          /\ log_area_last_entry s' = NULL
          /\ entry_count s' = 0
          /\ (if_shutdown s' = true
              <-> tcpa (tpm_state m) = NULL /\ RsdpAddr m = NULL))).
Proof.
  unfold tpm_acpi_init, has_working_tpm.
  set (m1 := upd_state _ m).
  assert (Hp1 : tpm_probed (tpm_state m1) = false) by reflexivity.
  pose proof (probe_tpm_probed m1) as Hp.
  pose proof (probe_tpm_fresh m1 Hp1) as Hf.
  pose proof (probe_tpm_globals m1) as (Gt & Gr & Gs).
  pose proof (same_log_probe_tpm m1) as HL.
  assert (HL0 : same_log m m1) by (subst m1; destruct m; repeat split).
  change (tcpa (tpm_state m1)) with (tcpa (tpm_state m)) in Gt.
  change (RsdpAddr m1) with (RsdpAddr m) in Gr.
  change (if_shutdown (tpm_state m1)) with false in Gs.
  set (m2 := probe_tpm m1) in *. clearbody m2. clear Hp1.
  split.
  - intros H. destruct (tpm_working (tpm_state m2)); cbn [negb]; [|eauto].
    unfold reset_acpi_log, get_lasa_base_ptr, find_tcpa_table.
    rewrite Gt, Gr. destruct H as [H|H].
    + apply nonzero_true in H. rewrite H, H. eauto.
    + destruct (nonzero (tcpa (tpm_state m))) eqn:E.
      * rewrite E. eauto.
      * rewrite H. cbn. eauto.
  - intros m'. destruct (tpm_working (tpm_state m2)) eqn:Hw; cbn [negb].
    + intros H.
      destruct (reset_acpi_log_flags fuel m2 m' H) as (F1 & F2 & F3).
      destruct (reset_acpi_log_outcome fuel m2 m' H) as (O1 & O2 & O3 & O4).
      cbv zeta. rewrite F1, F2, F3, Hp, Hf, Hw.
      split; [reflexivity|]. split; [reflexivity|].
      split; [discriminate|]. intros _.
      rewrite <- Gt, <- Gr. auto.
    + intros H. inversion H. subst m'. cbv zeta. cbn.
      rewrite Hp, Hf, Hw. split; [reflexivity|]. split; [reflexivity|].
      split; [|discriminate]. intros _. split; [reflexivity|].
      apply (same_log_trans m m1); [exact HL0|].
      destruct HL as (L1 & L2 & L3 & L4 & L5 & L6).
      unfold same_log. cbn. auto 7.
Qed.

(** X14.  [tpm_acpi_init] from any state of the tracker.  It returns
    for any fuel when a table is cached or no root pointer is set.
    Whenever it returns, the tracker is probed and found = working.
    Without a working TPM the interface is shut down and the log is as
    it was; with one, the log is empty (cursor at the start address, no
    last entry, no entry counted), and the interface is shut down
    exactly when neither a cached table nor a root pointer was there. *)
Theorem tpm_acpi_init_outcome (fuel : nat) (m : machine) :
  (tcpa (tpm_state m) <> NULL \/ RsdpAddr m = NULL ->
   exists m', tpm_acpi_init fuel m = Some m')
  /\ (forall m', tpm_acpi_init fuel m = Some m' ->
      let s' := tpm_state m' in
      tpm_probed s' = true
      /\ tpm_found s' = tpm_working s'
      /\ (tpm_working s' = false -> if_shutdown s' = true /\ same_log m m')
      /\ (tpm_working s' = true ->
          log_area_next_entry s' = log_area_start_address s'
          /\ log_area_last_entry s' = NULL
          /\ entry_count s' = 0
          /\ (if_shutdown s' = true
              <-> tcpa (tpm_state m) = NULL /\ RsdpAddr m = NULL))).
Proof. exact (tpm_acpi_init_facts fuel m). Qed.

(** ** Startup, boot preparation and resume *)

Context {SH : startup_h}.

Lemma only_hw_fields (m m' : machine) :
  only_hw m m' ->
  tpm_state m' = tpm_state m /\ ram m' = ram m
  /\ RsdpAddr m' = RsdpAddr m /\ SMBiosAddr m' = SMBiosAddr m.
Proof. unfold only_hw. intros ->. repeat split. Qed.

Lemma probe_tpm_smbios (m : machine) :
  SMBiosAddr (probe_tpm m) = SMBiosAddr m.
Proof.
  unfold probe_tpm. destruct (tpm_probed (tpm_state m)); [reflexivity|].
  unfold is_tpm_present.
  set (m1 := upd_state (set_tpm_probed true) m).
  pose proof (is_tpm_present_from_result (Z.to_nat TPM_NUM_DRIVERS) 0 m1)
    as HR. cbv zeta in HR.
  destruct (is_tpm_present_from _ 0 m1) as [rc m2]. cbn [fst snd] in HR.
  destruct HR as [[_ H]|[_ [j H]]]; unfold only_hw in H; rewrite H;
    reflexivity.
Qed.

Lemma region_kept_same_log (m m' : machine) : same_log m m' -> region_kept m m'.
Proof.
  intros (_ & H2 & H3 & H4 & _). apply region_kept_fields; assumption.
Qed.

Lemma startup_err_exit_nonzero (rc : Z) (m : machine) :
  TCG_TCG_COMMAND_ERROR <> 0 -> fst (startup_err_exit rc m) <> 0.
Proof.
  intros H. unfold startup_err_exit. cbn [fst].
  destruct (nonzero rc) eqn:E; [apply nonzero_true; exact E|exact H].
Qed.

Ltac step_cmd H rc rcode rb m1 :=
  match goal with
  | |- context [build_and_send_cmd ?a ?b ?c ?d ?e ?f ?g ?h] =>
      pose proof (build_and_send_cmd_only_hw a b c d e f g h) as H;
      destruct (build_and_send_cmd a b c d e f g h) as [[[rc rcode] rb] m1];
      cbn [snd] in H
  end.

(** What [determine_timeouts] leaves behind. *)
Lemma determine_timeouts_facts (m : machine) :
  let r := determine_timeouts m in
  same_log m (snd r)
  /\ (fst r <> 0 -> tpm_working (tpm_state (snd r)) = false)
  /\ (TCG_TCG_COMMAND_ERROR <> 0 -> fst r = 0 -> only_hw m (snd r)).
Proof.
  cbv zeta. unfold determine_timeouts.
  step_cmd H1 rc rcode b m1.
  destruct (cmd_failed rc rcode).
  { split; [apply same_log_fail_after; exact H1|].
    split; [intros _; apply tpm_set_failure_working|].
    intros HC H0. exfalso. revert H0. apply startup_err_exit_nonzero.
    exact HC. }
  step_cmd H2 rc' rcode' b0 m2.
  pose proof (only_hw_trans _ _ _ H1 H2) as H12.
  destruct (cmd_failed rc' rcode').
  { split; [apply same_log_fail_after; exact H12|].
    split; [intros _; apply tpm_set_failure_working|].
    intros HC H0. exfalso. revert H0. apply startup_err_exit_nonzero.
    exact HC. }
  cbn [fst snd].
  assert (H3 : only_hw m (set_hw
                 (set_timeouts (tpm_driver_to_use (tpm_state m))
                    (be32_words match b with Some b1 => b1 | None => zeros end
                       offsetof_tpm_res_getcap_timeouts_timeouts 4)
                    (be32_words match b0 with Some b1 => b1 | None => zeros end
                       offsetof_tpm_res_getcap_durations_durations 3)
                    (hw m2)) m2)).
  { apply (only_hw_trans _ _ _ H12). apply only_hw_set. }
  split; [apply same_log_only_hw; exact H3|].
  split; [intros H; contradiction|]. intros _ _. exact H3.
Qed.

(** X15.  [determine_timeouts] never touches the log or memory.  A
    non-zero status means that the TPM is not working afterwards; and,
    when [TCG_TCG_COMMAND_ERROR] is not 0, status 0 means that only the
    driver world changed. *)
Theorem determine_timeouts_contract (m : machine) :
  let r := determine_timeouts m in
  same_log m (snd r)
  /\ (fst r <> 0 -> tpm_working (tpm_state (snd r)) = false)
  /\ (TCG_TCG_COMMAND_ERROR <> 0 -> fst r = 0 -> only_hw m (snd r)).
Proof. exact (determine_timeouts_facts m). Qed.

Lemma region_kept_tpm_add_measurement_to_log pcr ty ev n h hn (m : machine) :
  region_kept m (snd (tpm_add_measurement_to_log pcr ty ev n h hn m)).
Proof.
  unfold tpm_add_measurement_to_log. apply region_kept_tpm_log_extend_event.
Qed.

Lemma region_kept_tpm_smbios_measure (m : machine) :
  region_kept m (snd (tpm_smbios_measure m)).
Proof.
  unfold tpm_smbios_measure, has_working_tpm.
  destruct (negb CONFIG_TCGBIOS); [apply region_kept_refl|].
  pose proof (region_kept_probe_tpm m) as H0.
  destruct (negb _); [exact H0|].
  destruct (_ =? NULL); [exact H0|].
  destruct (sha1 _ _) as [rc dg].
  destruct (nonzero rc); [exact H0|].
  apply (region_kept_trans _ _ _ H0).
  apply region_kept_tpm_add_measurement_to_log.
Qed.

(** [tpm_smbios_measure] returning 0 with the TPM working afterwards:
    one entry was counted if there is an SMBIOS entry point, none
    otherwise. *)
Lemma tpm_smbios_measure_ok (m m' : machine) :
  CONFIG_TCGBIOS = true ->
  TCG_GENERAL_ERROR <> 0 -> TCG_INVALID_INPUT_PARA <> 0 ->
  TCG_PC_LOGOVERFLOW <> 0 ->
  tpm_smbios_measure m = (0, m') ->
  tpm_probed (tpm_state m') = true
  /\ (tpm_working (tpm_state m') = true ->
      entry_count (tpm_state m')
      = if SMBiosAddr m =? NULL then entry_count (tpm_state m)
        else u32 (entry_count (tpm_state m) + 1)).
Proof.
  intros HC Hg Hi Ho. unfold tpm_smbios_measure, has_working_tpm.
  rewrite HC. cbn [negb].
  pose proof (probe_tpm_probed m) as Hp.
  pose proof (probe_tpm_smbios m) as Hs.
  assert (Hc : entry_count (tpm_state (probe_tpm m))
               = entry_count (tpm_state m)) by apply probe_tpm_frame.
  destruct (tpm_working (tpm_state (probe_tpm m))) eqn:Hw; cbn [negb].
  - rewrite Hs. destruct (SMBiosAddr m =? NULL).
    + intros H. inversion H. subst m'. split; [exact Hp|]. intros _. exact Hc.
    + destruct (sha1 _ _) as [rc dg]. destruct (nonzero rc) eqn:E.
      * apply nonzero_true in E. intros H. inversion H. congruence.
      * intros H.
        destruct (tpm_add_measurement_to_log_ok _ _ _ _ _ _ _ _ Hg Hi Ho H)
          as (P1 & P2).
        split; [exact P1|]. intros W. destruct (P2 W) as [P3 _].
        rewrite P3, Hc. reflexivity.
  - intros H. inversion H. congruence.
Qed.

(** What [tpm_startup] leaves behind. *)
Lemma tpm_startup_facts (m : machine) :
  let r := tpm_startup m in
  (fst r <> 0 -> tpm_working (tpm_state (snd r)) = false)
  /\ region_kept m (snd r)
  /\ (failed m -> r = (TCG_GENERAL_ERROR, m))
  /\ (CONFIG_TCGBIOS = true ->
      TCG_GENERAL_ERROR <> 0 -> TCG_INVALID_INPUT_PARA <> 0 ->
      TCG_PC_LOGOVERFLOW <> 0 -> TCG_TCG_COMMAND_ERROR <> 0 ->
      tpm_working (tpm_state (snd r)) = true ->
      fst r = 0
      /\ entry_count (tpm_state (snd r))
         = u32 (entry_count (tpm_state m)
                + (if SMBiosAddr m =? NULL then 1 else 2))).
Proof.
  cbv zeta.
  assert (Hfail : failed m -> tpm_startup m = (TCG_GENERAL_ERROR, m)).
  { intros Hf. unfold tpm_startup.
    rewrite (failed_has_working_tpm m Hf). reflexivity. }
  assert (Herr : forall rc m1, only_hw (probe_tpm m) m1 \/ region_kept m m1 ->
            region_kept m (snd (startup_err_exit rc m1))).
  { intros rc m1 H. cbn [snd startup_err_exit].
    apply (region_kept_trans m m1);
      [|apply region_kept_tpm_set_failure].
    destruct H as [H|H]; [|exact H].
    apply (region_kept_trans m (probe_tpm m));
      [apply region_kept_probe_tpm|apply region_kept_only_hw; exact H]. }
  assert (Hw0 : forall rc m1,
            tpm_working (tpm_state (snd (startup_err_exit rc m1))) = false).
  { intros rc m1. apply tpm_set_failure_working. }
  split; [|split; [|split; [exact Hfail|]]].
  - unfold tpm_startup, has_working_tpm.
    destruct (tpm_working (tpm_state (probe_tpm m))) eqn:Hw; cbn [negb];
      [|intros _; exact Hw].
    step_cmd H1 rc rcode b1 m1.
    destruct (cmd_failed rc _); [intros _; apply Hw0|].
    pose proof (determine_timeouts_facts m1) as (_ & D2 & _).
    destruct (determine_timeouts m1) as [rc1 m2].
    destruct (nonzero rc1); [intros _; apply Hw0|].
    step_cmd H3 rc2 rcode2 b2 m3.
    destruct (cmd_failed rc2 rcode2); [intros _; apply Hw0|].
    step_cmd H4 rc3 rcode3 b3 m4.
    destruct (_ || _); [intros _; apply Hw0|].
    destruct (tpm_smbios_measure m4) as [rc4 m5].
    destruct (nonzero rc4); [intros _; apply Hw0|].
    destruct (tpm_add_action _ _ m5) as [rc5 m6].
    destruct (nonzero rc5); [intros _; apply Hw0|].
    cbn [fst]. intros H. contradiction.
  - unfold tpm_startup, has_working_tpm.
    destruct (negb _); [apply region_kept_probe_tpm|].
    step_cmd H1 rc rcode b1 m1.
    destruct (cmd_failed rc _); [apply Herr; left; exact H1|].
    pose proof (determine_timeouts_facts m1) as (D1 & _ & _).
    destruct (determine_timeouts m1) as [rc1 m2]. cbn [snd] in D1.
    assert (R2 : region_kept m m2).
    { apply (region_kept_trans m (probe_tpm m));
        [apply region_kept_probe_tpm|].
      apply (region_kept_trans _ m1);
        [apply region_kept_only_hw; exact H1|].
      apply region_kept_same_log. exact D1. }
    destruct (nonzero rc1); [apply Herr; right; exact R2|].
    step_cmd H3 rc2 rcode2 b2 m3.
    assert (R3 : region_kept m m3).
    { apply (region_kept_trans _ _ _ R2). apply region_kept_only_hw.
      exact H3. }
    destruct (cmd_failed rc2 rcode2); [apply Herr; right; exact R3|].
    step_cmd H4 rc3 rcode3 b3 m4.
    assert (R4 : region_kept m m4).
    { apply (region_kept_trans _ _ _ R3). apply region_kept_only_hw.
      exact H4. }
    destruct (_ || _); [apply Herr; right; exact R4|].
    pose proof (region_kept_tpm_smbios_measure m4) as R5'.
    destruct (tpm_smbios_measure m4) as [rc4 m5]. cbn [snd] in R5'.
    pose proof (region_kept_trans _ _ _ R4 R5') as R5.
    destruct (nonzero rc4); [apply Herr; right; exact R5|].
    pose proof (region_kept_tpm_add_measurement_to_log 2 EV_ACTION
                  (str_bytes (cstr "Start Option ROM Scan"))
                  (strlen (cstr "Start Option ROM Scan"))
                  (Some (str_bytes (cstr "Start Option ROM Scan")))
                  (strlen (cstr "Start Option ROM Scan")) m5) as R6'.
    unfold tpm_add_action.
    destruct (tpm_add_measurement_to_log 2 _ _ _ _ _ m5) as [rc5 m6].
    cbn [snd] in R6'.
    pose proof (region_kept_trans _ _ _ R5 R6') as R6.
    destruct (nonzero rc5); [apply Herr; right; exact R6|exact R6].
  - intros HC Hg Hi Ho He.
    unfold tpm_startup, has_working_tpm.
    pose proof (probe_tpm_probed m) as Hp.
    pose proof (probe_tpm_smbios m) as Hs.
    assert (Hc : entry_count (tpm_state (probe_tpm m))
                 = entry_count (tpm_state m)) by apply probe_tpm_frame.
    destruct (tpm_working (tpm_state (probe_tpm m))) eqn:Hw; cbn [negb];
      [|cbn [snd]; congruence].
    step_cmd H1 rc rcode b1 m1.
    destruct (cmd_failed rc _); [rewrite Hw0; discriminate|].
    pose proof (determine_timeouts_facts m1) as (_ & _ & D3).
    destruct (determine_timeouts m1) as [rc1 m2]. cbn [fst snd] in D3.
    destruct (nonzero rc1) eqn:E1; [rewrite Hw0; discriminate|].
    apply nonzero_false in E1. specialize (D3 He E1).
    step_cmd H3 rc2 rcode2 b2 m3.
    destruct (cmd_failed rc2 rcode2); [rewrite Hw0; discriminate|].
    step_cmd H4 rc3 rcode3 b3 m4.
    destruct (_ || _); [rewrite Hw0; discriminate|].
    pose proof (only_hw_trans _ _ _ (only_hw_trans _ _ _
                  (only_hw_trans _ _ _ H1 D3) H3) H4) as H04.
    destruct (only_hw_fields _ _ H04) as (Fs & _ & _ & Fb).
    destruct (tpm_smbios_measure m4) as [rc4 m5] eqn:E4.
    destruct (nonzero rc4) eqn:N4; [rewrite Hw0; discriminate|].
    apply nonzero_false in N4. subst rc4.
    destruct (tpm_smbios_measure_ok m4 m5 HC Hg Hi Ho E4) as (P5 & C5).
    destruct (tpm_add_action _ _ m5) as [rc5 m6] eqn:E5.
    destruct (nonzero rc5) eqn:N5; [rewrite Hw0; discriminate|].
    apply nonzero_false in N5. subst rc5. cbn [fst snd]. intros W6.
    split; [reflexivity|].
    unfold tpm_add_action in E5.
    destruct (tpm_add_measurement_to_log_ok _ _ _ _ _ _ _ _ Hg Hi Ho E5)
      as (_ & C6).
    destruct (C6 W6) as [C6a C6b].
    rewrite C6a, (C5 (C6b P5)), Fb, Fs, Hs, Hc.
    destruct (SMBiosAddr m =? NULL); [reflexivity|].
    rewrite u32_add_l. f_equal. lia.
Qed.

(** X16.  [tpm_startup].  A non-zero status means that the TPM is not
    working afterwards; the log region is kept; on a TPM that was
    already marked failed nothing is sent and [TCG_GENERAL_ERROR] comes
    back.  With non-zero error codes, a TPM that is still working after
    the call means that the call returned 0 and logged its
    measurements: the SMBIOS tables, if there is an entry point, and
    the action string. *)
Theorem tpm_startup_contract (m : machine) :
  let r := tpm_startup m in
  (fst r <> 0 -> tpm_working (tpm_state (snd r)) = false)
  /\ region_kept m (snd r)
  /\ (failed m -> r = (TCG_GENERAL_ERROR, m))
  /\ (CONFIG_TCGBIOS = true ->
      TCG_GENERAL_ERROR <> 0 -> TCG_INVALID_INPUT_PARA <> 0 ->
      TCG_PC_LOGOVERFLOW <> 0 -> TCG_TCG_COMMAND_ERROR <> 0 ->
      tpm_working (tpm_state (snd r)) = true ->
      fst r = 0
      /\ entry_count (tpm_state (snd r))
         = u32 (entry_count (tpm_state m)
                + (if SMBiosAddr m =? NULL then 1 else 2))).
Proof. exact (tpm_startup_facts m). Qed.

Lemma region_kept_tpm_add_event_separators_from (n : nat) (pcr rc : Z)
    (m : machine) :
  region_kept m (snd (tpm_add_event_separators_from n pcr rc m)).
Proof.
  revert pcr rc m. induction n as [|n IH]; intros pcr rc m;
    cbn [tpm_add_event_separators_from]; [apply region_kept_refl|].
  pose proof (region_kept_tpm_add_measurement_to_log pcr EV_SEPARATOR zeros 0
                (Some (str_bytes evt_separator)) 4 m) as H.
  destruct (tpm_add_measurement_to_log _ _ _ _ _ _ m) as [rc' m'].
  cbn [snd] in H. destruct (nonzero rc'); [exact H|].
  exact (region_kept_trans _ _ _ H (IH _ _ _)).
Qed.

Lemma region_kept_tpm_add_event_separators (m : machine) :
  region_kept m (snd (tpm_add_event_separators m)).
Proof.
  unfold tpm_add_event_separators, has_working_tpm.
  destruct (negb CONFIG_TCGBIOS); [apply region_kept_refl|].
  pose proof (region_kept_probe_tpm m) as H0.
  destruct (negb _); [exact H0|].
  exact (region_kept_trans _ _ _ H0
           (region_kept_tpm_add_event_separators_from _ _ _ _)).
Qed.

(** X17.  [tpm_prepboot].  The log region is kept and nothing is sent
    to a TPM already marked failed.  With non-zero error codes, a TPM
    that is still working after the call means that nine entries were
    logged: the action string and the eight separators. *)
Theorem tpm_prepboot_contract (m : machine) :
  region_kept m (tpm_prepboot m)
  /\ (failed m -> tpm_prepboot m = m)
  /\ (CONFIG_TCGBIOS = true ->
      TCG_GENERAL_ERROR <> 0 -> TCG_INVALID_INPUT_PARA <> 0 ->
      TCG_PC_LOGOVERFLOW <> 0 ->
      tpm_working (tpm_state (tpm_prepboot m)) = true ->
      entry_count (tpm_state (tpm_prepboot m))
      = u32 (entry_count (tpm_state m) + 9)).
Proof.
  split; [|split].
  - unfold tpm_prepboot, has_working_tpm.
    destruct (negb CONFIG_TCGBIOS); [apply region_kept_refl|].
    pose proof (region_kept_probe_tpm m) as R0.
    destruct (negb _); [exact R0|].
    step_cmd H1 rc rcode b1 m1.
    pose proof (region_kept_trans _ _ _ R0 (region_kept_only_hw _ _ H1)) as R1.
    destruct (cmd_failed rc rcode);
      [exact (region_kept_trans _ _ _ R1 (region_kept_tpm_set_failure m1))|].
    step_cmd H2 rc' rcode' b2 m2.
    pose proof (region_kept_trans _ _ _ R1 (region_kept_only_hw _ _ H2)) as R2.
    destruct (cmd_failed rc' rcode');
      [exact (region_kept_trans _ _ _ R2 (region_kept_tpm_set_failure m2))|].
    pose proof (region_kept_tpm_add_measurement_to_log 4 EV_ACTION
                  (str_bytes (cstr "Calling INT 19h"))
                  (strlen (cstr "Calling INT 19h"))
                  (Some (str_bytes (cstr "Calling INT 19h")))
                  (strlen (cstr "Calling INT 19h")) m2) as R3'.
    unfold tpm_add_action.
    destruct (tpm_add_measurement_to_log 4 _ _ _ _ _ m2) as [rc1 m3].
    cbn [snd] in R3'.
    pose proof (region_kept_trans _ _ _ R2 R3') as R3.
    destruct (nonzero rc1);
      [exact (region_kept_trans _ _ _ R3 (region_kept_tpm_set_failure m3))|].
    pose proof (region_kept_tpm_add_event_separators m3) as R4'.
    destruct (tpm_add_event_separators m3) as [rc2 m4]. cbn [snd] in R4'.
    pose proof (region_kept_trans _ _ _ R3 R4') as R4.
    destruct (nonzero rc2);
      [exact (region_kept_trans _ _ _ R4 (region_kept_tpm_set_failure m4))|].
    exact R4.
  - intros Hf. unfold tpm_prepboot.
    destruct (negb CONFIG_TCGBIOS); [reflexivity|].
    rewrite (failed_has_working_tpm m Hf). reflexivity.
  - intros HC Hg Hi Ho. unfold tpm_prepboot, has_working_tpm.
    rewrite HC. cbn [negb].
    pose proof (probe_tpm_probed m) as Hp.
    assert (Hc : entry_count (tpm_state (probe_tpm m))
                 = entry_count (tpm_state m)) by apply probe_tpm_frame.
    destruct (tpm_working (tpm_state (probe_tpm m))) eqn:Hw; cbn [negb];
      [|congruence].
    step_cmd H1 rc rcode b1 m1.
    destruct (cmd_failed rc rcode);
      [rewrite tpm_set_failure_working; discriminate|].
    step_cmd H2 rc' rcode' b2 m2.
    destruct (cmd_failed rc' rcode');
      [rewrite tpm_set_failure_working; discriminate|].
    destruct (only_hw_fields _ _ (only_hw_trans _ _ _ H1 H2)) as (Fs & _).
    destruct (tpm_add_action _ _ m2) as [rc1 m3] eqn:E3.
    destruct (nonzero rc1) eqn:N1;
      [rewrite tpm_set_failure_working; discriminate|].
    apply nonzero_false in N1. subst rc1.
    destruct (tpm_add_event_separators m3) as [rc2 m4] eqn:E4.
    destruct (nonzero rc2) eqn:N2;
      [rewrite tpm_set_failure_working; discriminate|].
    apply nonzero_false in N2. subst rc2. intros W4.
    unfold tpm_add_action in E3.
    destruct (tpm_add_measurement_to_log_ok _ _ _ _ _ _ _ _ Hg Hi Ho E3)
      as (P3 & C3).
    unfold tpm_add_event_separators, has_working_tpm in E4.
    rewrite HC in E4. cbn [negb] in E4.
    rewrite (probe_tpm_idem m3 P3) in E4.
    destruct (tpm_working (tpm_state m3)) eqn:W3; cbn [negb] in E4;
      [|inversion E4; congruence].
    destruct (tpm_add_event_separators_from_ok 7 Hg Hi Ho _ _ _ _ E4 W4 P3)
      as (_ & C4).
    destruct (C3 eq_refl) as [C3a _].
    rewrite C4, C3a, Fs, Hc, u32_add_l. f_equal. lia.
Qed.

(** X18.  [tpm_s3_resume] never touches the log or memory and leaves
    the shutdown flag alone; nothing is sent to a TPM already marked
    failed; and a TPM that is working after the call means that only
    the probe and the driver world were involved. *)
Theorem tpm_s3_resume_contract (m : machine) :
  same_log m (tpm_s3_resume m)
  /\ if_shutdown (tpm_state (tpm_s3_resume m)) = if_shutdown (tpm_state m)
  /\ (failed m -> tpm_s3_resume m = m)
  /\ (tpm_working (tpm_state (tpm_s3_resume m)) = true ->
      CONFIG_TCGBIOS = false \/ only_hw (probe_tpm m) (tpm_s3_resume m)).
Proof.
  unfold tpm_s3_resume, has_working_tpm.
  destruct CONFIG_TCGBIOS; cbn [negb];
    [|split; [apply same_log_refl|auto]].
  pose proof (same_log_probe_tpm m) as L0.
  pose proof (probe_tpm_globals m) as (_ & _ & S0).
  split; [|split; [|split]].
  - destruct (negb _); [exact L0|].
    step_cmd H1 rc rcode b1 m1.
    pose proof (same_log_trans _ _ _ L0 (same_log_only_hw _ _ H1)) as L1.
    destruct (cmd_failed rc rcode); [|exact L1].
    exact (same_log_trans _ _ _ L1 (same_log_tpm_set_failure m1)).
  - destruct (negb _); [exact S0|].
    step_cmd H1 rc rcode b1 m1.
    destruct (only_hw_fields _ _ H1) as (Fs & _).
    destruct (cmd_failed rc rcode); [|rewrite Fs; exact S0].
    destruct (tpm_set_failure_spec m1) as [d ->]. cbn. rewrite Fs. exact S0.
  - intros Hf. pose proof (failed_has_working_tpm m Hf) as E.
    unfold has_working_tpm in E. inversion E as [[E1 E2]].
    rewrite E2, E1. rewrite E2. reflexivity.
  - destruct (tpm_working (tpm_state (probe_tpm m))) eqn:Hw; cbn [negb];
      [|congruence].
    step_cmd H1 rc rcode b1 m1.
    destruct (cmd_failed rc rcode);
      [rewrite tpm_set_failure_working; discriminate|].
    intros _. right. exact H1.
Qed.

Lemma tpm_acpi_init_smbios (fuel : nat) (m m' : machine) :
  tpm_acpi_init fuel m = Some m' -> SMBiosAddr m' = SMBiosAddr m.
Proof.
  unfold tpm_acpi_init, has_working_tpm.
  set (m1 := upd_state _ m).
  pose proof (probe_tpm_smbios m1) as H1.
  change (SMBiosAddr m1) with (SMBiosAddr m) in H1.
  set (m2 := probe_tpm m1) in *. clearbody m2.
  destruct (negb _).
  - intros H. inversion H. exact H1.
  - unfold reset_acpi_log, get_lasa_base_ptr, find_tcpa_table.
    destruct (nonzero (tcpa (tpm_state m2))).
    + destruct (nonzero (tcpa (tpm_state m2))); intros H; inversion H;
        exact H1.
    + destruct (nonzero (RsdpAddr m2)).
      * unfold find_tcpa_by_rsdp. destruct (_ =? NULL).
        -- cbn. intros H. inversion H. exact H1.
        -- destruct (find_tcpa_loop _ _ _ _ _ _) as [t|]; [|discriminate].
           destruct (nonzero t); cbn; intros H; inversion H; exact H1.
      * cbn. intros H. inversion H. exact H1.
Qed.

(** X19.  [tpm_setup], outside Xen and with non-zero error codes: when
    the TPM is working after setup, the log of the session holds the
    entries of the startup sequence and nothing else: one entry without
    an SMBIOS entry point, two with one. *)
Theorem tpm_setup_outcome (fuel : nat) (m m' : machine) :
  CONFIG_TCGBIOS = true -> runningOnXen = false ->
  TCG_GENERAL_ERROR <> 0 -> TCG_INVALID_INPUT_PARA <> 0 ->
  TCG_PC_LOGOVERFLOW <> 0 -> TCG_TCG_COMMAND_ERROR <> 0 ->
  tpm_setup fuel m = Some m' ->
  tpm_working (tpm_state m') = true ->
  entry_count (tpm_state m') = (if SMBiosAddr m =? NULL then 1 else 2).
Proof.
  intros HC HX Hg Hi Ho He. unfold tpm_setup. rewrite HC, HX. cbn [negb].
  destruct (tpm_acpi_init fuel m) as [m1|] eqn:E1; [|discriminate].
  intros H W. inversion H. subst m'. clear H.
  destruct (tpm_acpi_init_facts fuel m) as (_ & F).
  destruct (F m1 E1) as (P1 & _ & _ & F4). clear F.
  pose proof (tpm_acpi_init_smbios fuel m m1 E1) as Sb.
  destruct (tpm_startup_facts m1) as (_ & _ & S3 & S4).
  cbv zeta in S3, S4.
  destruct (tpm_working (tpm_state m1)) eqn:W1.
  - destruct (F4 eq_refl) as (_ & _ & C0 & _).
    destruct (S4 HC Hg Hi Ho He W) as [_ C].
    rewrite C, C0, Sb. destruct (SMBiosAddr m =? NULL); reflexivity.
  - rewrite (S3 (conj P1 W1)) in W. cbn [snd] in W. congruence.
Qed.

(** ** Measurements that hash first *)

(** X20.  [tpm_option_rom] and [tpm_smbios_measure] keep the log
    region.  A non-zero status either means that the TPM is not working
    afterwards, or it is the status of [sha1], in which case nothing but
    the probe has happened: the TPM is not marked failed and nothing is
    logged.  With non-zero error codes, status 0 with the TPM working
    afterwards means one more entry, except that [tpm_smbios_measure]
    logs nothing when there is no SMBIOS entry point. *)
Theorem hashed_measurements_contract (m : machine) :
  CONFIG_TCGBIOS = true ->
  (forall addr len,
     let r := tpm_option_rom addr len m in
     region_kept m (snd r)
     /\ (fst r <> 0 ->
         tpm_working (tpm_state (snd r)) = false
         \/ (snd r = probe_tpm m
             /\ fst r = fst (sha1 (deref (ram (probe_tpm m)) addr) len)))
     /\ (TCG_GENERAL_ERROR <> 0 -> TCG_INVALID_INPUT_PARA <> 0 ->
         TCG_PC_LOGOVERFLOW <> 0 ->
         fst r = 0 -> tpm_working (tpm_state (snd r)) = true ->
         entry_count (tpm_state (snd r))
         = u32 (entry_count (tpm_state m) + 1)))
  /\ (let r := tpm_smbios_measure m in
      let sep := SMBiosAddr m in
      region_kept m (snd r)
      /\ (fst r <> 0 ->
          tpm_working (tpm_state (snd r)) = false
          \/ (snd r = probe_tpm m
              /\ fst r
                 = fst (sha1
                          (deref (ram (probe_tpm m))
                             (le32_at (deref (ram (probe_tpm m)) sep)
                                offsetof_sep_structure_table_address))
                          (le16_at (deref (ram (probe_tpm m)) sep)
                             offsetof_sep_structure_table_length))))
      /\ (TCG_GENERAL_ERROR <> 0 -> TCG_INVALID_INPUT_PARA <> 0 ->
          TCG_PC_LOGOVERFLOW <> 0 ->
          fst r = 0 -> tpm_working (tpm_state (snd r)) = true ->
          entry_count (tpm_state (snd r))
          = if sep =? NULL then entry_count (tpm_state m)
            else u32 (entry_count (tpm_state m) + 1))).
Proof.
  intros HC.
  pose proof (probe_tpm_probed m) as Hp.
  pose proof (region_kept_probe_tpm m) as R0.
  assert (Hc : entry_count (tpm_state (probe_tpm m))
               = entry_count (tpm_state m)) by apply probe_tpm_frame.
  split.
  - intros addr len. cbv zeta. unfold tpm_option_rom, has_working_tpm.
    rewrite HC. cbn [negb].
    destruct (tpm_working (tpm_state (probe_tpm m))) eqn:Hw; cbn [negb].
    2:{ cbn [fst snd]. split; [exact R0|]. split; [auto|]. congruence. }
    destruct (sha1 _ _) as [rc dg]. cbn [fst].
    destruct (nonzero rc) eqn:E.
    { cbn [fst snd]. split; [exact R0|]. split; [auto|].
      apply nonzero_true in E. congruence. }
    match goal with
    | |- context [tpm_add_measurement_to_log ?a ?b ?c ?d ?e ?f ?g] =>
        pose proof (region_kept_tpm_add_measurement_to_log a b c d e f g)
          as R1;
        pose proof (tpm_add_measurement_to_log_error a b c d e f g
                      ltac:(lia)) as E1;
        destruct (tpm_add_measurement_to_log a b c d e f g) as [rc' m']
          eqn:Em
    end.
    cbn [fst snd] in *.
    split; [exact (region_kept_trans _ _ _ R0 R1)|].
    split; [intros H; left; apply E1; exact H|].
    intros Hg Hi Ho H0 W. subst rc'.
    destruct (tpm_add_measurement_to_log_ok _ _ _ _ _ _ _ _ Hg Hi Ho Em)
      as (_ & C).
    destruct (C W) as [C1 _]. rewrite C1, Hc. reflexivity.
  - cbv zeta. split; [apply region_kept_tpm_smbios_measure|].
    split.
    + unfold tpm_smbios_measure, has_working_tpm.
      rewrite HC. cbn [negb].
      destruct (tpm_working (tpm_state (probe_tpm m))) eqn:Hw; cbn [negb];
        [|cbn [fst snd]; auto].
      rewrite (probe_tpm_smbios m).
      destruct (SMBiosAddr m =? NULL); [cbn [fst]; congruence|].
      destruct (sha1 _ _) as [rc dg]. cbn [fst].
      destruct (nonzero rc) eqn:E; [cbn [fst snd]; auto|].
      intros H. left. revert H. apply tpm_add_measurement_to_log_error. lia.
    + intros Hg Hi Ho H0 W.
      destruct (tpm_smbios_measure m) as [rc m'] eqn:Em.
      cbn [fst snd] in *. subst rc.
      destruct (tpm_smbios_measure_ok m m' HC Hg Hi Ho Em) as (_ & C).
      exact (C W).
Qed.

(** ** A scan that does not end *)

Lemma find_tcpa_loop_runs (r : mem) (rsdt length : Z) :
  2 ^ 16 + 3 <= length ->
  forall (fuel : nat) (off ctr : Z),
    0 <= off < 2 ^ 16 -> 0 <= ctr < 2 ^ 32 ->
    (forall k, (k < fuel)%nat ->
       tcpa_valid r (rsdt_entry r rsdt (u32 (ctr + Z.of_nat k))) = false) ->
    find_tcpa_loop fuel r rsdt length off ctr = None.
Proof.
  intros Hlen. induction fuel as [|fuel IH]; intros off ctr Hoff Hctr Hv;
    cbn [find_tcpa_loop]; [reflexivity|].
  unfold sizeof_rsdt_entry in *.
  destruct (Z.leb_spec (off + 4) length) as [_|G]; [|lia].
  pose proof (Hv O ltac:(lia)) as H0.
  rewrite Z.add_0_r, u32_small in H0 by lia. rewrite H0.
  apply IH.
  - unfold u16. apply Z.mod_pos_bound. lia.
  - apply u32_range.
  - intros k Hk. specialize (Hv (S k) ltac:(lia)).
    rewrite u32_add_l. rewrite <- Hv. do 3 f_equal. lia.
Qed.

(** X21.  For a root table whose length field is 64 KiB + 3 or more,
    the scan of [find_tcpa_by_rsdp] does not stop at the end of the
    table: the 16-bit offset wraps before it can pass the length, so
    the loop goes on for as long as the entries it reads, inside the
    table or beyond it, are not valid.  No amount of fuel that meets
    only invalid entries yields a result. *)
Theorem find_tcpa_by_rsdp_unbounded (fuel : nat) (rsdp : Z) (m : machine) :
  let rsdt := le32_at (deref (ram m) rsdp)
                offsetof_rsdp_rsdt_physical_address in
  let length := le32_at (deref (ram m) rsdt) offsetof_rsdt_length in
  rsdt <> NULL ->
  2 ^ 16 + 3 <= length ->
  (forall k, (k < fuel)%nat ->
     tcpa_valid (ram m) (rsdt_entry (ram m) rsdt (u32 (Z.of_nat k))) = false) ->
  find_tcpa_by_rsdp fuel rsdp m = None.
Proof.
  intros rsdt length Hr Hl Hv. unfold find_tcpa_by_rsdp.
  fold rsdt. fold length.
  destruct (Z.eqb_spec rsdt NULL) as [E|_]; [contradiction|].
  rewrite (find_tcpa_loop_runs (ram m) rsdt length Hl fuel
             (u16 offsetof_rsdt_entry) 0); [reflexivity| | |].
  - unfold u16. apply Z.mod_pos_bound. lia.
  - lia.
  - intros k Hk. apply Hv. exact Hk.
Qed.

(** ** Two small contracts *)

(** X22.  [hash_all_int] hands out a digest exactly when the interface
    is open and the block passes all four checks (block length, data
    pointer, data length, algorithm); then status and digest are those
    of [sha1] over the caller's data.  Otherwise the status is
    [TCG_INTERFACE_SHUTDOWN] when the interface is shut down and
    [TCG_INVALID_INPUT_PARA] when it is open. *)
Theorem hash_all_int_contract (hai : hai_t) (m : machine) :
  let r := hash_all_int hai m in
  let ok := if_shutdown (tpm_state m) = false
            /\ hai_ipblength hai = sizeof_hai
            /\ hai_hashdataptr hai <> 0
            /\ hai_hashdatalen hai <> 0
            /\ hai_algorithmid hai = TPM_ALG_SHA in
  (snd r <> None <-> ok)
  /\ (ok ->
      r = (fst (sha1 (deref (ram m) (hai_hashdataptr hai))
                  (hai_hashdatalen hai)),
           Some (snd (sha1 (deref (ram m) (hai_hashdataptr hai))
                        (hai_hashdatalen hai)))))
  /\ (snd r = None ->
      fst r = if if_shutdown (tpm_state m) then TCG_INTERFACE_SHUTDOWN
              else TCG_INVALID_INPUT_PARA).
Proof.
  cbv zeta. unfold hash_all_int.
  rewrite nonzero_is_preboot_if_shutdown.
  destruct (if_shutdown (tpm_state m)).
  { cbn [fst snd]. split; [|split]; [split| |reflexivity].
    - intros H. contradiction.
    - intros (H & _). discriminate.
    - intros (H & _). discriminate. }
  destruct (Z.eqb_spec (hai_ipblength hai) sizeof_hai) as [E1|E1];
    cbn [negb orb].
  2:{ cbn [fst snd]. split; [|split]; [split| |reflexivity].
      - intros H. contradiction.
      - intros (_ & H & _). contradiction.
      - intros (_ & H & _). contradiction. }
  destruct (Z.eqb_spec (hai_hashdataptr hai) 0) as [E2|E2]; cbn [orb].
  { cbn [fst snd]. split; [|split]; [split| |reflexivity].
    - intros H. contradiction.
    - intros (_ & _ & H & _). contradiction.
    - intros (_ & _ & H & _). contradiction. }
  destruct (Z.eqb_spec (hai_hashdatalen hai) 0) as [E3|E3]; cbn [orb].
  { cbn [fst snd]. split; [|split]; [split| |reflexivity].
    - intros H. contradiction.
    - intros (_ & _ & _ & H & _). contradiction.
    - intros (_ & _ & _ & H & _). contradiction. }
  destruct (Z.eqb_spec (hai_algorithmid hai) TPM_ALG_SHA) as [E4|E4];
    cbn [negb].
  2:{ cbn [fst snd]. split; [|split]; [split| |reflexivity].
      - intros H. contradiction.
      - intros (_ & _ & _ & _ & H). contradiction.
      - intros (_ & _ & _ & _ & H). contradiction. }
  destruct (sha1 _ _) as [rc dg]. cbn [fst snd].
  split; [|split].
  - split; [intros _; auto 6|discriminate].
  - reflexivity.
  - discriminate.
Qed.

(** X23.  [tpm_set_failure] sends its three commands ignoring every
    error and clears the working flag: whatever the transport does, the
    tracker afterwards is the one before with [tpm_working] cleared, and
    memory and the two table pointers are as they were.  Marking twice
    gives the same tracker as marking once. *)
Theorem tpm_set_failure_contract (m : machine) :
  tpm_state (tpm_set_failure m) = set_tpm_working false (tpm_state m)
  /\ ram (tpm_set_failure m) = ram m
  /\ RsdpAddr (tpm_set_failure m) = RsdpAddr m
  /\ SMBiosAddr (tpm_set_failure m) = SMBiosAddr m
  /\ tpm_state (tpm_set_failure (tpm_set_failure m))
     = tpm_state (tpm_set_failure m).
Proof.
  destruct (tpm_set_failure_spec m) as [d E].
  destruct (tpm_set_failure_spec (tpm_set_failure m)) as [d' E'].
  rewrite E'. rewrite E. repeat split.
Qed.

End Proofs.

(** * Concrete runs *)

#[local] Existing Instance tcg_1_2.
#[local] Existing Instance acpi_1_0.
#[local] Existing Instance blocks_1_2.

(** C1 at the failing input: the stub driver accepts the extend
    command and reports a response of 29 bytes, one short of
    [sizeof_tpm_rsp_extend].  The pipeline returns 0, which is not
    [TCG_FATAL_COM_ERROR], and the TPM is marked failed. *)
Lemma tpm_log_extend_event_short_response_witness :
  let m := stub_machine 29 true false 0x100000 4096 zeros in
  (has_working_tpm m = (true, m)
   /\ pcrindex entry_1 < 24
   /\ transmit 0 (tpm_req_extend_image entry_1) zeros sizeof_tpm_rsp_extend
        TPM_DURATION_TYPE_SHORT m = ((0, zeros, 29), @set_hw (stub_platform 29) 1%nat m)
   /\ 29 <> sizeof_tpm_rsp_extend)
  /\ (tpm_log_extend_event entry_1 zeros m
      = (0, tpm_set_failure (@set_hw (stub_platform 29) 1%nat m))
      /\ fst (has_working_tpm (tpm_set_failure (@set_hw (stub_platform 29) 1%nat m))) = false)
  /\ 0 <> TCG_FATAL_COM_ERROR.
Proof.
  intros m.
  assert (H1 : has_working_tpm m = (true, m)) by reflexivity.
  assert (H2 : pcrindex entry_1 < 24) by (simpl; lia).
  assert (H3 : transmit 0 (tpm_req_extend_image entry_1) zeros
                 sizeof_tpm_rsp_extend TPM_DURATION_TYPE_SHORT m
               = ((0, zeros, 29), @set_hw (stub_platform 29) 1%nat m)) by reflexivity.
  assert (H4 : 29 <> sizeof_tpm_rsp_extend) by (vm_compute; lia).
  split; [repeat split; assumption|].
  split; [|vm_compute; lia].
  exact (tpm_log_extend_event_short_response entry_1 zeros m m
           (@set_hw (stub_platform 29) 1%nat m) 29 zeros H1 H2 H3 H4).
Defined.

(** C2 at the failing input: an empty log of 4096 bytes at 0x100000 and
    an entry whose [eventdatasize] is 0xfffffff0. *)
Lemma tpm_log_event_size_wraps_witness :
  let m := stub_machine 30 true false 0x100000 4096 zeros in
  let s := tpm_state m in
  log_area_next_entry s - log_area_start_address s
    + sizeof_pcpes + eventdatasize entry_wrapping
    > log_area_minimum_length s
  /\ exists m',
       tpm_log_event entry_wrapping (fun _ => 0xee) m = (0, m')
       /\ entry_count (tpm_state m') = u32 (entry_count s + 1)
       /\ forall a,
            log_area_next_entry s + sizeof_pcpes <= a < 2 ^ 32 ->
            ram m' a
            = (fun _ : Z => 0xee) (a - (log_area_next_entry s + sizeof_pcpes)).
Proof.
  intros m s.
  apply (tpm_log_event_size_wraps entry_wrapping (fun _ => 0xee) m);
    vm_compute; repeat split; intros; discriminate.
Defined.

(** The same run evaluated: status 0, one entry counted, the cursor 16
    bytes further, and the bytes at and beyond the end of the region
    overwritten with the body. *)
Example tpm_log_event_size_wraps_run :
  let m := stub_machine 30 true false 0x100000 4096 zeros in
  let r := tpm_log_event entry_wrapping (fun _ => 0xee) m in
  fst r = 0
  /\ fst r <> TCG_PC_LOGOVERFLOW
  /\ entry_count (tpm_state (snd r)) = 1
  /\ log_area_next_entry (tpm_state (snd r)) = 0x100000 + 16
  /\ ram m (0x100000 + 4096) = 0
  /\ ram (snd r) (0x100000 + 4096) = 0xee
  /\ ram (snd r) (0x100000 + 8192) = 0xee.
Proof. vm_compute. repeat split; discriminate. Qed.

(** The same defect reached through the dispatcher: the validation of
    [hash_log_event_int] compares [logdatalen] with the wrapped sum and
    lets the entry through. *)
Example hash_log_event_int_size_wraps_run :
  let m := stub_machine 30 true false 0x100000 4096 ram_entry_wrapping in
  let r := hash_log_event_int hlei_wrapping hleo_0 m in
  fst (fst r) = 0
  /\ hleo_eventnumber (snd (fst r)) = 1
  /\ log_area_next_entry (tpm_state (snd r)) = 0x100000 + 16
  /\ ram m (0x100000 + 4096) = 0
  /\ ram (snd r) (0x100000 + 32) = 0x11
  /\ ram (snd r) (0x100000 + 35) = 0x44.
Proof. vm_compute. repeat split; discriminate. Qed.




(** The digest store of hash-log-extend-event on a failed TPM: the
    request names an entry of the log as the entry to extend, the call
    returns [TCG_GENERAL_ERROR], and the 20 digest bytes of that entry
    have been overwritten; its other bytes and the tracker are as they
    were. *)
Example failed_tpm_digest_reaches_log :
  let m := tpm_set_failure logged_machine in
  let r := hash_log_extend_event_int hleei_logged hleeo_0 0 m in
  failed m
  /\ log_area_start_address (tpm_state m) = 0x100000
  /\ entry_count (tpm_state m) = 1
  /\ fst (fst r) = TCG_GENERAL_ERROR
  /\ entry_count (tpm_state (snd r)) = 1
  /\ ram m 0x100008 = 0
  /\ ram (snd r) 0x100008 = 0xab
  /\ ram (snd r) 0x10001b = 0xab
  /\ ram (snd r) 0x100007 = 0
  /\ ram (snd r) 0x10001c = 4.
Proof. vm_compute. repeat split; discriminate. Qed.





(** C6 (counterexample).  A root pointer is present and the root table
    holds no valid TCPA table: the locator returns [NULL] and the
    interface is not disabled. *)
Lemma find_tcpa_table_no_table_keeps_interface :
  let m := acpi_machine 0x1000 ram_rsdt_no_tcpa in
  RsdpAddr m <> NULL
  /\ option_map fst (find_tcpa_table 8 m) = Some NULL
  /\ option_map (fun x => if_shutdown (tpm_state (snd x)))
       (find_tcpa_table 8 m) = Some false.
Proof. vm_compute. repeat split; discriminate. Qed.

(** C6 (amended) on a root table whose second entry is the first valid
    one. *)
Lemma find_tcpa_table_spec_witness :
  let m := acpi_machine 0x1000 ram_rsdt_tcpa in
  let rsdt := le32_at (deref (ram m) (RsdpAddr m))
                offsetof_rsdp_rsdt_physical_address in
  let length := le32_at (deref (ram m) rsdt) offsetof_rsdt_length in
  let t := first_valid (ram m) rsdt (rsdt_entries length) 0 in
  (tcpa (tpm_state m) = NULL /\ RsdpAddr m <> NULL /\ rsdt <> NULL
   /\ length < 2 ^ 16 /\ (rsdt_entries length < 8)%nat)
  /\ find_tcpa_table 8 m
     = Some (t, if nonzero t then upd_state (set_tcpa t) m else m)
  /\ t = 0x4000.
Proof.
  intros m rsdt length t.
  assert (H1 : tcpa (tpm_state m) = NULL) by reflexivity.
  assert (H2 : RsdpAddr m <> NULL) by (vm_compute; lia).
  assert (H3 : rsdt <> NULL) by (vm_compute; lia).
  assert (H4 : length < 2 ^ 16) by (vm_compute; reflexivity).
  assert (H5 : (rsdt_entries length < 8)%nat) by (vm_compute; lia).
  split; [repeat split; assumption|].
  split; [|vm_compute; reflexivity].
  exact (proj1 (proj2 (proj2 (proj2 (find_tcpa_table_spec 8 m)))
                  H1 H2 H3 H4 H5)).
Defined.

(** C8 after locating that table. *)
Lemma reset_acpi_log_established_witness :
  let m := acpi_machine 0x1000 ram_rsdt_tcpa in
  let m1 := upd_state (set_tcpa 0x4000) m in
  (find_tcpa_table 8 m = Some (0x4000, m1) /\ 0x4000 <> NULL
   /\ le32_at (deref (ram m1) 0x4000) offsetof_tcpa_log_area_start_address
      <> NULL)
  /\ ram m 0x100010 = 0x77
  /\ exists m',
       reset_acpi_log 8 m = Some m'
       /\ log_area_start_address (tpm_state m') = 0x100000
       /\ log_area_minimum_length (tpm_state m') = 0x1000
       /\ (forall a, 0x100000 <= a < 0x100000 + 0x1000 -> ram m' a = 0)
       /\ log_area_next_entry (tpm_state m') = 0x100000
       /\ log_area_last_entry (tpm_state m') = NULL
       /\ entry_count (tpm_state m') = 0.
Proof.
  intros m m1.
  assert (H1 : find_tcpa_table 8 m = Some (0x4000, m1)) by reflexivity.
  assert (H2 : 0x4000 <> NULL) by (vm_compute; lia).
  assert (H3 : le32_at (deref (ram m1) 0x4000)
                 offsetof_tcpa_log_area_start_address <> NULL)
    by (vm_compute; lia).
  split; [repeat split; assumption|].
  split; [reflexivity|].
  exact (reset_acpi_log_established 8 m m1 0x4000 H1 H2 H3).
Defined.

(** C9 at the failing input, on a failed TPM.  The request is valid and
    the log has room for its entry of 36 bytes, which fills it.  The
    call returns 0, the body is copied with the length 0x104 found in
    the caller's entry after the header copy, not the 4 that was
    validated, and the byte behind the end of the log region changes.
    With the entry of [ram_entry], apart from the log, the entry is
    appended as it is. *)
Lemma hash_log_event_int_log_only_witness :
  let m := stub_machine 30 false false 0x100000 36 ram_entry_over_log in
  let r := hash_log_event_int hlei_over_log hleo_0 m in
  let m' := stub_machine 30 false false 0x100000 4096 ram_entry in
  let r' := hash_log_event_int hlei_1 hleo_0 m' in
  (tpm_working (tpm_state m) = false
   /\ if_shutdown (tpm_state m) = false
   /\ hlei_valid hlei_over_log
        (load_pcpes (ram m) (hlei_logdataptr hlei_over_log))
   /\ log_has_room m
        (eventdatasize (load_pcpes (ram m) (hlei_logdataptr hlei_over_log)))
   /\ eventdatasize (load_pcpes (ram m) (hlei_logdataptr hlei_over_log)) = 4
   /\ log_area_start_address (tpm_state m)
      + log_area_minimum_length (tpm_state m) = 0x100024)
  /\ (fst (fst r) = 0
      /\ ram m 0x100024 = 0
      /\ ram (snd r) 0x100024 = 4)
  /\ (if_shutdown (tpm_state m') = false
      /\ hlei_valid hlei_1 (load_pcpes (ram m') (hlei_logdataptr hlei_1))
      /\ log_has_room m'
           (eventdatasize (load_pcpes (ram m') (hlei_logdataptr hlei_1)))
      /\ entry_apart (hlei_logdataptr hlei_1)
           (log_area_next_entry (tpm_state m'))
           (eventdatasize (load_pcpes (ram m') (hlei_logdataptr hlei_1))))
  /\ fst (fst r') = 0
  /\ entry_count (tpm_state (snd r')) = u32 (entry_count (tpm_state m') + 1)
  /\ log_area_last_entry (tpm_state (snd r'))
     = log_area_next_entry (tpm_state m').
Proof.
  intros m r m' r'.
  assert (H0 : tpm_working (tpm_state m) = false) by reflexivity.
  assert (H1 : if_shutdown (tpm_state m) = false) by reflexivity.
  assert (H2 : hlei_valid hlei_over_log
                 (load_pcpes (ram m) (hlei_logdataptr hlei_over_log)))
    by (vm_compute; repeat split; intros; discriminate).
  assert (H3 : log_has_room m
                 (eventdatasize
                    (load_pcpes (ram m) (hlei_logdataptr hlei_over_log))))
    by (vm_compute; repeat split; intros; discriminate).
  assert (H4 : eventdatasize
                 (load_pcpes (ram m) (hlei_logdataptr hlei_over_log)) = 4)
    by reflexivity.
  assert (H5 : log_area_start_address (tpm_state m)
               + log_area_minimum_length (tpm_state m) = 0x100024)
    by reflexivity.
  assert (H1' : if_shutdown (tpm_state m') = false) by reflexivity.
  assert (H2' : hlei_valid hlei_1
                  (load_pcpes (ram m') (hlei_logdataptr hlei_1)))
    by (vm_compute; repeat split; intros; discriminate).
  assert (H3' : log_has_room m'
                  (eventdatasize
                     (load_pcpes (ram m') (hlei_logdataptr hlei_1))))
    by (vm_compute; repeat split; intros; discriminate).
  assert (H4' : entry_apart (hlei_logdataptr hlei_1)
                  (log_area_next_entry (tpm_state m'))
                  (eventdatasize
                     (load_pcpes (ram m') (hlei_logdataptr hlei_1))))
    by (vm_compute; repeat split; intros; try discriminate;
        left; discriminate).
  pose proof (proj2 (proj2 (hash_log_event_int_log_only hlei_over_log
                              hleo_0 m)) H1 H2 H3) as (G1 & G2 & _).
  pose proof (proj2 (proj2 (hash_log_event_int_log_only hlei_1 hleo_0 m'))
                H1' H2' H3') as (G1' & _ & G3').
  destruct (G3' H4') as (G4' & _ & G5' & _).
  assert (G6 : ram (snd r) 0x100024 = 4)
    by (unfold r; rewrite G2; vm_compute; reflexivity).
  exact (conj (conj H0 (conj H1 (conj H2 (conj H3 (conj H4 H5)))))
           (conj (conj G1 (conj eq_refl G6))
              (conj (conj H1' (conj H2' (conj H3' H4')))
                 (conj G1' (conj G4' G5'))))).
Defined.

(** C10 at the failing input.  The driver answers the extend command
    with 29 bytes, one short of [sizeof_tpm_rsp_extend]: the compact
    call returns 0 with the entry count 0 of the empty log in [edx],
    the TPM is marked failed and nothing is appended.  With a response
    of the right length, and for hash-log-event, the number handed
    back is the entry count after the append. *)
Lemma eventnumber_is_entry_count_witness :
  let m := stub_machine 29 true false 0x100000 4096 zeros in
  let m1 := @set_hw (stub_platform 29) 1%nat m in
  let pcpes :=
    @tpm_fill_hash (stub_platform 29)
      {| pcrindex := 1; eventtype := EV_COMPACT_HASH;
         digest := zeros; eventdatasize := 4 |}
      (hash_src m 0) 0 in
  let c := compact_hash_log_extend_event_int 0 0x1234 0 1 7 m in
  let m' := stub_machine 30 true false 0x100000 4096 ram_entry in
  let r := hash_log_event_int hlei_1 hleo_0 m' in
  (TCG_INTERFACE_SHUTDOWN <> 0 /\ TCG_INVALID_INPUT_PARA <> 0
   /\ TCG_GENERAL_ERROR <> 0 /\ TCG_PC_LOGOVERFLOW <> 0)
  /\ (if_shutdown (tpm_state m) = false
      /\ has_working_tpm m = (true, m)
      /\ 1 < 24
      /\ transmit 0 (tpm_req_extend_image pcpes) zeros sizeof_tpm_rsp_extend
           TPM_DURATION_TYPE_SHORT m = ((0, zeros, 29), m1)
      /\ 29 <> sizeof_tpm_rsp_extend)
  /\ (c = ((0, entry_count (tpm_state m)), tpm_set_failure m1)
      /\ same_log m (tpm_set_failure m1)
      /\ entry_count (tpm_state m) = 0
      /\ tpm_working (tpm_state (snd c)) = false)
  /\ r = ((0, snd (fst r)), snd r)
  /\ hleo_eventnumber (snd (fst r)) = entry_count (tpm_state (snd r))
  /\ entry_count (tpm_state (snd r)) = u32 (entry_count (tpm_state m') + 1).
Proof.
  intros m m1 pcpes c m' r.
  assert (H1 : TCG_INTERFACE_SHUTDOWN <> 0) by (vm_compute; lia).
  assert (H2 : TCG_INVALID_INPUT_PARA <> 0) by (vm_compute; lia).
  assert (H3 : TCG_GENERAL_ERROR <> 0) by (vm_compute; lia).
  assert (H4 : TCG_PC_LOGOVERFLOW <> 0) by (vm_compute; lia).
  assert (S1 : if_shutdown (tpm_state m) = false) by reflexivity.
  assert (S2 : has_working_tpm m = (true, m)) by reflexivity.
  assert (S3 : 1 < 24) by lia.
  assert (S4 : transmit 0 (tpm_req_extend_image pcpes) zeros
                 sizeof_tpm_rsp_extend TPM_DURATION_TYPE_SHORT m
               = ((0, zeros, 29), m1)) by reflexivity.
  assert (S5 : 29 <> sizeof_tpm_rsp_extend) by (vm_compute; lia).
  assert (H5 : r = ((0, snd (fst r)), snd r)) by reflexivity.
  pose proof (eventnumber_is_entry_count (P := stub_platform 29)
                H1 H2 H3 H4) as (_ & _ & G3).
  pose proof (eventnumber_is_entry_count (P := stub_platform 30)
                H1 H2 H3 H4) as (G1 & _).
  destruct (G3 0 0x1234 0 1 7 m m m1 29 zeros S1 S2 S3 S4 S5) as [C1 C2].
  destruct (G1 hlei_1 hleo_0 m' (snd (fst r)) (snd r) H5) as [E1 E2].
  assert (C3 : tpm_working (tpm_state (snd c)) = false)
    by (unfold c; rewrite C1; apply tpm_set_failure_working).
  exact (conj (conj H1 (conj H2 (conj H3 H4)))
           (conj (conj S1 (conj S2 (conj S3 (conj S4 S5))))
              (conj (conj C1 (conj C2 (conj eq_refl C3)))
                 (conj H5 (conj E1 E2))))).
Defined.

(** * Concrete runs of the further properties *)

#[local] Existing Instance stub_startup.

(** X1 on an empty log: the caller's entry at 0x2000, PCR 1 with the
    body 11 22 33 44, reads back from 0x100000. *)
Lemma tpm_log_event_read_back_witness :
  let m := stub_machine 30 true false 0x100000 4096 ram_entry in
  let r := tpm_log_event_at 0x2000 (u32 (0x2000 + sizeof_pcpes)) m in
  let q := load_pcpes (ram (snd r)) 0x100000 in
  (log_has_room m (eventdatasize (load_pcpes (ram m) 0x2000))
   /\ entry_apart 0x2000 (log_area_next_entry (tpm_state m))
        (eventdatasize (load_pcpes (ram m) 0x2000)))
  /\ fst r = 0
  /\ pcrindex q = 1
  /\ eventtype q = 6
  /\ eventdatasize q = 4
  /\ ram (snd r) 0x100020 = 0x11
  /\ ram (snd r) 0x100023 = 0x44.
Proof.
  intros m r q.
  assert (H1 : log_has_room m (eventdatasize (load_pcpes (ram m) 0x2000)))
    by (vm_compute; repeat split; intros; discriminate).
  assert (H2 : entry_apart 0x2000 (log_area_next_entry (tpm_state m))
                 (eventdatasize (load_pcpes (ram m) 0x2000)))
    by (vm_compute; repeat split; intros; try discriminate;
        left; discriminate).
  destruct (tpm_log_event_read_back 0x2000 m H1 H2)
    as (G1 & G2 & G3 & G4 & _ & G6 & _).
  pose proof (G6 0 ltac:(vm_compute; split; [discriminate|reflexivity]))
    as B0.
  pose proof (G6 3 ltac:(vm_compute; split; [discriminate|reflexivity]))
    as B3.
  exact (conj (conj H1 H2)
           (conj G1 (conj G2 (conj G3 (conj G4 (conj B0 B3)))))).
Defined.

(** X2 on an empty log of 4096 bytes at 0x100000. *)
Lemma log_region_invariant_witness :
  let m := ready_machine in
  let m' := snd (tpm_log_extend_event entry_1 zeros m) in
  (log_region_ok (tpm_state m)
   /\ 0 <= eventdatasize entry_1
   /\ log_area_next_entry (tpm_state m) + sizeof_pcpes
      + eventdatasize entry_1 < 2 ^ 32)
  /\ log_region_ok (tpm_state m')
  /\ same_region (tpm_state m) (tpm_state m')
  /\ ram m' 0x101000 = ram m 0x101000.
Proof.
  intros m m'.
  assert (H1 : log_region_ok (tpm_state m))
    by (vm_compute; repeat split; intros; discriminate).
  assert (H2 : 0 <= eventdatasize entry_1) by (vm_compute; discriminate).
  assert (H3 : log_area_next_entry (tpm_state m) + sizeof_pcpes
               + eventdatasize entry_1 < 2 ^ 32) by (vm_compute; reflexivity).
  destruct (proj2 (log_region_invariant entry_1 zeros m H1 H2 H3))
    as (G1 & G2 & G3).
  assert (A1 : 0 <= 0x101000 < 2 ^ 32)
    by (vm_compute; split; [discriminate|reflexivity]).
  assert (A2 : 0x101000 < log_area_start_address (tpm_state m)
               \/ log_area_start_address (tpm_state m)
                  + log_area_minimum_length (tpm_state m) <= 0x101000)
    by (right; vm_compute; discriminate).
  exact (conj (conj H1 (conj H2 H3)) (conj G1 (conj G2 (G3 _ A1 A2)))).
Defined.

(** X3 with a driver that accepts the extend command. *)
Lemma tpm_log_extend_event_after_extend_witness :
  let m := ready_machine in
  let m1 := @set_hw (stub_platform 30) 1%nat m in
  let r := tpm_log_event entry_1 zeros m1 in
  (has_working_tpm m = (true, m)
   /\ pcrindex entry_1 < 24
   /\ transmit 0 (tpm_req_extend_image entry_1) zeros sizeof_tpm_rsp_extend
        TPM_DURATION_TYPE_SHORT m = ((0, zeros, sizeof_tpm_rsp_extend), m1)
   /\ fst r = 0)
  /\ tpm_log_extend_event entry_1 zeros m = (0, snd r)
  /\ tpm_working (tpm_state (snd r)) = true.
Proof.
  intros m m1 r.
  assert (H1 : has_working_tpm m = (true, m)) by reflexivity.
  assert (H2 : pcrindex entry_1 < 24) by (simpl; lia).
  assert (H3 : transmit 0 (tpm_req_extend_image entry_1) zeros
                 sizeof_tpm_rsp_extend TPM_DURATION_TYPE_SHORT m
               = ((0, zeros, sizeof_tpm_rsp_extend), m1)) by reflexivity.
  assert (H4 : fst r = 0) by reflexivity.
  split; [exact (conj H1 (conj H2 (conj H3 H4)))|].
  exact (proj1 (tpm_log_extend_event_after_extend entry_1 zeros m m m1 zeros
                  H1 H2 H3) H4).
Defined.

(** X4 on a failed TPM: the action is refused and the TPM stays
    failed. *)
Lemma measurement_error_degrades_witness :
  let m := failed_machine in
  let r := tpm_add_action 4 (cstr "Calling INT 19h") m in
  (4 < 24 /\ fst r <> 0)
  /\ tpm_working (tpm_state (snd r)) = false.
Proof.
  intros m r.
  assert (H1 : 4 < 24) by lia.
  assert (H2 : fst r <> 0) by (vm_compute; discriminate).
  split; [split; assumption|].
  exact (proj1 (proj2 (measurement_error_degrades m))
           4 (cstr "Calling INT 19h") H1 H2).
Defined.

(** X5: the eight separators on an empty log. *)
Lemma boot_measurements_counted_witness :
  let m := ready_machine in
  let r := tpm_add_event_separators m in
  (@CONFIG_TCGBIOS (stub_platform 30) = true
   /\ TCG_GENERAL_ERROR <> 0 /\ TCG_INVALID_INPUT_PARA <> 0
   /\ TCG_PC_LOGOVERFLOW <> 0
   /\ tpm_working (tpm_state (snd r)) = true
   /\ r = (0, snd r))
  /\ entry_count (tpm_state (snd r)) = u32 (entry_count (tpm_state m) + 8).
Proof.
  intros m r.
  assert (H0 : @CONFIG_TCGBIOS (stub_platform 30) = true) by reflexivity.
  assert (H1 : TCG_GENERAL_ERROR <> 0) by (vm_compute; lia).
  assert (H2 : TCG_INVALID_INPUT_PARA <> 0) by (vm_compute; lia).
  assert (H3 : TCG_PC_LOGOVERFLOW <> 0) by (vm_compute; lia).
  assert (H4 : tpm_working (tpm_state (snd r)) = true) by (vm_compute; reflexivity).
  assert (H5 : r = (0, snd r)).
  { assert (E : fst r = 0) by (vm_compute; reflexivity).
    clearbody r. destruct r as [rc m']. cbn [fst snd] in *.
    rewrite E. reflexivity. }
  split; [exact (conj H0 (conj H1 (conj H2 (conj H3 (conj H4 H5)))))|].
  exact (proj1 (proj2 (boot_measurements_counted m (snd r) H0 H1 H2 H3 H4))
           H5).
Defined.


(** X7 on a tracker without a driver. *)
Lemma transmit_contract_witness :
  let m := acpi_machine 0 zeros in
  tpm_driver_to_use (tpm_state m) = TPM_INVALID_DRIVER
  /\ transmit 0 zeros zeros 64 TPM_DURATION_TYPE_SHORT m
     = ((TCG_FATAL_COM_ERROR, zeros, 64), m).
Proof.
  intros m.
  assert (H : tpm_driver_to_use (tpm_state m) = TPM_INVALID_DRIVER)
    by reflexivity.
  split; [exact H|].
  exact (proj2 (proj2 (transmit_contract 0 zeros zeros 64
                         TPM_DURATION_TYPE_SHORT m)) H).
Defined.

(** X8 with a payload of 21 bytes. *)
Lemma build_and_send_cmd_contract_witness :
  let m := ready_machine in
  (sizeof_obuffer < 0 \/ sizeof_req_cmd < 21)
  /\ build_and_send_cmd 0 TPM_ORD_Extend zeros 21 false 0
       TPM_DURATION_TYPE_SHORT m
     = ((TCG_FIRMWARE_ERROR, None, None), m).
Proof.
  intros m.
  assert (H : sizeof_obuffer < 0 \/ sizeof_req_cmd < 21)
    by (right; reflexivity).
  split; [exact H|].
  exact (proj1 (build_and_send_cmd_contract 0 TPM_ORD_Extend zeros 21 false 0
                  TPM_DURATION_TYPE_SHORT m) H).
Defined.

(** X9 for the two-byte physical-presence command. *)
Lemma build_and_send_cmd_frame_witness :
  let m := ready_machine in
  let app := str_bytes PhysicalPresence_CMD_ENABLE in
  (0 <= 2 <= sizeof_req_cmd /\ 0 <= sizeof_obuffer
   /\ 0 <= TPM_ORD_PhysicalPresence < 2 ^ 32)
  /\ exists req : bytes_at,
       be32_at req offsetof_totlen = sizeof_tpm_req_header + 2
       /\ be32_at req 6 = TPM_ORD_PhysicalPresence
       /\ (forall i, 0 <= i < 2 -> req (sizeof_tpm_req_header + i) = app i)
       /\ (forall i, 2 <= i -> req (sizeof_tpm_req_header + i) = 0)
       /\ fst (fst (fst (build_and_send_cmd 0 TPM_ORD_PhysicalPresence app 2
                           false 0 TPM_DURATION_TYPE_SHORT m)))
          = fst (fst (fst (transmit 0 req zeros sizeof_obuffer
                             TPM_DURATION_TYPE_SHORT m)))
       /\ snd (build_and_send_cmd 0 TPM_ORD_PhysicalPresence app 2
                 false 0 TPM_DURATION_TYPE_SHORT m)
          = snd (transmit 0 req zeros sizeof_obuffer
                   TPM_DURATION_TYPE_SHORT m).
Proof.
  intros m app.
  assert (H1 : 0 <= 2 <= sizeof_req_cmd) by (vm_compute; split; congruence).
  assert (H2 : 0 <= sizeof_obuffer) by (vm_compute; congruence).
  assert (H3 : 0 <= TPM_ORD_PhysicalPresence < 2 ^ 32)
    by (vm_compute; split; congruence).
  split; [exact (conj H1 (conj H2 H3))|].
  exact (build_and_send_cmd_frame 0 TPM_ORD_PhysicalPresence app 2 false 0
           TPM_DURATION_TYPE_SHORT m H1 H2 H3).
Defined.

(** X10 for the entry of PCR 1. *)
Lemma tpm_req_extend_image_decodes_witness :
  let img := tpm_req_extend_image entry_1 in
  (0 <= pcrindex entry_1 < 2 ^ 32 /\ 0 <= TPM_ORD_Extend < 2 ^ 32)
  /\ be32_at img offsetof_totlen = 34
  /\ be32_at img 6 = TPM_ORD_Extend
  /\ be32_at img sizeof_tpm_req_header = 1
  /\ (forall i, 0 <= i < sizeof_digest ->
        img (sizeof_tpm_req_header + 4 + i) = digest entry_1 i).
Proof.
  intros img.
  assert (H1 : 0 <= pcrindex entry_1 < 2 ^ 32)
    by (vm_compute; split; congruence).
  assert (H2 : 0 <= TPM_ORD_Extend < 2 ^ 32)
    by (vm_compute; split; congruence).
  split; [exact (conj H1 H2)|].
  exact (tpm_req_extend_image_decodes entry_1 H1 H2).
Defined.

(** X11 for a well-formed pass-through request. *)
Lemma pass_through_to_tpm_int_contract_witness :
  let m := ready_machine in
  let r := pass_through_to_tpm_int pttti_1 pttto_0 m in
  let t := transmit 0 (pttti_tpmopin pttti_1) (pttto_tpmopout pttto_0)
             (u32 (pttti_opblength pttti_1 - offsetof_pttto_tpmopout))
             TPM_DURATION_TYPE_LONG m in
  (if_shutdown (tpm_state m) = false
   /\ sizeof_pttti + sizeof_pointer <= pttti_ipblength pttti_1
   /\ pttti_ipblength pttti_1
      = u32 (sizeof_pttti + be32_at (pttti_tpmopin pttti_1) offsetof_totlen)
   /\ sizeof_pttto <= pttti_opblength pttti_1)
  /\ fst (fst r) = fst (fst (fst t))
  /\ snd r = snd t.
Proof.
  intros m r t.
  assert (H1 : if_shutdown (tpm_state m) = false) by reflexivity.
  assert (H2 : sizeof_pttti + sizeof_pointer <= pttti_ipblength pttti_1)
    by (vm_compute; congruence).
  assert (H3 : pttti_ipblength pttti_1
               = u32 (sizeof_pttti
                      + be32_at (pttti_tpmopin pttti_1) offsetof_totlen))
    by reflexivity.
  assert (H4 : sizeof_pttto <= pttti_opblength pttti_1)
    by (vm_compute; congruence).
  split; [exact (conj H1 (conj H2 (conj H3 H4)))|].
  pose proof (proj2 (proj2 (proj2 (proj2
                (pass_through_to_tpm_int_contract pttti_1 pttto_0 m))))
                H1 H2 H3 H4) as G.
  exact (conj (proj1 G) (proj1 (proj2 G))).
Defined.

(** X12 for a hash-log-event request that names PCR 24. *)
Lemma hash_log_blocks_form_witness :
  let m := stub_machine 30 true false 0x100000 4096 ram_entry in
  let r := hash_log_event_int hlei_24 hleo_0 m in
  fst (fst r) <> 0
  /\ hleo_opblength (snd (fst r)) = 2
  /\ hleo_reserved (snd (fst r)) = 0
  /\ hleo_eventnumber (snd (fst r)) = hleo_eventnumber hleo_0.
Proof.
  intros m r.
  assert (H : fst (fst r) <> 0) by (vm_compute; discriminate).
  split; [exact H|].
  exact (proj1 (proj2 (@hash_log_blocks_form tcg_1_2 (stub_platform 30))
                  hlei_24 hleo_0 m) H).
Defined.

(** X13 on the stub platform. *)
Lemma status_check_contract_witness :
  let m := ready_machine in
  let r := tpm_interrupt_handler32 TCG_StatusCheck regs_0 m in
  @CONFIG_TCGBIOS (stub_platform 30) = true
  /\ same_log m (snd r)
  /\ if_shutdown (tpm_state (snd r)) = if_shutdown (tpm_state m)
  /\ cf (fst (fst r)) = false.
Proof.
  intros m r.
  assert (H : @CONFIG_TCGBIOS (stub_platform 30) = true) by reflexivity.
  split; [exact H|].
  pose proof (status_check_contract regs_0 m H) as G.
  split; [apply G|]. split; apply G.
Defined.

(** X14 without a root pointer: the reset returns whatever the fuel,
    with the interface shut down and an empty log. *)
Lemma tpm_acpi_init_outcome_witness :
  let m := acpi_machine 0 zeros in
  (tcpa (tpm_state m) <> NULL \/ RsdpAddr m = NULL)
  /\ exists m', tpm_acpi_init 0 m = Some m'.
Proof.
  intros m.
  assert (H : tcpa (tpm_state m) <> NULL \/ RsdpAddr m = NULL)
    by (right; reflexivity).
  split; [exact H|].
  exact (proj1 (tpm_acpi_init_outcome 0 m) H).
Defined.

(** X15 with a TPM that answers both capability requests. *)
Lemma determine_timeouts_contract_witness :
  let m := ready_machine in
  let r := determine_timeouts m in
  (@TCG_TCG_COMMAND_ERROR _ (stub_startup 30) <> 0 /\ fst r = 0)
  /\ only_hw m (snd r).
Proof.
  intros m r.
  assert (H1 : @TCG_TCG_COMMAND_ERROR _ (stub_startup 30) <> 0)
    by (vm_compute; discriminate).
  assert (H2 : fst r = 0) by reflexivity.
  split; [exact (conj H1 H2)|].
  exact (proj2 (proj2 (determine_timeouts_contract m)) H1 H2).
Defined.

(** X16 on a machine without an SMBIOS entry point: the startup
    sequence logs the action string. *)
Lemma tpm_startup_contract_witness :
  let m := ready_machine in
  let r := tpm_startup m in
  (@CONFIG_TCGBIOS (stub_platform 30) = true
   /\ TCG_GENERAL_ERROR <> 0 /\ TCG_INVALID_INPUT_PARA <> 0
   /\ TCG_PC_LOGOVERFLOW <> 0 /\ @TCG_TCG_COMMAND_ERROR _ (stub_startup 30) <> 0
   /\ tpm_working (tpm_state (snd r)) = true)
  /\ fst r = 0
  /\ entry_count (tpm_state (snd r))
     = u32 (entry_count (tpm_state m)
            + (if SMBiosAddr m =? NULL then 1 else 2)).
Proof.
  intros m r.
  assert (H0 : @CONFIG_TCGBIOS (stub_platform 30) = true) by reflexivity.
  assert (H1 : TCG_GENERAL_ERROR <> 0) by (vm_compute; lia).
  assert (H2 : TCG_INVALID_INPUT_PARA <> 0) by (vm_compute; lia).
  assert (H3 : TCG_PC_LOGOVERFLOW <> 0) by (vm_compute; lia).
  assert (H4 : @TCG_TCG_COMMAND_ERROR _ (stub_startup 30) <> 0)
    by (vm_compute; discriminate).
  assert (H5 : tpm_working (tpm_state (snd r)) = true)
    by (vm_compute; reflexivity).
  split; [exact (conj H0 (conj H1 (conj H2 (conj H3 (conj H4 H5)))))|].
  exact (proj2 (proj2 (proj2 (tpm_startup_contract m))) H0 H1 H2 H3 H4 H5).
Defined.

(** X17 on an empty log: nine entries. *)
Lemma tpm_prepboot_contract_witness :
  let m := ready_machine in
  (@CONFIG_TCGBIOS (stub_platform 30) = true
   /\ TCG_GENERAL_ERROR <> 0 /\ TCG_INVALID_INPUT_PARA <> 0
   /\ TCG_PC_LOGOVERFLOW <> 0
   /\ tpm_working (tpm_state (tpm_prepboot m)) = true)
  /\ entry_count (tpm_state (tpm_prepboot m))
     = u32 (entry_count (tpm_state m) + 9).
Proof.
  intros m.
  assert (H0 : @CONFIG_TCGBIOS (stub_platform 30) = true) by reflexivity.
  assert (H1 : TCG_GENERAL_ERROR <> 0) by (vm_compute; lia).
  assert (H2 : TCG_INVALID_INPUT_PARA <> 0) by (vm_compute; lia).
  assert (H3 : TCG_PC_LOGOVERFLOW <> 0) by (vm_compute; lia).
  assert (H4 : tpm_working (tpm_state (tpm_prepboot m)) = true)
    by (vm_compute; reflexivity).
  split; [exact (conj H0 (conj H1 (conj H2 (conj H3 H4))))|].
  exact (proj2 (proj2 (tpm_prepboot_contract m)) H0 H1 H2 H3 H4).
Defined.

(** X18 on a failed TPM. *)
Lemma tpm_s3_resume_contract_witness :
  let m := failed_machine in
  failed m /\ tpm_s3_resume m = m.
Proof.
  intros m.
  assert (H : failed m) by (split; reflexivity).
  split; [exact H|].
  exact (proj1 (proj2 (proj2 (tpm_s3_resume_contract m))) H).
Defined.

(** X19 with the TCPA table of [ram_rsdt_tcpa]. *)
Lemma tpm_setup_outcome_witness :
  let m := acpi_machine 0x1000 ram_rsdt_tcpa in
  let m' := match tpm_setup 10 m with Some x => x | None => m end in
  (@CONFIG_TCGBIOS (stub_platform 30) = true
   /\ @runningOnXen _ (stub_startup 30) = false
   /\ TCG_GENERAL_ERROR <> 0 /\ TCG_INVALID_INPUT_PARA <> 0
   /\ TCG_PC_LOGOVERFLOW <> 0 /\ @TCG_TCG_COMMAND_ERROR _ (stub_startup 30) <> 0
   /\ tpm_setup 10 m = Some m'
   /\ tpm_working (tpm_state m') = true)
  /\ entry_count (tpm_state m') = (if SMBiosAddr m =? NULL then 1 else 2).
Proof.
  intros m m'.
  assert (H0 : @CONFIG_TCGBIOS (stub_platform 30) = true) by reflexivity.
  assert (HX : @runningOnXen _ (stub_startup 30) = false) by reflexivity.
  assert (H1 : TCG_GENERAL_ERROR <> 0) by (vm_compute; lia).
  assert (H2 : TCG_INVALID_INPUT_PARA <> 0) by (vm_compute; lia).
  assert (H3 : TCG_PC_LOGOVERFLOW <> 0) by (vm_compute; lia).
  assert (H4 : @TCG_TCG_COMMAND_ERROR _ (stub_startup 30) <> 0)
    by (vm_compute; discriminate).
  assert (H5 : tpm_setup 10 m = Some m').
  { assert (E : match tpm_setup 10 m with Some _ => true | None => false end
                = true) by (vm_compute; reflexivity).
    subst m'. destruct (tpm_setup 10 m) as [x|]; [reflexivity|discriminate]. }
  assert (H6 : tpm_working (tpm_state m') = true) by (vm_compute; reflexivity).
  split; [exact (conj H0 (conj HX (conj H1 (conj H2 (conj H3
                  (conj H4 (conj H5 H6)))))))|].
  exact (tpm_setup_outcome 10 m m' H0 HX H1 H2 H3 H4 H5 H6).
Defined.

(** X20 for an option ROM of 512 bytes at 0xc0000. *)
Lemma hashed_measurements_contract_witness :
  let m := ready_machine in
  let r := tpm_option_rom 0xc0000 512 m in
  (@CONFIG_TCGBIOS (stub_platform 30) = true
   /\ TCG_GENERAL_ERROR <> 0 /\ TCG_INVALID_INPUT_PARA <> 0
   /\ TCG_PC_LOGOVERFLOW <> 0
   /\ fst r = 0 /\ tpm_working (tpm_state (snd r)) = true)
  /\ entry_count (tpm_state (snd r)) = u32 (entry_count (tpm_state m) + 1).
Proof.
  intros m r.
  assert (H0 : @CONFIG_TCGBIOS (stub_platform 30) = true) by reflexivity.
  assert (H1 : TCG_GENERAL_ERROR <> 0) by (vm_compute; lia).
  assert (H2 : TCG_INVALID_INPUT_PARA <> 0) by (vm_compute; lia).
  assert (H3 : TCG_PC_LOGOVERFLOW <> 0) by (vm_compute; lia).
  assert (H4 : fst r = 0) by reflexivity.
  assert (H5 : tpm_working (tpm_state (snd r)) = true)
    by (vm_compute; reflexivity).
  split; [exact (conj H0 (conj H1 (conj H2 (conj H3 (conj H4 H5)))))|].
  exact (proj2 (proj2 (proj1 (hashed_measurements_contract m H0) 0xc0000 512))
           H1 H2 H3 H4 H5).
Defined.

(** X21 for a root table whose length field reads 0x10003: three rounds
    of the loop do not end the scan. *)
Lemma find_tcpa_by_rsdp_unbounded_witness :
  let m := acpi_machine 0x1000 ram_rsdt_long in
  let rsdt := le32_at (deref (ram m) 0x1000)
                offsetof_rsdp_rsdt_physical_address in
  let length := le32_at (deref (ram m) rsdt) offsetof_rsdt_length in
  (rsdt <> NULL /\ 2 ^ 16 + 3 <= length
   /\ (forall k, (k < 3)%nat ->
         tcpa_valid (ram m) (rsdt_entry (ram m) rsdt (u32 (Z.of_nat k)))
         = false))
  /\ find_tcpa_by_rsdp 3 0x1000 m = None.
Proof.
  intros m rsdt length.
  assert (H1 : rsdt <> NULL) by (vm_compute; discriminate).
  assert (H2 : 2 ^ 16 + 3 <= length) by (vm_compute; congruence).
  assert (H3 : forall k, (k < 3)%nat ->
                 tcpa_valid (ram m)
                   (rsdt_entry (ram m) rsdt (u32 (Z.of_nat k))) = false).
  { intros k Hk. do 3 (destruct k as [|k]; [reflexivity|]). lia. }
  split; [exact (conj H1 (conj H2 H3))|].
  exact (find_tcpa_by_rsdp_unbounded 3 0x1000 m H1 H2 H3).
Defined.

(** X22 for a well-formed hash-all request. *)
Lemma hash_all_int_contract_witness :
  let m := ready_machine in
  let r := hash_all_int hai_1 m in
  (if_shutdown (tpm_state m) = false
   /\ hai_ipblength hai_1 = sizeof_hai
   /\ hai_hashdataptr hai_1 <> 0
   /\ hai_hashdatalen hai_1 <> 0
   /\ hai_algorithmid hai_1 = TPM_ALG_SHA)
  /\ snd r <> None.
Proof.
  intros m r.
  assert (H : if_shutdown (tpm_state m) = false
              /\ hai_ipblength hai_1 = sizeof_hai
              /\ hai_hashdataptr hai_1 <> 0
              /\ hai_hashdatalen hai_1 <> 0
              /\ hai_algorithmid hai_1 = TPM_ALG_SHA)
    by (repeat split; vm_compute; discriminate).
  split; [exact H|].
  exact (proj2 (proj1 (hash_all_int_contract hai_1 m)) H).
Defined.
